(** * sos.hosts: path mapping, staging, command channel and host registry

    A shallow embedding of [src/sos/hosts.py].  Python values that the
    module dispatches on with [isinstance] are an inductive type, dicts
    whose iteration order matters are insertion-ordered association
    lists, the process-wide registry and the object heap are finite
    maps, and everything the module asks of its surroundings (the local
    file system, [os.path], the shell, the tunneled socket, the task
    store) is a field of an explicit world. *)

From Stdlib Require Import String Ascii ZArith Lia Bool DecimalString.
From stdpp Require Import base strings list gmap.

Set Warnings "-register-all".

Local Open Scope Z_scope.
Local Open Scope nat_scope.

(** ** Python values

    The values the module tells apart with [isinstance]: strings, path
    objects (identified by their string form), integers and [None] are
    hashable atoms, and so is any other object, known by its [repr]; lists
    and tuples are sequences; sets hold atoms. *)

Inductive atom : Type :=
  | AStr (s : string)
  | APath (s : string)
  | AInt (z : Z)
  | ANone
  | AOther (repr : string).

Inductive pyval : Type :=
  | Atom (a : atom)
  | Seq (l : list pyval)
  | PySet (l : list atom).

#[global] Instance atom_eq_dec : EqDecision atom.
Proof. solve_decision. Defined.

(** Shell commands by template.  The module renders them with
    [cfg_interpolate] from the templates of [_get_send_cmd],
    [_get_receive_cmd], [_get_execute_cmd] and the literals in
    [send_job_file] and [receive_result]; a command is kept here as the
    template chosen and the values interpolated into it. *)
Inductive command : Type :=
  | SendCmd (rename : bool) (source dest host : string) (port : Z)
  | ReceiveCmd (rename : bool) (source dest host : string) (port : Z)
  | ExecuteCmd (use_heredoc under_workdir : bool) (cmd : list string)
      (host : string) (port : Z)
  | SendJobCmd (job_file dir address : string) (port : Z)
  | ScpResultCmd (task address : string) (port : Z).

(** An f-string before rendering: literal text and interpolated values. *)
Inductive piece : Type :=
  | T (text : string)
  | V (value : pyval)
  | C (cmd : command).

Definition fstring : Type := list piece.

Definition S_ (s : string) : piece := V (Atom (AStr s)).

(** ** Task files

    The parts of a [TaskFile] of [sos.tasks] that the agents read and
    write.  A declared target set ([sos_targets], or the [Undetermined]
    of [sos.eval]) is known by what the module asks of it. *)

Record Declared : Type := {
  (** truth value of the object *)
  d_truthy : bool;
  (** [isinstance(x, Undetermined)] *)
  d_is_Undetermined : bool;
  (** [x.undetermined()] *)
  d_undetermined : bool;
  (** the targets it holds, in order *)
  d_targets : list pyval
}.

(** The [_runtime] dict of a task; [None] for an absent key or a [None]
    value. *)
Record TaskRuntime : Type := {
  rt_verbosity : option Z;
  rt_sig_mode : option string;
  rt_run_mode : option string;
  rt_walltime : option string;
  rt_cores : option Z;
  rt_mem : option Z;
  rt_workdir : option string;
  rt_to_host : option pyval;
  rt_from_host : option pyval
}.

Record SosDict : Type := {
  _runtime : TaskRuntime;
  _input : Declared;
  _depends : Declared;
  _output : option Declared
}.

Record Params : Type := {
  sos_dict : SosDict;
  task_stack : list (string * SosDict)
}.

(** The runtime an agent writes back to the task file. *)
Record StoredRuntime : Type := {
  sr_verbosity : option Z;
  sr_sig_mode : option string;
  sr_run_mode : option string;
  sr_walltime : option string;
  sr_cores : option Z;
  sr_mem : option Z;
  sr_workdir : string;
  sr_max_mem : option Z;
  sr_max_cores : option Z;
  sr_max_walltime : option string;
  (** the local host's [shared] and [paths] sections are recorded *)
  sr_localhost : bool;
  (** the entry [task_id: {}] is present *)
  sr_task_entry : bool
}.

(** A task result: [None] for an absent key. *)
Record TaskResult : Type := {
  ret_code : option Z;
  succ : option Z;
  output : option pyval;
  subtasks : option (list (string * option pyval))
}.

(** ** Exceptions and results *)

Inductive exn : Type :=
  | ValueError (msg : fstring)
  | RuntimeError (msg : fstring)
  | FileNotFoundError (file : string)
  | AssertionError
  | IndexError
  | KeyError
  | TypeError
  | AttributeError
  | OSError.

Inductive result (A : Type) : Type :=
  | Ok (a : A)
  | Raise (e : exn).
Arguments Ok {A} a.
Arguments Raise {A} e.

Definition rbind {A B} (m : result A) (k : A -> result B) : result B :=
  match m with
  | Ok a => k a
  | Raise e => Raise e
  end.

Notation "'try' x <- m ; k" := (rbind m (fun x => k))
  (at level 10, x name, m at level 100, k at level 200,
   format "'[v' 'try'  x  <-  m ; '/' k ']'").

(** ** Python string operations used by the module *)

Module Py.

(** [s[n:]] *)
Fixpoint drop (n : nat) (s : string) : string :=
  match n, s with
  | O, _ => s
  | S _, EmptyString => EmptyString
  | S n', String _ s' => drop n' s'
  end.

(** [s[:n]] *)
Fixpoint take (n : nat) (s : string) : string :=
  match n, s with
  | O, _ => EmptyString
  | S _, EmptyString => EmptyString
  | S n', String c s' => String c (take n' s')
  end.

(** [s.startswith(p)] *)
Definition startswith (s p : string) : bool := String.prefix p s.

(** [s.endswith(p)] *)
Definition endswith (s p : string) : bool :=
  (String.length p <=? String.length s)
  && String.eqb (drop (String.length s - String.length p) s) p.

(** [s.replace(a, b)] for one-character [a] and [b]. *)
Fixpoint replace (a b : ascii) (s : string) : string :=
  match s with
  | EmptyString => EmptyString
  | String c s' =>
      String (if Ascii.eqb c a then b else c) (replace a b s')
  end.

(** The scanner behind [sep in s], [s.count(sep)] and [s.split(sep)] for a
    non-empty [sep]: left to right, non-overlapping.  [skip] counts the
    characters of a separator just matched that are still to be passed
    over. *)
Fixpoint split_go (sep : string) (skip : nat) (cur : string) (s : string)
  : list string :=
  match s with
  | EmptyString => [cur]
  | String c s' =>
      match skip with
      | S k => split_go sep k cur s'
      | O =>
          if String.prefix sep s
          then cur :: split_go sep (String.length sep - 1) EmptyString s'
          else split_go sep 0 (cur +:+ String c EmptyString) s'
      end
  end.

Definition split (sep s : string) : list string := split_go sep 0 EmptyString s.

Fixpoint count_go (sep : string) (skip : nat) (s : string) : nat :=
  match s with
  | EmptyString => 0
  | String _ s' =>
      match skip with
      | S k => count_go sep k s'
      | O =>
          if String.prefix sep s
          then S (count_go sep (String.length sep - 1) s')
          else count_go sep 0 s'
      end
  end.

Definition count (sep s : string) : nat := count_go sep 0 s.

(** [sep in s] *)
Fixpoint contains (sep s : string) : bool :=
  String.prefix sep s
  || match s with
     | EmptyString => false
     | String _ s' => contains sep s'
     end.

(** [s.rstrip(c)] for a one-character [c]. *)
Fixpoint rstrip (c : ascii) (s : string) : string :=
  match s with
  | EmptyString => EmptyString
  | String a s' =>
      match rstrip c s' with
      | EmptyString => if Ascii.eqb a c then EmptyString else String a EmptyString
      | r => String a r
      end
  end.

(** [s.strip()] *)
Fixpoint lstrip (s : string) : string :=
  match s with
  | EmptyString => EmptyString
  | String a s' => if Ascii.is_space a then lstrip s' else s
  end.

Fixpoint rstrip_space (s : string) : string :=
  match s with
  | EmptyString => EmptyString
  | String a s' =>
      match rstrip_space s' with
      | EmptyString => if Ascii.is_space a then EmptyString else String a EmptyString
      | r => String a r
      end
  end.

Definition strip (s : string) : string := rstrip_space (lstrip s).

(** [sorted(l)] for a total order [leb]; stable. *)
Fixpoint insort {A} (leb : A -> A -> bool) (x : A) (l : list A) : list A :=
  match l with
  | [] => [x]
  | y :: l' => if leb y x then y :: insort leb x l' else x :: y :: l'
  end.

Definition sorted {A} (leb : A -> A -> bool) (l : list A) : list A :=
  fold_left (fun acc x => insort leb x acc) l [].

(** [max(l, key=len)]: the first element of greatest length; [None]
    stands for the [ValueError] of an empty argument. *)
Fixpoint max_len_from (best : string) (l : list string) : string :=
  match l with
  | [] => best
  | x :: l' =>
      if String.length best <? String.length x
      then max_len_from x l'
      else max_len_from best l'
  end.

Definition max_len (l : list string) : option string :=
  match l with
  | [] => None
  | x :: l' => Some (max_len_from x l')
  end.

End Py.

(** ** Insertion-ordered dicts

    A Python [dict] iterates in insertion order and assigning to a key
    that is present keeps its position. *)

Section Dict.
Context {K V : Type} `{EqDecision K}.

Fixpoint dict_get (d : list (K * V)) (k : K) : option V :=
  match d with
  | [] => None
  | (k', v) :: d' => if decide (k' = k) then Some v else dict_get d' k
  end.

Fixpoint dict_set (d : list (K * V)) (k : K) (v : V) : list (K * V) :=
  match d with
  | [] => [(k, v)]
  | (k', v') :: d' =>
      if decide (k' = k) then (k', v) :: d' else (k', v') :: dict_set d' k v
  end.

Definition dict_keys (d : list (K * V)) : list K := map fst d.

(** [d.update(e)] *)
Definition dict_update (d e : list (K * V)) : list (K * V) :=
  fold_left (fun acc kv => dict_set acc kv.1 kv.2) e d.
End Dict.

(** ** Effects

    What an operation does besides returning: log records, shell commands
    handed to [subprocess], sleeps and directory creation, in order. *)

Inductive level : Type := Debug | Info | Warning | Error.

Inductive event : Type :=
  | Log (lv : level) (msg : fstring)
  | LogToFile (tag : string) (msg : fstring)
  | Call (c : command) (quiet : bool)
  | Spawn (c : command)
  | WaitFor (c : command)
  | Sleep (seconds : nat)
  | Makedirs (dir : string)
  | Chmod (file : string)
  | ShowErrOut (task : string)
  | Copyfile (source dest : string)
  | SetRuntime (task : string) (runtime : StoredRuntime)
  | SetStatus (task status : string)
  | OpenTunnel (sock : nat) (addr server : string)
  | SendAlive (sock : nat)
  | Poll (sock : nat) (milliseconds : nat)
  | CloseSocket (sock : nat).

Definition trace : Type := list event.

(** A computation starts from the history of effects so far, extends it,
    and returns or raises.  What the surroundings answer may depend on
    that history. *)
Definition M (A : Type) : Type := trace -> trace * result A.

Definition ret {A} (a : A) : M A := fun t => (t, Ok a).
Definition raise {A} (e : exn) : M A := fun t => (t, Raise e).
Definition emit (e : event) : M unit := fun t => (t ++ [e], Ok tt).
Definition lift {A} (r : result A) : M A := fun t => (t, r).
Definition ask {A} (f : trace -> A) : M A := fun t => (t, Ok (f t)).

Definition bind {A B} (m : M A) (k : A -> M B) : M B :=
  fun t =>
    match m t with
    | (t', Ok a) => k a t'
    | (t', Raise e) => (t', Raise e)
    end.

(** [try: m except Exception as e: h e] *)
Definition catch {A} (m : M A) (h : exn -> M A) : M A :=
  fun t =>
    match m t with
    | (t', Ok a) => (t', Ok a)
    | (t', Raise e) => h e t'
    end.

(** A run from the empty history. *)
Definition effects {A} (m : M A) : trace := (m []).1.
Definition outcome {A} (m : M A) : result A := (m []).2.

Notation "x <- m ;; k" := (bind m (fun x => k))
  (at level 100, m at next level, right associativity).
Notation "m ;; k" := (bind m (fun _ => k))
  (at level 100, right associativity).

Definition when (b : bool) (m : M unit) : M unit := if b then m else ret tt.

Definition log (lv : level) (msg : fstring) : M unit := emit (Log lv msg).

(** [for x in l: body x], stopping at the first exception. *)
Fixpoint for_each {A} (l : list A) (body : A -> M unit) : M unit :=
  match l with
  | [] => ret tt
  | x :: l' => body x ;; for_each l' body
  end.

(** [[f x for x in l]] *)
Fixpoint map_m {A B} (f : A -> M B) (l : list A) : M (list B) :=
  match l with
  | [] => ret []
  | x :: l' => y <- f x ;; ys <- map_m f l' ;; ret (y :: ys)
  end.

(** ** The local file system and [os.path]

    [stat] gives the identity (device and inode) of the file a path names,
    or nothing when the path names no file.  The [os.path] functions are
    those of the platform. *)

Record FileSystem : Type := {
  getcwd : string;
  stat : string -> option nat;
  abspath : string -> string;
  expanduser : string -> string;
  isabs : string -> bool;
  join : string -> string -> string;
  basename : string -> string;
  dirname : string -> string;
  (** [path(name, host=alias)] of [sos.targets]: a named path [#name/...]
      resolved in the table of host [alias]. *)
  named_path : string -> string -> result string
}.

Section PathMapper.
Variable fs : FileSystem.

(** [os.path.exists] *)
Definition exists_ (p : string) : bool :=
  match stat fs p with Some _ => true | None => false end.

(** [os.path.samefile]: both paths are stat'ed, a missing one raises. *)
Definition samefile (p q : string) : result bool :=
  match stat fs p with
  | None => Raise (FileNotFoundError p)
  | Some i =>
      match stat fs q with
      | None => Raise (FileNotFoundError q)
      | Some j => Ok (Nat.eqb i j)
      end
  end.

(** [os.path.exists(p) and os.path.samefile(p, q)] *)
Definition exists_and_samefile (p q : string) : result bool :=
  if exists_ p then samefile p q else Ok false.

(** The substitution of the working directory's own spelling:
    [if exists(dest[:len(cwd)]) and samefile(dest[:len(cwd)], cwd):
       dest = cwd + dest[len(cwd):]] *)
Definition cwd_spelling (dest : string) : result string :=
  let cwd := getcwd fs in
  try same <- exists_and_samefile (Py.take (String.length cwd) dest) cwd;
  Ok (if same then cwd +:+ Py.drop (String.length cwd) dest else dest).

(** [[k for k in keys if exists(dest[:len(k)]) and samefile(dest[:len(k)], k)]] *)
Fixpoint matched_keys (dest : string) (keys : list string)
  : result (list string) :=
  match keys with
  | [] => Ok []
  | k :: keys' =>
      try b <- exists_and_samefile (Py.take (String.length k) dest) k;
      try rest <- matched_keys dest keys';
      Ok (if b then k :: rest else rest)
  end.

(** The body that [_map_path] and [_map_var] share, word for word, for a
    string or path [source] that is not a named path. *)
Definition map_local (path_map : list (string * string)) (source : string)
  : M string :=
  let dest := abspath fs (expanduser fs source) in
  dest <- lift (cwd_spelling dest) ;;
  matched <- lift (matched_keys dest (dict_keys path_map)) ;;
  dest <- match Py.max_len matched with
          | Some k =>
              match dict_get path_map k with
              | Some r => ret (r +:+ Py.drop (String.length k) dest)
              | None => raise KeyError
              end
          | None =>
              log Debug [T "Path "; S_ source;
                         T " is not under any specified paths of localhost and is mapped to ";
                         S_ dest; T " on remote host."] ;;
              ret dest
          end ;;
  ret (Py.replace "\"%char "/"%char dest).

(** [[l for l, r in path_map.items() if dest.startswith(r) and
      (len(r) == len(dest) or r.endswith("/") or r.endswith("\\")
       or dest[len(r)] in ("/", "\\"))]] *)
Definition on_boundary (r dest : string) : bool :=
  Nat.eqb (String.length r) (String.length dest)
  || Py.endswith r "/"
  || Py.endswith r "\"
  || match String.get (String.length r) dest with
     | Some c => Ascii.eqb c "/"%char || Ascii.eqb c "\"%char
     | None => false
     end.

Definition reverse_matched (path_map : list (string * string)) (dest : string)
  : list string :=
  map fst
    (List.filter (fun lr => Py.startswith dest lr.2 && on_boundary lr.2 dest)
       path_map).

Definition reverse_local (path_map : list (string * string)) (dest : string)
  : M string :=
  dest <- match Py.max_len (reverse_matched path_map dest) with
          | Some k =>
              match dict_get path_map k with
              | Some r => ret (k +:+ Py.drop (String.length r) dest)
              | None => raise KeyError
              end
          | None =>
              log Debug [T "Path "; S_ dest;
                         T " is not under any specified paths of localhost and is mapped to ";
                         S_ dest; T " on local host."] ;;
              ret dest
          end ;;
  ret (Py.replace "\"%char "/"%char dest).
End PathMapper.

(** ** Host configuration *)

(** What the configuration may hold under [path_map] and [shared]. *)
Inductive path_map_value : Type :=
  | PMStr (s : string)
  | PMList (l : list string)
  | PMDict (d : list (string * string))
  | PMInt (z : Z)
  | PMNone.

Inductive shared_value : Type :=
  | ShStr (s : string)
  | ShList (l : list string)
  (** any other value, [None] included *)
  | ShOther.

(** The keys of the [config] dict that the module reads; an absent key and
    a key holding [None] are both [None] here, except under [shared] and
    [path_map], where [None] is an absent key only and a key holding
    [None] is the value [ShOther], respectively [PMNone]. *)
Record Config : Type := {
  cfg_alias : string;
  cfg_address : string;
  cfg_port : option Z;
  cfg_pem_file : option string;
  cfg_shared : option shared_value;
  cfg_path_map : option path_map_value;
  cfg_max_mem : option Z;
  cfg_max_cores : option Z;
  cfg_max_walltime : option string;
  cfg_queue_type : option string
}.

(** Python truth of a [path_map] value. *)
Definition pm_truthy (v : path_map_value) : bool :=
  match v with
  | PMStr s => negb (String.eqb s "")
  | PMList l => negb (Nat.eqb (length l) 0)
  | PMDict d => negb (Nat.eqb (length d) 0)
  | PMInt z => negb (Z.eqb z 0)
  | PMNone => false
  end.

Definition arrow : string := " -> ".

Definition bad_path_map (v : string) : exn :=
  ValueError [T "Path map should be separated as from -> to, "; S_ v; T " specified"].

(** The loop of [_get_path_map] over the entries of a sequence. *)
Fixpoint parse_path_map (res : list (string * string)) (entries : list string)
  : result (list (string * string)) :=
  match entries with
  | [] => Ok res
  | v :: entries' =>
      if negb (Py.contains arrow v) then Raise (bad_path_map v)
      else if 1 <? Py.count arrow v then Raise (bad_path_map v)
      else
        match Py.split arrow v with
        | from :: to :: _ => parse_path_map (dict_set res from to) entries'
        | _ => Raise IndexError
        end
  end.

(** [RemoteHost._get_path_map] *)
Definition _get_path_map (config : Config) : result (list (string * string)) :=
  let path_map := default (PMList []) (cfg_path_map config) in
  if negb (pm_truthy path_map) then Ok []
  else
    let path_map := match path_map with PMStr s => PMList [s] | v => v end in
    match path_map with
    | PMList l => parse_path_map [] l
    | PMDict d => Ok (dict_update [] d)
    | PMStr s => Ok []
    | PMInt z =>
        Raise (ValueError [T "Unacceptable path_mapue for configuration path_map: ";
                           V (Atom (AInt z))])
    | PMNone => Ok []
    end.

(** [RemoteHost._get_shared_dirs] *)
Definition _get_shared_dirs (config : Config) : result (list string) :=
  match default (ShList []) (cfg_shared config) with
  | ShStr s => Ok [s]
  | ShList l => Ok l
  | ShOther =>
      Raise (ValueError [T "Option shared can only be a string or a list of strings"])
  end.

(** ** The remote agent

    The attributes of a [RemoteHost] that its methods read.  The option
    strings [cm_opts] and [pem_opts] only enter the text of shell commands
    and are left to the command templates. *)

Record RemoteHost : Type := {
  config : Config;
  alias : string;
  address : string;
  port : Z;
  pem_file : option string;
  shared_dirs : list string;
  path_map : list (string * string);
  remote_socket : option nat
}.

(** [str(x)] *)
Definition str (a : atom) : string :=
  match a with
  | AStr s | APath s => s
  | AInt z => NilZero.string_of_int (Z.to_int z)
  | ANone => "None"
  | AOther r => r
  end.

Section Mapper.
Variable fs : FileSystem.
Variable self : RemoteHost.

(** [RemoteHost.is_shared] *)
Definition is_shared (path : string) : bool :=
  let fullpath := abspath fs (expanduser fs path) in
  (fix loop (dirs : list string) : bool :=
     match dirs with
     | [] => false
     | sdir :: dirs' =>
         if Py.startswith fullpath sdir
         then if negb (existsb (Py.startswith fullpath) (dict_keys (path_map self)))
              then true
              else loop dirs'
         else loop dirs'
     end) (shared_dirs self).

Definition is_none (v : pyval) : bool :=
  match v with Atom ANone => true | _ => false end.

Definition without_none (l : list pyval) : list pyval :=
  List.filter (fun v => negb (is_none v)) l.

(** [_map_var] on a value that is not a container. *)
Definition map_var_atom (source : atom) : M pyval :=
  match source with
  | AStr s | APath s =>
      if Py.startswith s "#"
      then p <- lift (named_path fs (alias self) s) ;; ret (Atom (APath p))
      else dest <- map_local fs (path_map self) s ;; ret (Atom (AStr dest))
  | _ =>
      log Debug [T "Ignore unmappable source "; V (Atom source)] ;;
      ret (Atom source)
  end.

(** [RemoteHost._map_var] *)
Fixpoint _map_var (source : pyval) : M pyval :=
  match source with
  | Atom a => map_var_atom a
  | Seq l =>
      mapped <- (fix each (l : list pyval) : M (list pyval) :=
                   match l with
                   | [] => ret []
                   | x :: l' => y <- _map_var x ;; ys <- each l' ;; ret (y :: ys)
                   end) l ;;
      ret (Seq (without_none mapped))
  | PySet l =>
      mapped <- map_m map_var_atom l ;;
      ret (Seq (without_none mapped))
  end.

Definition reverse_map_var_atom (dest : atom) : M pyval :=
  match dest with
  | AStr s | APath s =>
      d <- reverse_local (path_map self) s ;; ret (Atom (AStr d))
  | _ =>
      log Debug [T "Ignore unmappable source "; V (Atom dest)] ;;
      ret (Atom dest)
  end.

(** [RemoteHost._reverse_map_var] *)
Fixpoint _reverse_map_var (dest : pyval) : M pyval :=
  match dest with
  | Atom a => reverse_map_var_atom a
  | Seq l =>
      mapped <- (fix each (l : list pyval) : M (list pyval) :=
                   match l with
                   | [] => ret []
                   | x :: l' => y <- _reverse_map_var x ;; ys <- each l' ;; ret (y :: ys)
                   end) l ;;
      ret (Seq (without_none mapped))
  | PySet l =>
      mapped <- map_m reverse_map_var_atom l ;;
      ret (Seq (without_none mapped))
  end.

(** [RemoteHost._map_path]: a dict from each source to its destination. *)
Fixpoint _map_path (source : pyval) : M (list (atom * atom)) :=
  match source with
  | Atom (AStr s) =>
      if Py.startswith s "#"
      then l <- lift (named_path fs "localhost" s) ;;
           r <- lift (named_path fs (alias self) s) ;;
           ret [(APath l, APath r)]
      else dest <- map_local fs (path_map self) s ;; ret [(AStr s, AStr dest)]
  | Atom (APath s) =>
      dest <- map_local fs (path_map self) s ;; ret [(APath s, AStr dest)]
  | Seq l =>
      (fix each (l : list pyval) (result : list (atom * atom))
         : M (list (atom * atom)) :=
         match l with
         | [] => ret result
         | src :: l' =>
             d <- _map_path src ;; each l' (dict_update result d)
         end) l []
  | Atom a =>
      log Debug [T "Ignore unmappable source "; V source] ;;
      ret [(a, a)]
  | PySet _ =>
      (* a set is not hashable and cannot be a key *)
      log Debug [T "Ignore unmappable source "; V source] ;;
      raise TypeError
  end.

(** [RemoteHost._remote_abs] *)
Definition _remote_abs (path : atom) : M string :=
  let path := str path in
  if isabs fs path then ret path
  else
    base <- _map_var (Atom (AStr (getcwd fs))) ;;
    match base with
    | Atom (AStr b) | Atom (APath b) => ret (join fs b path)
    | _ => raise TypeError
    end.
End Mapper.

(** ** The surroundings of an agent

    The answers of the shell and of the local file system to the calls an
    operation makes may depend on what the operation has done so far, so
    they take the history. *)

Record World : Type := {
  fs :> FileSystem;
  (** [list(x.parent.glob(x.name))] for the path [x] *)
  glob_parent : string -> list string;
  (** [find_symbolic_links(item)] of [sos.utils]: link and real path *)
  find_symbolic_links : string -> list (string * string);
  (** exit status of [subprocess.call] *)
  call : trace -> command -> Z;
  (** [os.path.isdir] *)
  isdir : trace -> string -> bool;
  (** the exception of [os.makedirs], if it fails *)
  makedirs : trace -> string -> option exn;
  (** ["TASK" in env.config["SOS_DEBUG"] or "ALL" in env.config["SOS_DEBUG"]] *)
  debug_task : bool;
  (** [env.config["run_mode"] == "dryrun"] *)
  dryrun : bool;
  (** [env.verbosity] *)
  verbosity : Z;
  (** [os.path.isfile] of the task file of a task *)
  isfile_task : trace -> string -> bool;
  (** [TaskFile(task_id).params] *)
  task_params : trace -> string -> result Params;
  (** [TaskFile(task_id).result]; [None] also for an empty result *)
  task_result : trace -> string -> option TaskResult;
  (** the files [~/.sos/tasks/<task_id>.*] that are not writable *)
  readonly_task_files : trace -> string -> list string;
  (** [expand_time] and [format_HHMMSS] of [sos.utils] *)
  expand_time : string -> result Z;
  format_HHMMSS : string -> result string;
  (** [path.cwd().to_named_path()], which raises when no named path
      covers the working directory *)
  cwd_named_path : result string;
  (** [os.getuid()] *)
  getuid : Z
}.

(** The order of [sorted] on the keys of a dict: strings by code point,
    and path objects by their string form; keys of different kinds are
    not compared (the keys that [send_to_host] sorts are all path
    objects). *)
Definition is_str (a : atom) : bool := match a with AStr _ => true | _ => false end.
Definition is_path (a : atom) : bool := match a with APath _ => true | _ => false end.
Definition is_str_or_path (v : pyval) : bool :=
  match v with Atom (AStr _) | Atom (APath _) => true | _ => false end.

Definition sorted_keys (keys : list atom) : result (list atom) :=
  if forallb is_str keys
  then Ok (Py.sorted (fun a b => String.leb (str a) (str b)) keys)
  else if forallb is_path keys
  then Ok (Py.sorted (fun a b => String.leb (str a) (str b)) keys)
  else if length keys <=? 1 then Ok keys
  else Raise TypeError.

Section Staging.
Variable w : World.
Variable self : RemoteHost.

Definition log_task (msg : fstring) : M unit :=
  when (debug_task w) (emit (LogToFile "TASK" msg)).

(** The strings and paths of a sequence, and what is left out. *)
Definition ignored (items : list pyval) : list pyval :=
  List.filter (fun x => negb (is_str_or_path x)) items.
Definition kept (items : list pyval) : list pyval :=
  List.filter is_str_or_path items.

Definition atom_of (v : pyval) : atom :=
  match v with Atom a => a | _ => ANone end.

(** The body of the loop of [send_to_host] for one [source]. *)
Definition send_one (sending : list (atom * atom)) (source : atom)
  : M (atom * string) :=
  match dict_get sending source with
  | None => raise KeyError
  | Some d =>
      dest <- _remote_abs w self d ;;
      (if is_shared w self (str source)
       then log_task [T "Skip sending "; V (Atom source); T " on shared file system"]
       else
         log_task [T "Sending ``"; V (Atom source); T "`` to "; S_ (alias self);
                   T ":"; S_ dest] ;;
         let cmd := SendCmd (negb (String.eqb (basename w (str source)) (basename w dest)))
                      (Py.rstrip "/" (str source)) dest (address self) (port self) in
         log_task [C cmd] ;;
         r <- ask (fun t => call w t cmd) ;;
         emit (Call cmd true) ;;
         if negb (Z.eqb r 0)
         then raise (RuntimeError
                [T "Failed to copy "; V (Atom source); T " to "; S_ (alias self);
                 T " using command "; C cmd;
                 T ". The remote host might be unavailable."])
         else ret tt) ;;
      ret (source, dest)
  end.

Fixpoint send_all (sending : list (atom * atom)) (sources : list atom)
    (sent : list (atom * string)) : M (list (atom * string)) :=
  match sources with
  | [] => ret sent
  | source :: sources' =>
      sd <- send_one sending source ;;
      send_all sending sources' (dict_set sent sd.1 sd.2)
  end.

(** [RemoteHost.send_to_host] *)
Definition send_to_host (items : pyval) : M (list (atom * string)) :=
  let transfer (p : list string) : M (list (atom * string)) :=
    let items := concat (map (glob_parent w) p) in
    new_items <- map_m (fun item =>
                   let links := find_symbolic_links w item in
                   for_each links (fun lr =>
                     log Info [T "Adding "; S_ lr.2; T " for symbolic link "; S_ lr.1]) ;;
                   ret (map snd links)) items ;;
    let items := items ++ concat new_items in
    sending <- _map_path w self (Seq (map (fun i => Atom (APath i)) items)) ;;
    sources <- lift (sorted_keys (dict_keys sending)) ;;
    send_all sending sources [] in
  match items with
  | Atom (AStr s) => transfer [s]
  | Atom (APath s) => transfer [s]
  | Seq l =>
      when (negb (Nat.eqb (length (ignored l)) 0))
        (log Info [T "``Ignore`` "; V (Seq (ignored l))]) ;;
      transfer (map (fun x => str (atom_of x)) (kept l))
  | _ =>
      log Warning [T "Unrecognized items to be sent to host: "; V items] ;;
      ret []
  end.

(** The body of the loop of [receive_from_host] for one [source]. *)
Definition receive_one (receiving : list (string * string)) (source : string)
  : M (string * string) :=
  match dict_get receiving source with
  | None => raise KeyError
  | Some dest =>
      let dest_dir := dirname w dest in
      there <- ask (fun t => isdir w t dest_dir) ;;
      when (negb (String.eqb dest_dir "") && negb there)
        (failed <- ask (fun t => makedirs w t dest_dir) ;;
         emit (Makedirs dest_dir) ;;
         match failed with
         | Some e =>
             log Error [T "Failed to create destination directory "; S_ dest_dir]
         | None => ret tt
         end) ;;
      (if is_shared w self dest
          && String.eqb (basename w source) (basename w dest)
       then log Debug [T "Skip retrieving ``"; S_ dest; T "`` from shared file system"]
       else
         let cmd := ReceiveCmd (negb (String.eqb (basename w source) (basename w dest)))
                      (Py.rstrip "/" source) dest (address self) (port self) in
         log_task [C cmd] ;;
         r <- ask (fun t => call w t cmd) ;;
         emit (Call cmd true) ;;
         if negb (Z.eqb r 0)
         then raise (RuntimeError
                [T "Failed to copy "; S_ source; T " from "; S_ (alias self);
                 T " using command "; C cmd; T ": command return "; V (Atom (AInt r))])
         else ret tt) ;;
      ret (dest, source)
  end.

Fixpoint receive_all (receiving : list (string * string)) (sources : list string)
    (received : list (string * string)) : M (list (string * string)) :=
  match sources with
  | [] => ret received
  | source :: sources' =>
      ds <- receive_one receiving source ;;
      receive_all receiving sources' (dict_set received ds.1 ds.2)
  end.

(** [{self._remote_abs(y): str(x) for x, y in mapped.items()}] *)
Fixpoint receiving_of (mapped : list (atom * atom)) (acc : list (string * string))
  : M (list (string * string)) :=
  match mapped with
  | [] => ret acc
  | (x, y) :: mapped' =>
      k <- _remote_abs w self y ;;
      receiving_of mapped' (dict_set acc k (str x))
  end.

(** [RemoteHost.receive_from_host] *)
Definition receive_from_host (items : pyval) : M (list (string * string)) :=
  let transfer (items : list pyval) : M (list (string * string)) :=
    mapped <- _map_path w self (Seq items) ;;
    receiving <- receiving_of mapped [] ;;
    receive_all receiving (Py.sorted String.leb (dict_keys receiving)) [] in
  match items with
  | Atom (AStr s) => transfer [Atom (AStr s)]
  | Atom (APath s) => transfer [Atom (AStr s)]
  | Seq l =>
      when (negb (Nat.eqb (length (ignored l)) 0))
        (log Info [T "``Ignore`` "; V (Seq (ignored l))]) ;;
      transfer (kept l)
  | _ =>
      log Warning [T "Unrecognized items to be retrieved from host: "; V items] ;;
      ret []
  end.
End Staging.

(** [str(e)] of an exception *)
Definition str_exn (e : exn) : fstring :=
  match e with
  | ValueError msg | RuntimeError msg => msg
  | FileNotFoundError f => [T "No such file or directory: "; S_ f]
  | _ => []
  end.

(** ** Task preparation *)

Section Limits.
Variable w : World.
Variable config : Config.
Variable task_id : string.
Variable rt : TaskRuntime.

(** The three tests that [LocalHost.prepare_task] and
    [RemoteHost._prepare_task] both make, in this order, with the
    message of the first that holds. *)
Definition mem_exceeded : option fstring :=
  match cfg_max_mem config, rt_mem rt with
  | Some max_mem, Some mem =>
      if (max_mem <? mem)%Z
      then Some [T "Task "; S_ task_id; T " requested more mem (";
                 V (Atom (AInt mem)); T ") than allowed max_mem (";
                 V (Atom (AInt max_mem)); T ")"]
      else None
  | _, _ => None
  end.

Definition cores_exceeded : option fstring :=
  match cfg_max_cores config, rt_cores rt with
  | Some max_cores, Some cores =>
      if (max_cores <? cores)%Z
      then Some [T "Task "; S_ task_id; T " requested more cores (";
                 V (Atom (AInt cores)); T ") than allowed max_cores (";
                 V (Atom (AInt max_cores)); T ")"]
      else None
  | _, _ => None
  end.

Definition walltime_exceeded : result (option fstring) :=
  match cfg_max_walltime config, rt_walltime rt with
  | Some max_walltime, Some walltime =>
      try a <- expand_time w max_walltime;
      try b <- expand_time w walltime;
      Ok (if (a <? b)%Z
          then Some [T "Task "; S_ task_id; T " requested more walltime (";
                     S_ walltime; T ") than allowed max_walltime (";
                     S_ max_walltime; T ")"]
          else None)
  | _, _ => Ok None
  end.

Definition exceeded : result (option fstring) :=
  match mem_exceeded with
  | Some msg => Ok (Some msg)
  | None =>
      match cores_exceeded with
      | Some msg => Ok (Some msg)
      | None => walltime_exceeded
      end
  end.

(** [format_HHMMSS(self.config["max_walltime"])] when the key is there *)
Definition stored_max_walltime : result (option string) :=
  match cfg_max_walltime config with
  | Some t => try s <- format_HHMMSS w t; Ok (Some s)
  | None => Ok None
  end.

Definition stored (workdir : string) (max_walltime : option string)
    (remote : bool) : StoredRuntime :=
  {| sr_verbosity := rt_verbosity rt; sr_sig_mode := rt_sig_mode rt;
     sr_run_mode := rt_run_mode rt; sr_walltime := rt_walltime rt;
     sr_cores := rt_cores rt; sr_mem := rt_mem rt;
     sr_workdir := workdir;
     sr_max_mem := cfg_max_mem config; sr_max_cores := cfg_max_cores config;
     sr_max_walltime := max_walltime;
     sr_localhost := remote; sr_task_entry := remote |}.
End Limits.

Definition task_file_of (w : World) (task_id : string) : string :=
  join w (join w (join w (expanduser w "~") ".sos") "tasks") (task_id +:+ ".task").

Definition has_limit (config : Config) : bool :=
  bool_decide (is_Some (cfg_max_mem config))
  || bool_decide (is_Some (cfg_max_cores config))
  || bool_decide (is_Some (cfg_max_walltime config)).

Module LocalHost.
Section LocalHost.
Variable w : World.
Variable config : Config.

(** [LocalHost.send_job_file] *)
Definition send_job_file (job_file : string) : M unit :=
  let dest_job_file := expanduser w ("~/.sos/tasks/" +:+ basename w job_file) in
  when (negb (String.eqb job_file dest_job_file))
    (emit (Copyfile job_file dest_job_file)).

(** [LocalHost.prepare_task].  The runtime is always written back: it
    holds [workdir], so [runtime["_runtime"]] is true. *)
Definition prepare_task (task_id : string) : M bool :=
  let task_file := task_file_of w task_id in
  present <- ask (fun t => isfile_task w t task_id) ;;
  if negb present
  then raise (ValueError [T "Missing task definition "; S_ task_file])
  else
    params <- bind (ask (fun t => task_params w t task_id)) lift ;;
    let rt := _runtime (sos_dict params) in
    let workdir := default (getcwd w) (rt_workdir rt) in
    over <- (if has_limit config
             then max_walltime <- lift (stored_max_walltime w config) ;;
                  over <- lift (exceeded w config task_id rt) ;;
                  ret (max_walltime, over)
             else ret (None, None)) ;;
    match over.2 with
    | Some msg => log Error msg ;; ret false
    | None =>
        emit (SetRuntime task_id (stored config rt workdir over.1 false)) ;;
        emit (SetStatus task_id "pending") ;;
        send_job_file task_file ;;
        ret true
    end.
End LocalHost.
End LocalHost.

Section RemoteTasks.
Variable w : World.
Variable self : RemoteHost.

(** [RemoteHost.send_job_file] *)
Definition send_job_file (job_file : string) : M unit :=
  let cmd := SendJobCmd job_file "tasks" (address self) (port self) in
  r <- ask (fun t => call w t cmd) ;;
  emit (Call cmd false) ;;
  if negb (Z.eqb r 0)
  then raise (RuntimeError [T "Failed to copy job "; S_ job_file; T " to ";
                            S_ (alias self); T " using command "; C cmd])
  else ret tt.

Definition send_declared (task_id : string) (d : Declared) : M unit :=
  when (d_truthy d && negb (d_is_Undetermined d))
    (sent <- send_to_host w self (Seq (d_targets d)) ;;
     when (negb (Nat.eqb (length sent) 0))
       (log Info [S_ task_id; T " ``sent`` "; V (Seq (map Atom (dict_keys sent)));
                  T " to "; S_ (alias self)])).

(** [isinstance(x, (str, Sequence))] and, for a sequence, all of its
    members strings *)
Definition strings_only (v : pyval) : bool :=
  match v with
  | Atom (AStr _) => true
  | Seq l => forallb (fun x => match x with Atom (AStr _) => true | _ => false end) l
  | _ => false
  end.

(** [RemoteHost._prepare_task] *)
Definition _prepare_task (task_id : string) : M unit :=
  let task_file := task_file_of w task_id in
  present <- ask (fun t => isfile_task w t task_id) ;;
  if negb present
  then raise (ValueError [T "Missing task definition "; S_ task_file])
  else
    params <- bind (ask (fun t => task_params w t task_id)) lift ;;
    let task_vars := sos_dict params in
    let rt := _runtime task_vars in
    over <- lift (exceeded w (config self) task_id rt) ;;
    match over with
    | Some msg => raise (ValueError msg)
    | None =>
        send_declared task_id (_input task_vars) ;;
        send_declared task_id (_depends task_vars) ;;
        match rt_to_host rt with
        | Some to_host =>
            if negb (strings_only to_host)
            then raise (ValueError
                   [T "Parameter to_host accepts a list of paths (strings). ";
                    V to_host; T " provided"])
            else
              sent <- send_to_host w self to_host ;;
              when (negb (Nat.eqb (length sent) 0))
                (log Info [S_ task_id; T " ``sent`` ";
                           V (Seq (map Atom (dict_keys sent)));
                           T " to "; S_ (alias self)])
        | None => ret tt
        end ;;
        workdir <- match rt_workdir rt with
                   | Some workdir => ret workdir
                   | None => lift (cwd_named_path w)
                   end ;;
        (if Py.startswith workdir "#"
         then match named_path w (alias self) workdir with
              | Ok _ => ret tt
              | Raise _ =>
                  raise (ValueError [T "Working directory "; S_ workdir;
                                     T " does not exist on remote host ";
                                     S_ (alias self)])
              end
         else when (isabs w workdir)
                (log Debug [T "Absolute path "; S_ workdir; T " used as workdir."])) ;;
        emit (LogToFile "TASK" [T "Set workdir to "; S_ workdir]) ;;
        max_walltime <- lift (stored_max_walltime w (config self)) ;;
        emit (SetRuntime task_id (stored (config self) rt workdir max_walltime true)) ;;
        emit (SetStatus task_id "pending") ;;
        send_job_file task_file
    end.

(** [RemoteHost.prepare_task] *)
Definition prepare_task (task_id : string) : M bool :=
  catch (_prepare_task task_id ;; ret true)
        (fun e => log Error (str_exn e) ;; ret false).
End RemoteTasks.

(** ** Result retrieval *)

(** What [receive_result] returns: the record it makes up when the task
    file holds no result, or the result of the task file. *)
Inductive received_result : Type :=
  | NoResult (task : string)
  | Result (res : TaskResult).

Section RemoteResult.
Variable w : World.
Variable self : RemoteHost.

(** [sos_targets(x)] *)
Definition sos_targets (v : pyval) : pyval :=
  match v with
  | Seq l => Seq l
  | Atom a => Seq [Atom a]
  | PySet l => Seq (map Atom l)
  end.

(** The three-way rewriting of an [output] field against the [_output]
    the task declared. *)
Definition translate_output (msg : string) (declared : option Declared)
    (out : pyval) : M pyval :=
  match declared with
  | None => log Warning [T msg] ;; ret (sos_targets (Seq []))
  | Some d =>
      if d_undetermined d
      then v <- _reverse_map_var self out ;; ret (sos_targets v)
      else ret (Seq (d_targets d))
  end.

(** [for tid, subparams in params.task_stack: ...] *)
Fixpoint translate_subtasks (stack : list (string * SosDict))
    (subs : list (string * option pyval)) : M (list (string * option pyval)) :=
  match stack with
  | [] => ret subs
  | (tid, subparams) :: stack' =>
      match dict_get subs tid with
      | Some (Some out) =>
          out' <- translate_output "Missing _output in subparams"
                    (_output subparams) out ;;
          translate_subtasks stack' (dict_set subs tid (Some out'))
      | _ => translate_subtasks stack' subs
      end
  end.

Definition failed (res : TaskResult) : bool :=
  match ret_code res with Some c => negb (Z.eqb c 0) | None => false end
  || match succ res with Some c => negb (Z.eqb c 0) | None => false end.

Definition is_seq_or_str (v : pyval) : bool :=
  match v with Atom (AStr _) | Seq _ => true | _ => false end.

Definition note_received (task_id : string) (received : list (string * string))
  : M unit :=
  when (negb (Nat.eqb (length received) 0))
    (log Info [S_ task_id; T " ``received`` ";
               V (Seq (map (fun k => Atom (AStr k)) (dict_keys received)));
               T " from "; S_ (alias self)]).

(** [RemoteHost.receive_result] *)
Definition receive_result (task_id : string) : M received_result :=
  let receive_cmd := ScpResultCmd task_id (address self) (port self) in
  lfiles <- ask (fun t => readonly_task_files w t task_id) ;;
  for_each lfiles (fun lfile => emit (Chmod lfile)) ;;
  log_task w [C receive_cmd] ;;
  r <- ask (fun t => call w t receive_cmd) ;;
  emit (Call receive_cmd true) ;;
  (if negb (Z.eqb r 0)
   then r <- ask (fun t => call w t receive_cmd) ;;
        emit (Call receive_cmd false) ;;
        if negb (Z.eqb r 0)
        then raise (RuntimeError [T "Failed to retrieve result of job "; S_ task_id;
                                  T " from "; S_ (alias self);
                                  T (" with cmd" +:+ String "010" "");
                                  C receive_cmd])
        else ret tt
   else ret tt) ;;
  params <- bind (ask (fun t => task_params w t task_id)) lift ;;
  res <- ask (fun t => task_result w t task_id) ;;
  match res with
  | None =>
      log Debug [T "Result for "; S_ task_id; T " is not received (no result)"] ;;
      ret (NoResult task_id)
  | Some res =>
      if failed res
      then emit (ShowErrOut task_id) ;;
           log Info [T "Ignore remote results for failed job "; S_ task_id] ;;
           ret (Result res)
      else
        when (3 <=? verbosity w)%Z (emit (ShowErrOut task_id)) ;;
        let job_dict := sos_dict params in
        match _output job_dict with
        | Some d =>
            if d_truthy d && negb (d_is_Undetermined d) && negb (dryrun w)
            then received <- receive_from_host w self (Seq (kept (d_targets d))) ;;
                 note_received task_id received
            else ret tt
        | None => ret tt
        end ;;
        match rt_from_host (_runtime job_dict) with
        | Some from_host =>
            if negb (dryrun w)
            then if is_seq_or_str from_host
                 then received <- receive_from_host w self from_host ;;
                      note_received task_id received
                 else log Warning
                        [T "Expecting a string or list of string from from_host: ";
                         V from_host; T " received"]
            else ret tt
        | None => ret tt
        end ;;
        out <- match output res with
               | Some out =>
                   out' <- translate_output "Missing _output in task dict"
                             (_output job_dict) out ;;
                   ret (Some out')
               | None => ret None
               end ;;
        subs <- match subtasks res with
                | Some subs =>
                    subs' <- translate_subtasks (task_stack params) subs ;;
                    ret (Some subs')
                | None => ret None
                end ;;
        ret (Result {| ret_code := ret_code res; succ := succ res;
                       output := out; subtasks := subs |})
  end.
End RemoteResult.

(** ** The tunneled command channel *)

(** What comes back on a socket after [alive] within the poll deadline. *)
Inductive reply : Type :=
  | NoReply
  | Reply (msg : string).

(** The remote end: what the cached socket answers, and for each socket
    the agent opens in turn, its identity and what it answers. *)
Record Channel : Type := {
  cached_reply : reply;
  new_socket : nat -> nat;
  new_reply : nat -> reply
}.

(** [self.remote_socket = rsock] *)
Definition with_socket (self : RemoteHost) (rsock : nat) : RemoteHost :=
  {| config := config self; alias := alias self; address := address self;
     port := port self; pem_file := pem_file self;
     shared_dirs := shared_dirs self; path_map := path_map self;
     remote_socket := Some rsock |}.

Section CommandChannel.
Variable w : World.
Variable ch : Channel.

(** [RemoteHost._get_remote_server_port] *)
Definition _get_remote_server_port : string := str (AInt (5000 + getuid w)).

(** [send alive; if poll(1000): ret = decode(recv()); assert ret == "yes"] *)
Definition alive (rsock : nat) (answer : reply) : M bool :=
  emit (SendAlive rsock) ;;
  emit (Poll rsock 1000) ;;
  match answer with
  | Reply msg => if String.eqb msg "yes" then ret true else raise AssertionError
  | NoReply => ret false
  end.

(** [RemoteHost._test_tunneled_socket] *)
Definition _test_tunneled_socket (rsock : option nat) : M bool :=
  match rsock with
  | None => ret false
  | Some rsock => alive rsock (cached_reply ch)
  end.

(** [zmq_ssh.tunnel_connection(socket=rsock, addr=raddr, server=rserver, ...)] *)
Definition tunnel (self : RemoteHost) (rsock : nat) : event :=
  let raddr := "tcp://localhost:" +:+ _get_remote_server_port in
  let rserver := address self +:+
                 (if Z.eqb (port self) 22 then "" else ":" +:+ str (AInt (port self))) in
  OpenTunnel rsock raddr rserver.

(** [RemoteHost._create_tunneled_socket], for the [n]-th socket opened *)
Definition _create_tunneled_socket (self : RemoteHost) (n : nat) : M (option nat) :=
  let rsock := new_socket ch n in
  emit (tunnel self rsock) ;;
  ok <- alive rsock (new_reply ch n) ;;
  if ok then ret (Some rsock)
  else emit (CloseSocket rsock) ;; ret None.

(** [RemoteHost.run_command] without [realtime]: the command is spawned
    and, unless [wait_for_task], not waited for. *)
Definition run_command (self : RemoteHost) (cmd : list string) (wait_for_task : bool)
  : M unit :=
  let use_heredoc := existsb (Py.contains ".") cmd in
  catch (_ <- _map_var w self (Atom (AStr (getcwd w))) ;; ret tt)
        (fun e => raise (ValueError [T "Failed to run command "; V (Seq (map (fun c => Atom (AStr c)) cmd))])) ;;
  let c := ExecuteCmd use_heredoc false cmd (address self) (port self) in
  log_task w [T "Executing command ``"; C c; T "``"] ;;
  emit (Spawn c) ;;
  when wait_for_task (emit (WaitFor c)).

Definition helper_command (rport : string) : list string :=
  ["nohup"; "sos"; "server"; "--port"; rport; "--duration"; "60"].

(** The loop of [connect_to_server]; [fuel] bounds the iterations and
    [None] is a loop that has not ended within it. *)
Fixpoint connect_loop (fuel : nat) (self : RemoteHost) (rport : string)
    (attempts : nat) : M (option (RemoteHost * nat)) :=
  match fuel with
  | O => ret None
  | S fuel' =>
      log Debug [T "Waiting for post "; S_ rport; T " "; V (Atom (AInt (Z.of_nat attempts)))] ;;
      rsock <- _create_tunneled_socket self attempts ;;
      match rsock with
      | Some rsock =>
          ret (Some (with_socket self rsock, rsock))
      | None =>
          if attempts <? 5
          then emit (Sleep 1) ;; connect_loop fuel' self rport (attempts + 1)
          else
            let msg := [T "Failed to start a remote server on "; S_ (alias self);
                        T ". Please make sure you have the latest version of sos installed and accessible."] in
            log Error msg ;; raise (RuntimeError msg)
      end
  end.

(** [RemoteHost.connect_to_server]: the socket, and the agent with its
    [remote_socket] as the call leaves it. *)
Definition connect_to_server (fuel : nat) (self : RemoteHost)
  : M (option (RemoteHost * nat)) :=
  healthy <- _test_tunneled_socket (remote_socket self) ;;
  match healthy, remote_socket self with
  | true, Some rsock => ret (Some (self, rsock))
  | _, _ =>
      let rport := _get_remote_server_port in
      log Debug [T "Starting remote server on port "; S_ rport] ;;
      run_command self (helper_command rport) false ;;
      connect_loop fuel self rport 0
  end.
End CommandChannel.

(** ** The host registry

    Agents and engines are objects: each has an identity, the registry and
    every [Host] hold references, and attributes are read through the
    heap.  A task engine is a thread: not yet started, alive, or stopped. *)

Inductive engine_state : Type := Fresh | Alive | Stopped.

Inductive agent_body : Type :=
  | LocalAgent (config : Config)
  | RemoteAgent (host : RemoteHost).

(** An attribute that may be missing, and may hold [None]. *)
Definition attribute (A : Type) : Type := option (option A).

Record Agent : Type := {
  body : agent_body;
  _task_engine : attribute nat;
  _workflow_engine : attribute nat
}.

Record Process : Type := {
  agents : gmap nat Agent;
  engines : gmap nat engine_state;
  (** [Host.host_instances] *)
  host_instances : gmap string nat;
  (** the next object identity to hand out *)
  next_id : nat
}.

(** What the registry asks of its surroundings. *)
Record Plugins : Type := {
  (** [RemoteHost.test_connection] *)
  test_connection_of : Config -> string;
  (** whether an entry point of group [sos_taskengines], respectively
      [sos_workflowengines], of that name loads *)
  task_engine_entry : string -> bool;
  workflow_engine_entry : string -> bool
}.

(** The attributes of a [Host] after [_get_host_agent]. *)
Record Host : Type := {
  host_alias : string;
  _host_agent : nat;
  host_task_engine : attribute nat;
  host_workflow_engine : attribute nat
}.

Section Registry.
Variable pl : Plugins.

(** [RemoteHost.__init__] *)
Definition new_remote_host (config : Config) (test_connection : bool)
  : result RemoteHost :=
  try shared <- _get_shared_dirs config;
  try pm <- _get_path_map config;
  let self := {| config := config; alias := cfg_alias config;
                 address := cfg_address config;
                 port := default 22%Z (cfg_port config);
                 pem_file := cfg_pem_file config;
                 shared_dirs := shared; path_map := pm;
                 remote_socket := None |} in
  if test_connection && negb (String.eqb (test_connection_of pl config) "OK")
  then Raise (RuntimeError [T "Failed to connect to "; S_ (cfg_alias config); T ": ";
                            S_ (test_connection_of pl config)])
  else Ok self.

Definition engine_type_of (config : Config) : string :=
  match cfg_queue_type config with
  | None => "process"
  | Some q => Py.strip q
  end.

Definition set_agent (p : Process) (a : nat) (ag : Agent) : Process :=
  {| agents := <[a := ag]> (agents p); engines := engines p;
     host_instances := host_instances p; next_id := next_id p |}.

Definition new_engine (p : Process) : Process * nat :=
  ({| agents := agents p; engines := <[next_id p := Fresh]> (engines p);
      host_instances := host_instances p; next_id := S (next_id p) |},
   next_id p).

(** [Host._get_task_and_workflow_engine] *)
Definition _get_task_and_workflow_engine (engine_type : string) (p : Process)
  : Process * result (option nat * option nat) :=
  if String.eqb engine_type "process"
  then let '(p, t) := new_engine p in
       let '(p, wf) := new_engine p in
       (p, Ok (Some t, Some wf))
  else
    let '(p, t) := if task_engine_entry pl engine_type
                   then let '(p, t) := new_engine p in (p, Some t)
                   else (p, None) in
    let '(p, wf) := if workflow_engine_entry pl engine_type
                    then let '(p, wf) := new_engine p in (p, Some wf)
                    else (p, None) in
    match t, wf with
    | None, None =>
        (p, Raise (ValueError [T "Failed to load task engine of type "; S_ engine_type;
                               T ". Please check the engine name or install relevant module."]))
    | _, _ => (p, Ok (t, wf))
    end.

(** [alias not in host_instances or (hasattr(agent, "_task_engine")
     and agent._task_engine._is_stopped)] *)
Definition to_build (alias : string) (p : Process) : result bool :=
  match host_instances p !! alias with
  | None => Ok true
  | Some a =>
      match agents p !! a with
      | None => Raise KeyError
      | Some ag =>
          match _task_engine ag with
          | None => Ok false
          | Some None => Raise AttributeError
          | Some (Some e) =>
              match engines p !! e with
              | Some Stopped => Ok true
              | Some _ => Ok false
              | None => Raise KeyError
              end
          end
      end
  end.

(** The branch of [_get_host_agent] that makes and registers an agent. *)
Definition build (alias : string) (config : Config) (test_connection : bool)
    (p : Process) : Process * result unit :=
  let made := if String.eqb (cfg_address config) "localhost"
              then Ok (LocalAgent config)
              else try h <- new_remote_host config test_connection; Ok (RemoteAgent h) in
  match made with
  | Raise e => (p, Raise e)
  | Ok b =>
      let a := next_id p in
      let ag := {| body := b; _task_engine := None; _workflow_engine := None |} in
      let p := {| agents := <[a := ag]> (agents p); engines := engines p;
                  host_instances := <[alias := a]> (host_instances p);
                  next_id := S (next_id p) |} in
      match _get_task_and_workflow_engine (engine_type_of config) p with
      | (p, Raise e) => (p, Raise e)
      | (p, Ok (t, wf)) =>
          (set_agent p a {| body := b; _task_engine := Some t;
                            _workflow_engine := Some wf |}, Ok tt)
      end
  end.

(** [self._task_engine.start()] when [start_engine], the engine is not
    [None] and it is not alive *)
Definition start_if_needed (start_engine : bool) (t : attribute nat) (p : Process)
  : Process * result unit :=
  if start_engine
  then match t with
       | None => (p, Raise AttributeError)
       | Some None => (p, Ok tt)
       | Some (Some e) =>
           match engines p !! e with
           | Some Alive => (p, Ok tt)
           | Some Fresh =>
               ({| agents := agents p; engines := <[e := Alive]> (engines p);
                   host_instances := host_instances p; next_id := next_id p |}, Ok tt)
           | Some Stopped =>
               (p, Raise (RuntimeError [T "threads can only be started once"]))
           | None => (p, Raise KeyError)
           end
       end
  else (p, Ok tt).

(** [Host._get_host_agent], for the [alias] and [config] that
    [_get_config] left on the [Host] *)
Definition _get_host_agent (alias : string) (config : Config)
    (start_engine test_connection : bool) (p : Process) : Process * result Host :=
  match to_build alias p with
  | Raise e => (p, Raise e)
  | Ok rebuild =>
      match (if rebuild then build alias config test_connection p else (p, Ok tt)) with
      | (p, Raise e) => (p, Raise e)
      | (p, Ok _) =>
          match host_instances p !! alias with
          | None => (p, Raise KeyError)
          | Some a =>
              match agents p !! a with
              | None => (p, Raise KeyError)
              | Some ag =>
                  match start_if_needed start_engine (_task_engine ag) p with
                  | (p, Raise e) => (p, Raise e)
                  | (p, Ok _) =>
                      (p, Ok {| host_alias := alias; _host_agent := a;
                                host_task_engine := _task_engine ag;
                                host_workflow_engine := _workflow_engine ag |})
                  end
              end
          end
      end
  end.

(** [if hasattr(host, "_task_engine"): del host._task_engine] *)
Definition del_task_engine (ag : Agent) : Agent :=
  {| body := body ag; _task_engine := None;
     _workflow_engine := _workflow_engine ag |}.

(** [Host.reset] *)
Definition reset (p : Process) : Process :=
  {| agents := foldr (fun kv m => alter del_task_engine kv.2 m) (agents p)
                 (map_to_list (host_instances p));
     engines := engines p;
     host_instances := ∅;
     next_id := next_id p |}.
End Registry.

(** ** A POSIX file system

    [posixpath] as the platform's [os.path], over a table of the files
    that exist with their identities.  Used to run the operations on
    concrete inputs. *)

Module Posix.

Fixpoint has_slash (s : string) : bool :=
  match s with
  | EmptyString => false
  | String c s' => Ascii.eqb c "/" || has_slash s'
  end.

(** [p[p.rfind("/") + 1:]] *)
Fixpoint basename (p : string) : string :=
  match p with
  | EmptyString => EmptyString
  | String c p' => if has_slash p then basename p' else p
  end.

(** [p[:p.rfind("/") + 1]] *)
Fixpoint head (p : string) : string :=
  match p with
  | EmptyString => EmptyString
  | String c p' => if has_slash p then String c (head p') else EmptyString
  end.

Definition dirname (p : string) : string :=
  let h := head p in
  if String.eqb (Py.rstrip "/" h) "" then h else Py.rstrip "/" h.

Definition isabs (p : string) : bool := Py.startswith p "/".

Definition join (a b : string) : string :=
  if Py.startswith b "/" then b
  else if String.eqb a "" || Py.endswith a "/" then a +:+ b
  else a +:+ "/" +:+ b.

(** One step of [normpath] over the components; the stack is kept with
    its top first. *)
Definition norm_step (rooted : bool) (stack : list string) (comp : string)
  : list string :=
  if String.eqb comp "" || String.eqb comp "." then stack
  else if negb (String.eqb comp "..") then comp :: stack
  else match stack with
       | [] => if rooted then [] else [comp]
       | top :: below => if String.eqb top ".." then comp :: stack else below
       end.

Definition normpath (path : string) : string :=
  if String.eqb path "" then "."
  else
    let slashes :=
      if Py.startswith path "/"
      then if Py.startswith path "//" && negb (Py.startswith path "///")
           then "//" else "/"
      else "" in
    let comps := fold_left (norm_step (Py.startswith path "/")) (Py.split "/" path) [] in
    let p := slashes +:+ String.concat "/" (rev comps) in
    if String.eqb p "" then "." else p.

Definition abspath (cwd path : string) : string :=
  normpath (if isabs path then path else join cwd path).

(** [expanduser] for the current user; another user's [~name] is left
    as it is. *)
Definition expanduser (home path : string) : string :=
  match path with
  | String "~" rest =>
      if String.eqb rest "" || Py.startswith rest "/"
      then let p := Py.rstrip "/" home +:+ rest in
           if String.eqb p "" then "/" else p
      else path
  | _ => path
  end.

End Posix.

Definition posix_file_system (cwd home : string) (files : list (string * nat))
    (names : list (string * string)) : FileSystem :=
  {| getcwd := cwd;
     stat := fun p => dict_get files (Posix.abspath cwd p);
     abspath := Posix.abspath cwd;
     expanduser := Posix.expanduser home;
     isabs := Posix.isabs;
     join := Posix.join;
     basename := Posix.basename;
     dirname := Posix.dirname;
     named_path := fun host p =>
       match dict_get names (host +:+ ":" +:+ p) with
       | Some q => Ok q
       | None => Raise (ValueError [T "Undefined named path "; S_ p])
       end |}.

(** A world over a file system in which every command succeeds, nothing
    is globbed beyond the path itself, and the task store is empty. *)
Definition posix_world (f : FileSystem) : World :=
  {| fs := f;
     glob_parent := fun p => [p];
     find_symbolic_links := fun _ => [];
     call := fun _ _ => 0%Z;
     isdir := fun _ _ => true;
     makedirs := fun _ _ => None;
     debug_task := false;
     dryrun := false;
     verbosity := 2%Z;
     isfile_task := fun _ _ => false;
     task_params := fun _ _ => Raise (FileNotFoundError "");
     task_result := fun _ _ => None;
     readonly_task_files := fun _ _ => [];
     expand_time := fun _ => Ok 0%Z;
     format_HHMMSS := fun t => Ok t;
     cwd_named_path := Ok (getcwd f);
     getuid := 1000%Z |}.

Definition no_config (alias address : string) : Config :=
  {| cfg_alias := alias; cfg_address := address; cfg_port := None;
     cfg_pem_file := None; cfg_shared := None; cfg_path_map := None;
     cfg_max_mem := None; cfg_max_cores := None; cfg_max_walltime := None;
     cfg_queue_type := None |}.

(** An agent for [alias] with the given shared directories and path map. *)
Definition remote_host (alias : string) (shared : list string)
    (pm : list (string * string)) : RemoteHost :=
  {| config := no_config alias alias; alias := alias; address := alias;
     port := 22%Z; pem_file := None; shared_dirs := shared; path_map := pm;
     remote_socket := None |}.

(** ** The path map that [Host._get_config] writes

    For a remote host that is not the local one, [_get_config] turns the
    [paths] tables of the local and of the remote host into [path_map]
    entries, one for every name of the local table that the remote table
    has too, and appends them to the entries it has made so far. *)

Section ConfigPaths.
(** [cfg_interpolate] of [sos.utils] *)
Variable cfg_interpolate : string -> string.
(** [os.sep] *)
Variable os_sep : string.

(** [normalize_value] *)
Definition normalize_value (x : string) : string :=
  let x := cfg_interpolate x in
  if Py.endswith x os_sep then x else x +:+ os_sep.

(** [[f"{normalize_value(lpaths[x])} -> {normalize_value(rpaths[x])}"
      for x in lpaths.keys() if x in rpaths]] *)
Definition paths_entries (lpaths rpaths : list (string * string)) : list string :=
  flat_map (fun x =>
      match dict_get rpaths x, dict_get lpaths x with
      | Some r, Some l => [normalize_value l +:+ " -> " +:+ normalize_value r]
      | _, _ => []
      end) (dict_keys lpaths).
End ConfigPaths.

(** ** Notions used in the statements *)

(** The pairs of prefixes that the [paths] tables of two hosts stand for. *)
Definition paths_pairs (cfg_interpolate : string -> string) (os_sep : string)
    (lpaths rpaths : list (string * string)) : list (string * string) :=
  flat_map (fun x =>
      match dict_get rpaths x, dict_get lpaths x with
      | Some r, Some l => [(normalize_value cfg_interpolate os_sep l,
                            normalize_value cfg_interpolate os_sep r)]
      | _, _ => []
      end) (dict_keys lpaths).

(** A string without [a] is left as it is. *)
Fixpoint free_of (a : ascii) (s : string) : Prop :=
  match s with
  | EmptyString => True
  | String c s' => c <> a /\ free_of a s'
  end.

(** The pairs that a list of well-formed entries stands for. *)
Inductive entries_pairs : list string -> list (string * string) -> Prop :=
  | entries_nil : entries_pairs [] []
  | entries_cons v from to vs pairs :
      v = from +:+ arrow +:+ to ->
      Py.count arrow from = 0 ->
      entries_pairs vs pairs ->
      entries_pairs (v :: vs) ((from, to) :: pairs).

(** Two paths name the same file. *)
Definition same_file (fs : FileSystem) (p q : string) : Prop :=
  exists i, stat fs p = Some i /\ stat fs q = Some i.

Definition same_fileb (fs : FileSystem) (p q : string) : bool :=
  match stat fs p, stat fs q with
  | Some i, Some j => Nat.eqb i j
  | _, _ => false
  end.

(** The absolute, user-expanded form of a local path, with the working
    directory spelled as [getcwd] spells it. *)
Definition local_form (fs : FileSystem) (p : string) : string :=
  let dest := abspath fs (expanduser fs p) in
  let cwd := getcwd fs in
  if same_fileb fs (Py.take (String.length cwd) dest) cwd
  then cwd +:+ Py.drop (String.length cwd) dest
  else dest.

(** The keys of the path map that name the same file as the leading
    segment of [dest] of their length. *)
Definition matching_keys (fs : FileSystem) (pm : list (string * string))
    (dest : string) : list string :=
  List.filter (fun k => same_fileb fs (Py.take (String.length k) dest) k)
    (dict_keys pm).

(** What [_map_var] and [_reverse_map_var] return for a string. *)
Definition mapped (fs : FileSystem) (self : RemoteHost) (p : string)
  : result pyval :=
  outcome (_map_var fs self (Atom (AStr p))).

Definition reverse_mapped (self : RemoteHost) (p : string) : result pyval :=
  outcome (_reverse_map_var self (Atom (AStr p))).

(** The outcome of [_map_var] on a string that is not a named path, when
    no [samefile] fails. *)
Definition map_reading (fs : FileSystem) (self : RemoteHost) (p : string)
  : result pyval :=
  let dest := local_form fs p in
  match Py.max_len (matching_keys fs (path_map self) dest) with
  | Some k =>
      match dict_get (path_map self) k with
      | Some r =>
          Ok (Atom (AStr (Py.replace "\" "/" (r +:+ Py.drop (String.length k) dest))))
      | None => Raise KeyError
      end
  | None => Ok (Atom (AStr (Py.replace "\" "/" dest)))
  end.

(** A local path is covered by the path map: the leading segment of its
    local form names the same file as a key. *)
Definition covered (fs : FileSystem) (self : RemoteHost) (p : string) : Prop :=
  exists k, In k (dict_keys (path_map self))
            /\ same_file fs (Py.take (String.length k) (local_form fs p)) k.

(** Mapping [p] to the remote side and back gives [p]. *)
Definition round_trip (fs : FileSystem) (self : RemoteHost) (p : string) : Prop :=
  exists q, mapped fs self p = Ok (Atom (AStr q))
            /\ reverse_mapped self q = Ok (Atom (AStr p)).

(** A value that is a string, a path object, or a sequence of strings and
    path objects. *)
Definition strings_and_paths (items : pyval) : bool :=
  match items with
  | Atom (AStr _) | Atom (APath _) => true
  | Seq l => forallb is_str_or_path l
  | _ => false
  end.

(** A value that is neither a string, nor a path object, nor a sequence. *)
Definition unrecognized (items : pyval) : bool :=
  match items with
  | Atom (AStr _) | Atom (APath _) | Seq _ => false
  | _ => true
  end.

(** A task asks for more memory, cores or wall time than the host's
    configuration allows. *)
Definition over_ceiling (w : World) (config : Config) (rt : TaskRuntime) : Prop :=
  (exists max_mem mem, cfg_max_mem config = Some max_mem
      /\ rt_mem rt = Some mem /\ (max_mem < mem)%Z)
  \/ (exists max_cores cores, cfg_max_cores config = Some max_cores
      /\ rt_cores rt = Some cores /\ (max_cores < cores)%Z)
  \/ (exists max_walltime walltime a b,
        cfg_max_walltime config = Some max_walltime
        /\ rt_walltime rt = Some walltime
        /\ expand_time w max_walltime = Ok a
        /\ expand_time w walltime = Ok b /\ (a < b)%Z).

(** The steps of a connection to the helper as they follow one another:
    the helper spawned, a tunneled socket opened, a sleep. *)
Definition is_step (e : event) : bool :=
  match e with
  | Spawn _ | Sleep _ | OpenTunnel _ _ _ => true
  | _ => false
  end.

Definition steps (t : trace) : trace := List.filter is_step t.


Definition helper_spawned (w : World) (self : RemoteHost) : event :=
  let cmd := helper_command (_get_remote_server_port w) in
  Spawn (ExecuteCmd (existsb (Py.contains ".") cmd) false cmd
           (address self) (port self)).

(** The values that [_reverse_map_var] returns, and the [output] that
    [receive_result] leaves in a result, as functions of what goes in. *)
Definition reverse_string (self : RemoteHost) (p : string) : string :=
  match Py.max_len (reverse_matched (path_map self) p) with
  | Some k =>
      match dict_get (path_map self) k with
      | Some r => Py.replace "\" "/" (k +:+ Py.drop (String.length r) p)
      | None => Py.replace "\" "/" p
      end
  | None => Py.replace "\" "/" p
  end.

Definition reverse_atom (self : RemoteHost) (a : atom) : pyval :=
  match a with
  | AStr s | APath s => Atom (AStr (reverse_string self s))
  | _ => Atom a
  end.

Fixpoint reverse_value (self : RemoteHost) (v : pyval) : pyval :=
  match v with
  | Atom a => reverse_atom self a
  | Seq l => Seq (without_none (map (reverse_value self) l))
  | PySet l => Seq (without_none (map (reverse_atom self) l))
  end.

Definition translated (self : RemoteHost) (declared : option Declared)
    (out : pyval) : pyval :=
  match declared with
  | None => Seq []
  | Some d =>
      if d_undetermined d then sos_targets (reverse_value self out)
      else Seq (d_targets d)
  end.

Fixpoint translated_subtasks (self : RemoteHost) (stack : list (string * SosDict))
    (subs : list (string * option pyval)) : list (string * option pyval) :=
  match stack with
  | [] => subs
  | (tid, subparams) :: stack' =>
      match dict_get subs tid with
      | Some (Some out) =>
          translated_subtasks self stack'
            (dict_set subs tid (Some (translated self (_output subparams) out)))
      | _ => translated_subtasks self stack' subs
      end
  end.

(** The objects of a process are consistent: every reference points to
    an object, and identities not yet handed out are not in use. *)
Definition consistent (p : Process) : Prop :=
  (forall alias a, host_instances p !! alias = Some a -> is_Some (agents p !! a))
  /\ (forall a, is_Some (agents p !! a) -> a < next_id p)
  /\ (forall e, is_Some (engines p !! e) -> e < next_id p)
  /\ (forall a ag e, agents p !! a = Some ag -> _task_engine ag = Some (Some e) ->
        is_Some (engines p !! e)).

(** A value without nesting: an atom, a set, or a list of atoms. *)
Definition flat (v : pyval) : bool :=
  match v with
  | Atom _ | PySet _ => true
  | Seq l => forallb (fun x => match x with Atom _ => true | _ => false end) l
  end.

(** The remote prefix [r] starts [dest] and ends at a separator boundary
    of it: [dest] is [r] itself, [r] ends in a separator, or a separator
    comes next in [dest]. *)
Definition starts_on_boundary (r dest : string) : Prop :=
  exists rest,
    dest = r +:+ rest
    /\ (rest = ""
        \/ Py.endswith r "/" = true
        \/ Py.endswith r "\" = true
        \/ exists rest', rest = String "/" rest' \/ rest = String "\" rest').

(** The agent that [_get_host_agent] makes for a configuration. *)
Definition made_agent (pl : Plugins) (config : Config) (test_connection : bool)
  : result agent_body :=
  if String.eqb (cfg_address config) "localhost"
  then Ok (LocalAgent config)
  else try h <- new_remote_host pl config test_connection; Ok (RemoteAgent h).

(** A history of debug records only. *)
Definition debug_only (t : trace) : Prop :=
  Forall (fun e => exists msg, e = Log Debug msg) t.

(** A computation only adds to the history, and every event it adds is
    one of [P], whether it returns or raises. *)
Definition adds {A} (P : event -> Prop) (m : M A) : Prop :=
  forall t, exists added, (m t).1 = t ++ added /\ Forall P added.

Definition is_debug (e : event) : Prop := exists msg, e = Log Debug msg.

Definition is_record (e : event) : Prop :=
  match e with Log _ _ | LogToFile _ _ => True | _ => False end.

(** What [send_to_host] may do: write records, and copy to the host,
    quietly, a source that is not on a shared file system. *)
Definition sends (w : World) (self : RemoteHost) (e : event) : Prop :=
  match e with
  | Log _ _ | LogToFile _ _ => True
  | Call (SendCmd _ source _ host prt) quiet =>
      quiet = true /\ host = address self /\ prt = port self
      /\ exists src, source = Py.rstrip "/" src /\ is_shared w self src = false
  | _ => False
  end.

(** What [receive_from_host] may do: write records, make directories, and
    copy from the host, quietly, to a destination that is not on a shared
    file system or has another name there. *)
Definition receives (w : World) (self : RemoteHost) (e : event) : Prop :=
  match e with
  | Log _ _ | LogToFile _ _ | Makedirs _ => True
  | Call (ReceiveCmd rename _ dest host prt) quiet =>
      quiet = true /\ host = address self /\ prt = port self
      /\ (is_shared w self dest = false \/ rename = true)
  | _ => False
  end.

(** What a lookup of [alias] leaves as it was: the registrations under the
    other aliases and the agents of the process; an engine of the process
    keeps its state, or has been started. *)
Definition undisturbed (alias : string) (p p1 : Process) : Prop :=
  next_id p <= next_id p1
  /\ (forall alias', alias' <> alias ->
        host_instances p1 !! alias' = host_instances p !! alias')
  /\ (forall a ag, agents p !! a = Some ag -> agents p1 !! a = Some ag)
  /\ (forall e st, engines p !! e = Some st ->
        engines p1 !! e = Some st \/ (st = Fresh /\ engines p1 !! e = Some Alive)).

(** What [receive_result] does for the result itself: make the local task
    files writable, copy the task files of that task from the host, show
    the task's output and write records. *)
Definition fetches_result (self : RemoteHost) (task_id : string) (e : event)
  : Prop :=
  match e with
  | Log _ _ | LogToFile _ _ | Chmod _ | ShowErrOut _ => True
  | Call (ScpResultCmd task host prt) _ =>
      task = task_id /\ host = address self /\ prt = port self
  | _ => False
  end.

(** ** Concrete configurations and file systems *)

Definition path_map_config (v : path_map_value) : Config :=
  {| cfg_alias := "r"; cfg_address := "r"; cfg_port := None;
     cfg_pem_file := None; cfg_shared := None; cfg_path_map := Some v;
     cfg_max_mem := None; cfg_max_cores := None; cfg_max_walltime := None;
     cfg_queue_type := None |}.

Definition plain_fs : FileSystem :=
  posix_file_system "/w" "/home/u" [("/a", 1); ("/a/b", 2); ("/w", 3)] [].

(** A file system that folds case: [/A] and [/a] are one directory. *)
Definition folding_fs : FileSystem :=
  posix_file_system "/w" "/home/u" [("/a", 1); ("/A", 1); ("/w", 3)] [].

(** A path map whose longer remote prefix belongs to the shorter local one. *)
Definition crossed_host : RemoteHost :=
  remote_host "r" [] [("/data/local", "/r"); ("/b", "/r/sub")].

Definition crossed_fs : FileSystem :=
  posix_file_system "/w" "/home/u" [("/data/local", 1); ("/b", 2); ("/w", 3)] [].

(** A host that allows 1 GB and a task that asks for 2 GB. *)
Definition one_gb_config : Config :=
  {| cfg_alias := "r"; cfg_address := "r"; cfg_port := None;
     cfg_pem_file := None; cfg_shared := None; cfg_path_map := None;
     cfg_max_mem := Some 1000000000%Z; cfg_max_cores := None;
     cfg_max_walltime := None; cfg_queue_type := None |}.

Definition one_gb_host : RemoteHost :=
  {| config := one_gb_config; alias := "r"; address := "r"; port := 22%Z;
     pem_file := None; shared_dirs := []; path_map := []; remote_socket := None |}.

Definition nothing_declared : Declared :=
  {| d_truthy := false; d_is_Undetermined := false; d_undetermined := false;
     d_targets := [] |}.

Definition two_gb_params : Params :=
  {| sos_dict :=
       {| _runtime :=
            {| rt_verbosity := None; rt_sig_mode := None; rt_run_mode := None;
               rt_walltime := None; rt_cores := None;
               rt_mem := Some 2000000000%Z; rt_workdir := None;
               rt_to_host := None; rt_from_host := None |};
          _input := nothing_declared; _depends := nothing_declared;
          _output := None |};
     task_stack := [] |}.

Definition two_gb_world : World :=
  let w := posix_world plain_fs in
  {| fs := plain_fs;
     glob_parent := glob_parent w;
     find_symbolic_links := find_symbolic_links w;
     call := call w; isdir := isdir w; makedirs := makedirs w;
     debug_task := false; dryrun := false; verbosity := 2%Z;
     isfile_task := fun _ _ => true;
     task_params := fun _ _ => Ok two_gb_params;
     task_result := fun _ _ => None;
     readonly_task_files := fun _ _ => [];
     expand_time := expand_time w; format_HHMMSS := format_HHMMSS w;
     cwd_named_path := cwd_named_path w; getuid := getuid w |}.


Definition silent_channel : Channel :=
  {| cached_reply := NoReply;
     new_socket := fun n => 100 + n;
     new_reply := fun _ => NoReply |}.

(** A finished task on a host whose [/x] is the local [/a], seen from the
    working directory [/a]. *)
Definition result_fs : FileSystem :=
  posix_file_system "/a" "/home/u" [("/a", 1)] [].

Definition result_host : RemoteHost := remote_host "r" [] [("/a", "/x")].

Definition plain_runtime : TaskRuntime :=
  {| rt_verbosity := None; rt_sig_mode := None; rt_run_mode := None;
     rt_walltime := None; rt_cores := None; rt_mem := None; rt_workdir := None;
     rt_to_host := None; rt_from_host := None |}.

Definition declares (undetermined : bool) (targets : list pyval) : SosDict :=
  {| _runtime := plain_runtime;
     _input := nothing_declared; _depends := nothing_declared;
     _output := Some {| d_truthy := negb undetermined; d_is_Undetermined := false;
                        d_undetermined := undetermined; d_targets := targets |} |}.

Definition remote_result : TaskResult :=
  {| ret_code := Some 0%Z; succ := None;
     output := Some (Seq [Atom (AStr "/x/out.txt")]);
     subtasks := Some [("s1", Some (Seq [Atom (AStr "/x/s.txt")]))] |}.

Definition result_world (params : Params) : World :=
  let w := posix_world result_fs in
  {| fs := result_fs;
     glob_parent := glob_parent w;
     find_symbolic_links := find_symbolic_links w;
     call := call w; isdir := isdir w; makedirs := makedirs w;
     debug_task := false; dryrun := false; verbosity := 2%Z;
     isfile_task := fun _ _ => true;
     task_params := fun _ _ => Ok params;
     task_result := fun _ _ => Some remote_result;
     readonly_task_files := fun _ _ => [];
     expand_time := expand_time w; format_HHMMSS := format_HHMMSS w;
     cwd_named_path := cwd_named_path w; getuid := getuid w |}.

Definition determined_params : Params :=
  {| sos_dict := declares false [Atom (AStr "out.txt")];
     task_stack := [("s1", declares false [Atom (AStr "s.txt")])] |}.

Definition undetermined_params : Params :=
  {| sos_dict := declares true [];
     task_stack := [("s1", declares true [])] |}.

(** A process that has looked up no host yet, with only the built-in
    engines. *)
Definition new_process : Process :=
  {| agents := ∅; engines := ∅; host_instances := ∅; next_id := 0 |}.

Definition built_in : Plugins :=
  {| test_connection_of := fun _ => "OK";
     task_engine_entry := fun _ => false;
     workflow_engine_entry := fun _ => false |}.

(** The task engine [e] stops. *)
Definition stop_engine (e : nat) (p : Process) : Process :=
  {| agents := agents p; engines := <[e := Stopped]> (engines p);
     host_instances := host_instances p; next_id := next_id p |}.

(** A plugin that brings a workflow engine and no task engine. *)
Definition workflow_only : Plugins :=
  {| test_connection_of := fun _ => "OK";
     task_engine_entry := fun _ => false;
     workflow_engine_entry := fun _ => true |}.

Definition queue_config : Config :=
  {| cfg_alias := "q"; cfg_address := "localhost"; cfg_port := None;
     cfg_pem_file := None; cfg_shared := None; cfg_path_map := None;
     cfg_max_mem := None; cfg_max_cores := None; cfg_max_walltime := None;
     cfg_queue_type := Some "queue" |}.

(** A cached socket that answers something else than ["yes"]. *)
Definition confused_channel : Channel :=
  {| cached_reply := Reply "no";
     new_socket := fun n => 100 + n;
     new_reply := fun _ => Reply "yes" |}.

(** A host that allows exactly the 2 GB that the task asks for. *)
Definition two_gb_config : Config :=
  {| cfg_alias := "localhost"; cfg_address := "localhost"; cfg_port := None;
     cfg_pem_file := None; cfg_shared := None; cfg_path_map := None;
     cfg_max_mem := Some 2000000000%Z; cfg_max_cores := None;
     cfg_max_walltime := None; cfg_queue_type := None |}.

(** A host that cannot be reached: every command exits with status 255. *)
Definition unreachable_world : World :=
  let w := posix_world plain_fs in
  {| fs := plain_fs;
     glob_parent := glob_parent w;
     find_symbolic_links := find_symbolic_links w;
     call := fun _ _ => 255%Z; isdir := isdir w; makedirs := makedirs w;
     debug_task := true; dryrun := false; verbosity := 2%Z;
     isfile_task := fun _ _ => true;
     task_params := fun _ _ => Ok two_gb_params;
     task_result := fun _ _ => None;
     readonly_task_files := fun _ t => ["/home/u/.sos/tasks/" +:+ t +:+ ".pulse"];
     expand_time := expand_time w; format_HHMMSS := format_HHMMSS w;
     cwd_named_path := cwd_named_path w; getuid := getuid w |}.

(** A helper that answers, but not ["yes"]. *)
Definition rude_channel : Channel :=
  {| cached_reply := NoReply;
     new_socket := fun n => 100 + n;
     new_reply := fun _ => Reply "no" |}.

(** A host that refuses the connection. *)
Definition unreachable : Plugins :=
  {| test_connection_of := fun _ => "Connection refused";
     task_engine_entry := fun _ => false;
     workflow_engine_entry := fun _ => false |}.

(** A path map with a key that does not exist locally. *)
Definition stale_host : RemoteHost :=
  remote_host "r" [] [("/a", "/x"); ("/gone", "/y")].

(** * Properties *)

Example split_arrow :
  Py.split " -> " "/a -> /x" = ["/a"; "/x"]
  /\ Py.split " -> " "/a -> /b -> /c" = ["/a"; "/b"; "/c"]
  /\ Py.split " -> " " -> -> " = [""; "-> "]
  /\ Py.count " -> " " -> -> " = 1
  /\ Py.max_len ["ab"; "cd"; "e"] = Some "ab".
Proof. repeat split; reflexivity. Qed.

Example posix_paths :
  Posix.abspath "/w" "a//b/../c/./d.txt" = "/w/a/c/d.txt"
  /\ Posix.abspath "/w" "/a/b/" = "/a/b"
  /\ Posix.expanduser "/home/u" "~/x" = "/home/u/x"
  /\ Posix.basename "/a/b/c.txt" = "c.txt"
  /\ Posix.dirname "/a/b/c.txt" = "/a/b"
  /\ Posix.dirname "/c.txt" = "/"
  /\ Posix.join "/a" "b" = "/a/b".
Proof. repeat split; reflexivity. Qed.

(** ** Strings *)

#[local] Arguments String.append !_ _ / : simpl nomatch.

Lemma append_nil_r (s : string) : s +:+ "" = s.
Proof. induction s as [|c s IH]; simpl; [reflexivity | by rewrite IH]. Qed.

Lemma append_assoc (a b c : string) : (a +:+ b) +:+ c = a +:+ (b +:+ c).
Proof. induction a as [|x a IH]; simpl; [reflexivity | by rewrite IH]. Qed.

Lemma length_append (a b : string) :
  String.length (a +:+ b) = String.length a + String.length b.
Proof. induction a as [|x a IH]; simpl; [reflexivity | by rewrite IH]. Qed.

Lemma drop_append (a b : string) : Py.drop (String.length a) (a +:+ b) = b.
Proof. induction a as [|x a IH]; simpl; [by destruct b | exact IH]. Qed.

Lemma take_append (a b : string) : Py.take (String.length a) (a +:+ b) = a.
Proof. induction a as [|x a IH]; simpl; [by destruct b | by rewrite IH]. Qed.

Lemma take_drop (n : nat) (s : string) : Py.take n s +:+ Py.drop n s = s.
Proof.
  revert s; induction n as [|n IH]; intros [|c s]; simpl; try reflexivity.
  by rewrite IH.
Qed.

Lemma prefix_append (p s : string) : String.prefix p (p +:+ s) = true.
Proof.
  induction p as [|c p IH]; simpl; [by destruct s|].
  destruct (ascii_dec c c); [exact IH | congruence].
Qed.

Lemma prefix_split (p s : string) :
  String.prefix p s = true -> s = p +:+ Py.drop (String.length p) s.
Proof.
  revert s; induction p as [|c p IH]; intros s H; simpl; [by destruct s|].
  destruct s as [|d s]; simpl in *; [discriminate|].
  destruct (ascii_dec c d) as [->|]; [|discriminate].
  f_equal. by apply IH.
Qed.

Lemma startswith_iff (s p : string) :
  Py.startswith s p = true <-> exists rest, s = p +:+ rest.
Proof.
  unfold Py.startswith. split.
  - intros H. eexists. by apply prefix_split.
  - intros [rest ->]. apply prefix_append.
Qed.

Lemma replace_append (a b : ascii) (s t : string) :
  Py.replace a b (s +:+ t) = Py.replace a b s +:+ Py.replace a b t.
Proof. induction s as [|c s IH]; simpl; [reflexivity | by rewrite IH]. Qed.

Lemma length_replace (a b : ascii) (s : string) :
  String.length (Py.replace a b s) = String.length s.
Proof. induction s as [|c s IH]; simpl; [reflexivity | by rewrite IH]. Qed.

Lemma replace_free (a b : ascii) (s : string) :
  free_of a s -> Py.replace a b s = s.
Proof.
  induction s as [|c s IH]; simpl; [reflexivity|].
  intros [Hc Hs]. rewrite IH by assumption.
  destruct (Ascii.eqb_spec c a); congruence.
Qed.

Lemma free_of_append (a : ascii) (s t : string) :
  free_of a (s +:+ t) <-> free_of a s /\ free_of a t.
Proof. induction s as [|c s IH]; simpl; tauto. Qed.

(** ** [in], [count] and [split] agree *)

Lemma contains_count (sep s : string) :
  sep <> "" ->
  Py.contains sep s = false <-> Py.count sep s = 0.
Proof.
  intros Hsep. unfold Py.count. induction s as [|c s IH].
  - destruct sep; [congruence|]. simpl. split; reflexivity.
  - cbn [Py.contains Py.count_go].
    destruct (String.prefix sep (String c s)); simpl.
    + split; discriminate.
    + exact IH.
Qed.

Lemma split_go_no_match (sep : string) (s : string) :
  forall k cur, Py.count_go sep k s = 0 ->
  Py.split_go sep k cur s = [cur +:+ Py.drop k s].
Proof.
  induction s as [|c s IH]; intros k cur H.
  - destruct k; simpl; by rewrite append_nil_r.
  - destruct k as [|k]; cbn [Py.split_go Py.count_go Py.drop] in *.
    + destruct (String.prefix sep (String c s)); [discriminate|].
      rewrite (IH 0 _ H). simpl. by rewrite append_assoc.
    + by apply IH.
Qed.

Lemma split_go_one_match (sep : string) (s : string) :
  sep <> "" ->
  Py.count_go sep 0 s = 1 ->
  exists a b, s = a +:+ sep +:+ b
    /\ Py.count sep a = 0
    /\ forall cur, Py.split_go sep 0 cur s = [cur +:+ a; b].
Proof.
  intros Hsep. induction s as [|c s IH]; intros H; [discriminate|].
  cbn [Py.count_go] in H.
  destruct (String.prefix sep (String c s)) eqn:Hp.
  - exists "", (Py.drop (String.length sep) (String c s)).
    split; [simpl; by apply prefix_split|].
    split; [by destruct sep|].
    intros cur. cbn [Py.split_go]. rewrite Hp.
    injection H as H. rewrite (split_go_no_match _ _ _ _ H).
    rewrite append_nil_r. simpl. destruct sep as [|x sep]; [congruence|].
    simpl. by rewrite Nat.sub_0_r.
  - destruct (IH H) as (a & b & -> & Ha & Hs).
    exists (String c a), b. split; [reflexivity|].
    split.
    + unfold Py.count in *. cbn [Py.count_go].
      destruct (String.prefix sep (String c a)) eqn:Hpa; [|exact Ha].
      exfalso. apply prefix_split in Hpa.
      assert (String.prefix sep (String c (a +:+ sep +:+ b)) = true)
        as Hp'; [|congruence].
      change (String c (a +:+ sep +:+ b)) with (String c a +:+ sep +:+ b).
      rewrite Hpa, append_assoc. apply prefix_append.
    + intros cur. cbn [Py.split_go]. rewrite Hp.
      rewrite Hs. simpl. by rewrite append_assoc.
Qed.

(** ** The path map of the configuration *)

Lemma arrow_nonempty : arrow <> "".
Proof. discriminate. Qed.


Lemma parse_well_formed (res : list (string * string)) (v : string)
    (rest : list string) :
  Py.count arrow v = 1 ->
  exists from to, v = from +:+ arrow +:+ to
    /\ Py.count arrow from = 0
    /\ parse_path_map res (v :: rest)
       = parse_path_map (dict_set res from to) rest.
Proof.
  intros H. destruct (split_go_one_match arrow v arrow_nonempty H)
    as (a & b & Hv & Ha & Hs).
  exists a, b. split; [exact Hv|]. split; [exact Ha|].
  cbn [parse_path_map].
  destruct (Py.contains arrow v) eqn:Hc.
  - simpl. rewrite H. simpl. unfold Py.split. by rewrite Hs.
  - apply contains_count in Hc; [congruence | apply arrow_nonempty].
Qed.

Lemma parse_all_well_formed (entries : list string) :
  Forall (fun v => Py.count arrow v = 1) entries ->
  forall res, exists pairs,
    entries_pairs entries pairs
    /\ parse_path_map res entries = Ok (dict_update res pairs).
Proof.
  induction 1 as [|v vs Hv _ IH]; intros res.
  - exists []. split; [constructor | reflexivity].
  - destruct (parse_well_formed res v vs Hv) as (from & to & Hvv & Hfrom & Hp).
    destruct (IH (dict_set res from to)) as (pairs & Hpairs & Hparse).
    exists ((from, to) :: pairs). split; [by econstructor|].
    rewrite Hp, Hparse. reflexivity.
Qed.


Lemma _get_path_map_list (config : Config) (entries : list string) :
  cfg_path_map config = Some (PMList entries) ->
  _get_path_map config = parse_path_map [] entries.
Proof.
  intros Hc. unfold _get_path_map. rewrite Hc.
  destruct entries; reflexivity.
Qed.



(** ** Shared paths *)

Section SharedFacts.
Variable fs : FileSystem.
Variable self : RemoteHost.

Lemma is_shared_loop (fullpath : string) (dirs : list string) :
  (fix loop (dirs : list string) : bool :=
     match dirs with
     | [] => false
     | sdir :: dirs' =>
         if Py.startswith fullpath sdir
         then if negb (existsb (Py.startswith fullpath) (dict_keys (path_map self)))
              then true
              else loop dirs'
         else loop dirs'
     end) dirs
  = existsb (Py.startswith fullpath) dirs
    && negb (existsb (Py.startswith fullpath) (dict_keys (path_map self))).
Proof.
  induction dirs as [|sdir dirs IH]; [reflexivity|].
  rewrite IH. simpl.
  destruct (Py.startswith fullpath sdir); simpl; [|reflexivity].
  destruct (existsb (Py.startswith fullpath) (dict_keys (path_map self)));
    simpl; [by rewrite andb_false_r | reflexivity].
Qed.

Lemma is_shared_spec (path : string) :
  let fullpath := abspath fs (expanduser fs path) in
  is_shared fs self path = true
  <-> (exists sdir, In sdir (shared_dirs self)
                    /\ Py.startswith fullpath sdir = true)
      /\ (forall mdir, In mdir (dict_keys (path_map self)) ->
                       Py.startswith fullpath mdir = false).
Proof.
  intros fullpath. unfold is_shared. fold fullpath.
  rewrite is_shared_loop, andb_true_iff, negb_true_iff, existsb_exists.
  apply and_iff_compat_l. split.
  - intros H mdir Hin.
    destruct (Py.startswith fullpath mdir) eqn:Hs; [|reflexivity].
    assert (existsb (Py.startswith fullpath) (dict_keys (path_map self)) = true)
      by (apply existsb_exists; eauto).
    congruence.
  - intros H.
    destruct (existsb _ _) eqn:He; [|reflexivity].
    apply existsb_exists in He as (mdir & Hin & Hs).
    rewrite (H mdir Hin) in Hs. discriminate.
Qed.
End SharedFacts.

(** C4.  [is_shared(p)] is true exactly when the absolute, user-expanded
    form of [p] starts with an entry of [shared] and starts with no key of
    the path map; with [shared = ["/a"]] and the path map [/a/b -> /y],
    ["/a/b/foo"] is not shared and ["/a/foo"] is, on any platform whose
    [abspath] and [expanduser] leave these two paths as they are. *)
Theorem is_shared_path_map_wins :
  (forall (fs : FileSystem) (self : RemoteHost) (p : string),
      is_shared fs self p = true
      <-> (exists sdir, In sdir (shared_dirs self)
             /\ Py.startswith (abspath fs (expanduser fs p)) sdir = true)
          /\ (forall mdir, In mdir (dict_keys (path_map self)) ->
                Py.startswith (abspath fs (expanduser fs p)) mdir = false))
  /\ (forall (fs : FileSystem),
      abspath fs (expanduser fs "/a/b/foo") = "/a/b/foo" ->
      abspath fs (expanduser fs "/a/foo") = "/a/foo" ->
      is_shared fs (remote_host "r" ["/a"] [("/a/b", "/y")]) "/a/b/foo" = false
      /\ is_shared fs (remote_host "r" ["/a"] [("/a/b", "/y")]) "/a/foo" = true).
Proof.
  split.
  - intros fs self p. apply is_shared_spec.
  - intros fs H1 H2. unfold is_shared. rewrite H1, H2. split; reflexivity.
Qed.

Lemma is_shared_path_map_wins_witness :
  is_shared plain_fs (remote_host "r" ["/a"] [("/a/b", "/y")]) "/a/b/foo" = false
  /\ is_shared plain_fs (remote_host "r" ["/a"] [("/a/b", "/y")]) "/a/foo" = true.
Proof.
  apply (proj2 is_shared_path_map_wins plain_fs); reflexivity.
Defined.

(** ** Running a computation *)

Lemma bind_run {A B} (m : M A) (k : A -> M B) (t : trace) :
  bind m k t = match m t with
               | (t', Ok a) => k a t'
               | (t', Raise e) => (t', Raise e)
               end.
Proof. reflexivity. Qed.

Lemma bind_ok {A B} (m : M A) (k : A -> M B) (t t' : trace) (a : A) :
  m t = (t', Ok a) -> bind m k t = k a t'.
Proof. intros H. unfold bind. by rewrite H. Qed.

Lemma bind_raise {A B} (m : M A) (k : A -> M B) (t t' : trace) (e : exn) :
  m t = (t', Raise e) -> bind m k t = (t', Raise e).
Proof. intros H. unfold bind. by rewrite H. Qed.

(** ** Local to remote *)

Section MapFacts.
Variable fs : FileSystem.

Lemma same_fileb_spec (p q : string) :
  same_fileb fs p q = true <-> same_file fs p q.
Proof.
  unfold same_fileb, same_file. split.
  - destruct (stat fs p) as [i|], (stat fs q) as [j|]; try discriminate.
    intros ->%Nat.eqb_eq. eauto.
  - intros (i & -> & ->). apply Nat.eqb_refl.
Qed.

Lemma exists_and_samefile_ok (p q : string) :
  stat fs q <> None ->
  exists_and_samefile fs p q = Ok (same_fileb fs p q).
Proof.
  intros Hq. unfold exists_and_samefile, exists_, samefile, same_fileb.
  destruct (stat fs p); [|reflexivity].
  destruct (stat fs q); [reflexivity | congruence].
Qed.

Lemma cwd_spelling_ok (p : string) :
  stat fs (getcwd fs) <> None ->
  cwd_spelling fs (abspath fs (expanduser fs p)) = Ok (local_form fs p).
Proof.
  intros Hcwd. unfold cwd_spelling, local_form.
  by rewrite exists_and_samefile_ok.
Qed.

Lemma matched_keys_ok (dest : string) (keys : list string) :
  (forall k, In k keys -> stat fs k <> None) ->
  matched_keys fs dest keys
  = Ok (List.filter (fun k => same_fileb fs (Py.take (String.length k) dest) k)
          keys).
Proof.
  induction keys as [|k keys IH]; intros H; [reflexivity|].
  cbn [matched_keys]. rewrite exists_and_samefile_ok by (apply H; by left).
  rewrite IH by (intros; apply H; by right). simpl.
  by destruct (same_fileb fs (Py.take (String.length k) dest) k).
Qed.
End MapFacts.

(** ** The longest of a list *)

Lemma max_len_from_spec (l : list string) : forall best,
  let k := Py.max_len_from best l in
  (k = best \/ In k l)
  /\ String.length best <= String.length k
  /\ forall x, In x l -> String.length x <= String.length k.
Proof.
  induction l as [|x l IH]; intros best; simpl.
  - split; [by left|]. split; [lia | tauto].
  - destruct (Nat.ltb_spec (String.length best) (String.length x)).
    + destruct (IH x) as (H1 & H2 & H3). split; [|split].
      * destruct H1 as [->|]; eauto.
      * lia.
      * intros y [<-|Hy]; [lia | by apply H3].
    + destruct (IH best) as (H1 & H2 & H3). split; [|split].
      * destruct H1; eauto.
      * lia.
      * intros y [<-|Hy]; [lia | by apply H3].
Qed.

Lemma max_len_spec (l : list string) :
  l <> [] ->
  exists k, Py.max_len l = Some k /\ In k l
    /\ forall x, In x l -> String.length x <= String.length k.
Proof.
  destruct l as [|x l]; [congruence|]. intros _.
  exists (Py.max_len_from x l). split; [reflexivity|].
  destruct (max_len_from_spec l x) as (H1 & H2 & H3). split.
  - destruct H1 as [->|]; [by left | by right].
  - intros y [<-|Hy]; [lia | by apply H3].
Qed.

Lemma dict_get_key {V} (d : list (string * V)) (k : string) :
  In k (dict_keys d) -> exists v, dict_get d k = Some v /\ In (k, v) d.
Proof.
  induction d as [|[k' v] d IH]; simpl; [tauto|].
  intros [->|Hin].
  - exists v. rewrite decide_True by reflexivity. eauto.
  - destruct (decide (k' = k)) as [->|]; [eauto|].
    destruct (IH Hin) as (v' & ? & ?). eauto.
Qed.

Section MapVarFacts.
Variable fs : FileSystem.
Variable self : RemoteHost.

Lemma mapped_reading (p : string) :
  Py.startswith p "#" = false ->
  stat fs (getcwd fs) <> None ->
  (forall k, In k (dict_keys (path_map self)) -> stat fs k <> None) ->
  mapped fs self p = map_reading fs self p.
Proof.
  intros Hp Hcwd Hkeys.
  unfold mapped, outcome, map_reading. cbn [_map_var map_var_atom].
  rewrite Hp. unfold map_local, bind, lift.
  rewrite (cwd_spelling_ok fs p Hcwd).
  rewrite (matched_keys_ok fs _ _ Hkeys). fold (matching_keys fs (path_map self) (local_form fs p)).
  destruct (Py.max_len _) as [k|]; [|reflexivity].
  destruct (dict_get (path_map self) k); reflexivity.
Qed.

Lemma reverse_mapped_reading (p : string) :
  reverse_mapped self p
  = match Py.max_len (reverse_matched (path_map self) p) with
    | Some k =>
        match dict_get (path_map self) k with
        | Some r =>
            Ok (Atom (AStr (Py.replace "\" "/" (k +:+ Py.drop (String.length r) p))))
        | None => Raise KeyError
        end
    | None => Ok (Atom (AStr (Py.replace "\" "/" p)))
    end.
Proof.
  unfold reverse_mapped, outcome. cbn [_reverse_map_var reverse_map_var_atom].
  unfold reverse_local, bind.
  destruct (Py.max_len _) as [k|]; [|reflexivity].
  destruct (dict_get (path_map self) k); reflexivity.
Qed.
End MapVarFacts.

Section MapPathFacts.
Variable fs : FileSystem.
Variable self : RemoteHost.


End MapPathFacts.




(** ** Remote to local *)

Lemma max_len_unique (l : list string) (k : string) :
  In k l ->
  (forall x, In x l -> x = k \/ String.length x < String.length k) ->
  Py.max_len l = Some k.
Proof.
  intros Hin Hothers.
  destruct (max_len_spec l) as (k0 & -> & Hk0 & Hmax); [by intros ->|].
  destruct (Hothers k0 Hk0) as [->|Hlt]; [reflexivity|].
  specialize (Hmax k Hin). lia.
Qed.

(** What [_reverse_map_var] does for a string: of the entries whose remote
    prefix starts the path on a separator boundary, it takes a local
    prefix of greatest length, the first such in the order of the path
    map, and puts it in place of that entry's remote prefix. *)
Lemma reverse_map_longest_local (self : RemoteHost) (dest : string) :
  reverse_matched (path_map self) dest <> [] ->
  exists l r,
    In l (reverse_matched (path_map self) dest)
    /\ dict_get (path_map self) l = Some r
    /\ (forall l', In l' (reverse_matched (path_map self) dest) ->
          String.length l' <= String.length l)
    /\ reverse_mapped self dest
       = Ok (Atom (AStr (Py.replace "\" "/" (l +:+ Py.drop (String.length r) dest)))).
Proof.
  intros Hne. rewrite reverse_mapped_reading.
  destruct (max_len_spec _ Hne) as (l & -> & Hl & Hmax).
  assert (In l (dict_keys (path_map self))) as Hkey.
  { unfold reverse_matched in Hl. apply in_map_iff in Hl as ([l0 r0] & <- & Hf).
    apply filter_In in Hf as [Hf _]. apply in_map_iff. by exists (l0, r0). }
  destruct (dict_get_key _ _ Hkey) as (r & Hr & _).
  exists l, r. rewrite Hr. done.
Qed.

(** C3.  With the path map [/data/local -> /r], [/b -> /r/sub], both
    remote prefixes start ["/r/sub/f"] on a separator boundary and
    [/r/sub] is the longer; [_reverse_map_var] nevertheless substitutes
    [/data/local] for [/r], because it compares the lengths of the local
    prefixes: the path that [/b/f] maps to comes back as
    [/data/local/sub/f]. *)
Theorem reverse_map_crossed_prefixes :
  reverse_matched (path_map crossed_host) "/r/sub/f" = ["/data/local"; "/b"]
  /\ reverse_mapped crossed_host "/r/sub/f" = Ok (Atom (AStr "/data/local/sub/f"))
  /\ mapped crossed_fs crossed_host "/b/f" = Ok (Atom (AStr "/r/sub/f")).
Proof. repeat split; reflexivity. Qed.

(** ** Round trip *)

(** C1, as stated, fails where a key and the path spell one directory
    differently: on a case-folding file system [/A/d.txt] is covered by the
    key [/a], maps to [/x/d.txt], and comes back as [/a/d.txt]. *)
Lemma round_trip_fails_on_other_spelling :
  covered folding_fs (remote_host "r" [] [("/a", "/x")]) "/A/d.txt"
  /\ mapped folding_fs (remote_host "r" [] [("/a", "/x")]) "/A/d.txt"
     = Ok (Atom (AStr "/x/d.txt"))
  /\ reverse_mapped (remote_host "r" [] [("/a", "/x")]) "/x/d.txt"
     = Ok (Atom (AStr "/a/d.txt"))
  /\ ~ round_trip folding_fs (remote_host "r" [] [("/a", "/x")]) "/A/d.txt".
Proof.
  split; [|split; [|split]]; try reflexivity.
  - exists "/a". split; [by left|]. exists 1. split; reflexivity.
  - intros (q & Hq & Hback).
    assert (q = "/x/d.txt") as -> by (vm_compute in Hq; congruence).
    vm_compute in Hback. congruence.
Qed.

(** Other ways the round trip does not give [p] back: a relative path
    comes back absolute, a backslash comes back as a slash, and of two
    local prefixes with one remote prefix the path comes back under the
    first. *)
Lemma round_trip_fails_otherwise :
  ~ round_trip (posix_file_system "/a" "/home/u" [("/a", 1)] [])
      (remote_host "r" [] [("/a", "/x")]) "d.txt"
  /\ ~ round_trip plain_fs (remote_host "r" [] [("/a", "/x")]) "/a/c\d"
  /\ ~ round_trip plain_fs (remote_host "r" [] [("/a", "/x"); ("/w", "/x")]) "/w/d".
Proof.
  repeat split; intros (q & Hq & Hback); vm_compute in Hq;
    injection Hq as <-; vm_compute in Hback; congruence.
Qed.

(** C1, amended.  Let the working directory and every key of the path
    map exist locally ([os.path.samefile] raises otherwise).  Let [p] be
    a local path that is not a named path, is left as it is by user
    expansion, [abspath] and the spelling of the working directory, and
    holds no backslash; let the key [k], with
    remote prefix [r], be a literal prefix of [p] and longer than every
    other key that names the same file as the leading segment of [p]; and
    let [k]'s be the only entry whose remote prefix starts the mapped path
    on a separator boundary.  Then [p] maps to [r] followed by the rest of
    [p], and that path maps back to [p]. *)
Theorem round_trip_of_literal_prefix
    (fs : FileSystem) (self : RemoteHost) (p k r : string) :
  Py.startswith p "#" = false ->
  stat fs (getcwd fs) <> None ->
  (forall k', In k' (dict_keys (path_map self)) -> stat fs k' <> None) ->
  local_form fs p = p ->
  free_of "\" p ->
  In k (dict_keys (path_map self)) ->
  dict_get (path_map self) k = Some r ->
  Py.startswith p k = true ->
  (forall k', In k' (dict_keys (path_map self)) ->
     same_file fs (Py.take (String.length k') p) k' ->
     k' = k \/ String.length k' < String.length k) ->
  reverse_matched (path_map self)
    (Py.replace "\" "/" (r +:+ Py.drop (String.length k) p)) = [k] ->
  mapped fs self p
  = Ok (Atom (AStr (Py.replace "\" "/" (r +:+ Py.drop (String.length k) p))))
  /\ reverse_mapped self (Py.replace "\" "/" (r +:+ Py.drop (String.length k) p))
     = Ok (Atom (AStr p))
  /\ round_trip fs self p.
Proof.
  intros Hp Hcwd Hkeys Hform Hfree Hk Hr Hpre Hlongest Hrev.
  assert (mapped fs self p
          = Ok (Atom (AStr (Py.replace "\" "/" (r +:+ Py.drop (String.length k) p)))))
    as Hfwd.
  { rewrite (mapped_reading fs self p Hp Hcwd Hkeys). unfold map_reading.
    rewrite Hform.
    rewrite (max_len_unique _ k), Hr; [reflexivity | |].
    - apply filter_In. split; [exact Hk|]. apply same_fileb_spec.
      apply startswith_iff in Hpre as [rest ->]. rewrite take_append.
      destruct (stat fs k) as [i|] eqn:Hi; [by exists i | by apply Hkeys in Hk].
    - intros k' [Hin Hsame]%filter_In. apply Hlongest; [exact Hin|].
      by apply same_fileb_spec. }
  assert (reverse_mapped self (Py.replace "\" "/" (r +:+ Py.drop (String.length k) p))
          = Ok (Atom (AStr p))) as Hback.
  { rewrite reverse_mapped_reading, Hrev. cbn [Py.max_len Py.max_len_from].
    rewrite Hr. do 3 f_equal.
    apply startswith_iff in Hpre as [rest ->].
    apply free_of_append in Hfree as [Hfk Hfrest].
    rewrite drop_append, !replace_append.
    rewrite <- (length_replace "\" "/" r) at 1. rewrite drop_append.
    rewrite (replace_free _ _ k Hfk).
    by rewrite !(replace_free _ _ rest Hfrest). }
  split; [exact Hfwd|]. split; [exact Hback|]. eexists. eauto.
Qed.

Lemma round_trip_of_literal_prefix_witness :
  mapped plain_fs (remote_host "r" [] [("/a", "/x"); ("/a/b", "/y")]) "/a/b/c.txt"
  = Ok (Atom (AStr "/y/c.txt"))
  /\ reverse_mapped (remote_host "r" [] [("/a", "/x"); ("/a/b", "/y")]) "/y/c.txt"
     = Ok (Atom (AStr "/a/b/c.txt"))
  /\ round_trip plain_fs (remote_host "r" [] [("/a", "/x"); ("/a/b", "/y")]) "/a/b/c.txt".
Proof.
  apply (round_trip_of_literal_prefix plain_fs
           (remote_host "r" [] [("/a", "/x"); ("/a/b", "/y")])
           "/a/b/c.txt" "/a/b" "/y"); try reflexivity.
  - discriminate.
  - intros k [<-|[<-|[]]]; discriminate.
  - simpl. repeat split; discriminate.
  - right. by left.
  - intros k' [<-|[<-|[]]] _; [right; simpl; lia | by left].
Defined.

(** ** Staging: values that are not paths *)

(** C10, as stated, fails for a sequence with a member that is not a
    string or path: the member is left out with an [info] record, no
    warning is logged, and the rest is transferred. *)
Lemma mixed_sequence_is_transferred :
  strings_and_paths (Seq [Atom (AInt 1); Atom (AStr "/a/d.txt")]) = false
  /\ send_to_host (posix_world plain_fs) (remote_host "r" [] [("/a", "/x")])
       (Seq [Atom (AInt 1); Atom (AStr "/a/d.txt")]) []
     = ([Log Info [T "``Ignore`` "; V (Seq [Atom (AInt 1)])];
         Call (SendCmd false "/a/d.txt" "/x/d.txt" "r" 22) true],
        Ok [(APath "/a/d.txt", "/x/d.txt")])
  /\ receive_from_host (posix_world plain_fs) (remote_host "r" [] [("/a", "/x")])
       (Seq [Atom (AInt 1); Atom (AStr "/a/d.txt")]) []
     = ([Log Info [T "``Ignore`` "; V (Seq [Atom (AInt 1)])];
         Call (ReceiveCmd false "/x/d.txt" "/a/d.txt" "r" 22) true],
        Ok [("/a/d.txt", "/x/d.txt")])
  /\ send_to_host (posix_world plain_fs) (remote_host "r" [] [("/a", "/x")])
       (Seq [Atom (AInt 1)]) []
     = ([Log Info [T "``Ignore`` "; V (Seq [Atom (AInt 1)])]], Ok []).
Proof. repeat split; reflexivity. Qed.

(** C10, amended.  Given a value that is neither a string, nor a path
    object, nor a sequence, [send_to_host] and [receive_from_host] log one
    warning that holds the value, run no command, and return the empty
    dict. *)
Theorem unrecognized_items_are_refused
    (w : World) (self : RemoteHost) (items : pyval) (t : trace) :
  unrecognized items = true ->
  send_to_host w self items t
  = (t ++ [Log Warning [T "Unrecognized items to be sent to host: "; V items]], Ok [])
  /\ receive_from_host w self items t
     = (t ++ [Log Warning [T "Unrecognized items to be retrieved from host: "; V items]],
        Ok []).
Proof.
  intros H. destruct items as [[]| |]; try discriminate; split; reflexivity.
Qed.

Lemma unrecognized_items_are_refused_witness :
  send_to_host (posix_world plain_fs) (remote_host "r" [] [("/a", "/x")])
    (PySet [AStr "/a/d.txt"]) []
  = ([Log Warning [T "Unrecognized items to be sent to host: ";
                   V (PySet [AStr "/a/d.txt"])]], Ok [])
  /\ receive_from_host (posix_world plain_fs) (remote_host "r" [] [("/a", "/x")])
       (PySet [AStr "/a/d.txt"]) []
     = ([Log Warning [T "Unrecognized items to be retrieved from host: ";
                      V (PySet [AStr "/a/d.txt"])]], Ok []).
Proof.
  apply (unrecognized_items_are_refused (posix_world plain_fs)
           (remote_host "r" [] [("/a", "/x")]) (PySet [AStr "/a/d.txt"]) []).
  reflexivity.
Defined.

(** ** Resource ceilings *)

Lemma exceeded_over_ceiling (w : World) (config : Config) (task_id : string)
    (rt : TaskRuntime) :
  over_ceiling w config rt ->
  exists msg, exceeded w config task_id rt = Ok (Some msg).
Proof.
  unfold exceeded, mem_exceeded, cores_exceeded, walltime_exceeded.
  intros [(mm & m & -> & -> & Hlt)|[(mc & c & Hmc & Hc & Hlt)|
          (mw & wt & a & b & Hmw & Hwt & Ha & Hb & Hlt)]].
  - apply Z.ltb_lt in Hlt. rewrite Hlt. eauto.
  - destruct (cfg_max_mem config) as [mm|], (rt_mem rt) as [m|];
      try destruct (mm <? m)%Z; eauto;
      rewrite Hmc, Hc; apply Z.ltb_lt in Hlt; rewrite Hlt; eauto.
  - destruct (cfg_max_mem config) as [mm|], (rt_mem rt) as [m|];
      try destruct (mm <? m)%Z; eauto;
      destruct (cfg_max_cores config) as [mc|], (rt_cores rt) as [c|];
      try destruct (mc <? c)%Z; eauto;
      rewrite Hmw, Hwt, Ha, Hb; simpl; apply Z.ltb_lt in Hlt; rewrite Hlt; eauto.
Qed.

Lemma over_ceiling_has_limit (w : World) (config : Config) (rt : TaskRuntime) :
  over_ceiling w config rt -> has_limit config = true.
Proof.
  unfold has_limit.
  intros [(mm & m & H & _)|[(mc & c & H & _)|(mw & wt & a & b & H & _)]];
    rewrite H; simpl; rewrite ?orb_true_r; reflexivity.
Qed.

(** C6.  For a task whose file is there and loads, and that asks for more
    memory, cores or wall time than the host's ceiling: the local
    [prepare_task] logs the excess as an error and returns [False],
    writing nothing to the task; the remote [_prepare_task] raises a
    [ValueError] before staging anything, and the remote [prepare_task]
    catches it, logs it and returns [False]. *)
Theorem resource_ceiling
    (w : World) (self : RemoteHost) (task_id : string) (params : Params)
    (t : trace) :
  (forall t, isfile_task w t task_id = true) ->
  (forall t, task_params w t task_id = Ok params) ->
  (forall limit, cfg_max_walltime (config self) = Some limit ->
                 exists s, format_HHMMSS w limit = Ok s) ->
  over_ceiling w (config self) (_runtime (sos_dict params)) ->
  exists msg,
    LocalHost.prepare_task w (config self) task_id t
    = (t ++ [Log Error msg], Ok false)
    /\ _prepare_task w self task_id t = (t, Raise (ValueError msg))
    /\ prepare_task w self task_id t = (t ++ [Log Error msg], Ok false).
Proof.
  intros Hfile Hparams Hfmt Hover.
  destruct (exceeded_over_ceiling w (config self) task_id _ Hover) as (msg & Hex).
  exists msg. split; [|split].
  - unfold LocalHost.prepare_task, bind, ask, lift. rewrite Hfile. cbn [negb].
    rewrite Hparams. rewrite (over_ceiling_has_limit _ _ _ Hover).
    unfold stored_max_walltime.
    destruct (cfg_max_walltime (config self)) as [limit|] eqn:Hl.
    + destruct (Hfmt limit eq_refl) as (s & ->). cbn [rbind]. rewrite Hex.
      reflexivity.
    + rewrite Hex. reflexivity.
  - unfold _prepare_task, bind, ask, lift. rewrite Hfile. cbn [negb].
    rewrite Hparams, Hex. reflexivity.
  - unfold prepare_task, catch, bind.
    assert (_prepare_task w self task_id t = (t, Raise (ValueError msg))) as ->.
    { unfold _prepare_task, bind, ask, lift. rewrite Hfile. cbn [negb].
      rewrite Hparams, Hex. reflexivity. }
    reflexivity.
Qed.

Lemma resource_ceiling_witness :
  exists msg,
    LocalHost.prepare_task two_gb_world one_gb_config "t1" []
    = ([Log Error msg], Ok false)
    /\ _prepare_task two_gb_world one_gb_host "t1" [] = ([], Raise (ValueError msg))
    /\ prepare_task two_gb_world one_gb_host "t1" [] = ([Log Error msg], Ok false).
Proof.
  apply (resource_ceiling two_gb_world one_gb_host "t1" two_gb_params []).
  - reflexivity.
  - reflexivity.
  - discriminate.
  - left. exists 1000000000%Z, 2000000000%Z. repeat split; reflexivity.
Defined.

(** ** The command channel *)





Section ChannelFacts.
Variable w : World.
Variable ch : Channel.
Variable self : RemoteHost.

Hypothesis cwd_exists : stat w (getcwd w) <> None.
Hypothesis keys_exist :
  forall k, In k (dict_keys (path_map self)) -> stat w k <> None.
Hypothesis cwd_not_named : Py.startswith (getcwd w) "#" = false.






End ChannelFacts.




(** ** Result retrieval *)

Lemma bind_ok_inv {A B} (m : M A) (k : A -> M B) (t t' : trace) (b : B) :
  bind m k t = (t', Ok b) ->
  exists t1 a, m t = (t1, Ok a) /\ k a t1 = (t', Ok b).
Proof.
  unfold bind. destruct (m t) as [t1 [a|e]]; [eauto | discriminate].
Qed.

Lemma pyval_nested_ind (P : pyval -> Prop) :
  (forall a, P (Atom a)) ->
  (forall l, Forall P l -> P (Seq l)) ->
  (forall l, P (PySet l)) ->
  forall v, P v.
Proof.
  intros Ha Hs Hp. fix IH 1. intros [a|l|l].
  - apply Ha.
  - apply Hs.
    refine ((fix all (l : list pyval) : Forall P l :=
               match l with
               | [] => @List.Forall_nil _ P
               | x :: l' => @List.Forall_cons _ P x l' (IH x) (all l')
               end) l).
  - apply Hp.
Qed.

Section ReverseFacts.
Variable self : RemoteHost.

Lemma reverse_local_run (s : string) :
  exists logs, forall t,
    reverse_local (path_map self) s t = (t ++ logs, Ok (reverse_string self s)).
Proof.
  unfold reverse_local, reverse_string, bind.
  destruct (Py.max_len _) as [k|] eqn:Hmax.
  - assert (In k (dict_keys (path_map self))) as Hk.
    { destruct (reverse_matched _ _) as [|x l] eqn:Hf; [discriminate|].
      destruct (max_len_spec (x :: l)) as (k' & Hk' & Hin & _); [discriminate|].
      rewrite Hmax in Hk'. injection Hk' as <-. rewrite <- Hf in Hin.
      unfold reverse_matched in Hin. apply in_map_iff in Hin as ([l0 r0] & <- & Hin).
      apply filter_In in Hin as [Hin _]. apply in_map_iff. by exists (l0, r0). }
    destruct (dict_get_key _ _ Hk) as (r & -> & _).
    exists []. intros t. unfold ret. by rewrite app_nil_r.
  - eexists [_]. intros t. reflexivity.
Qed.

Lemma reverse_atom_run (a : atom) :
  exists logs, forall t,
    reverse_map_var_atom self a t = (t ++ logs, Ok (reverse_atom self a)).
Proof.
  destruct a as [s|s|z| |r]; cbn [reverse_map_var_atom reverse_atom].
  1,2: destruct (reverse_local_run s) as (logs & H); exists logs; intros t;
       unfold bind; rewrite H; reflexivity.
  all: eexists [_]; intros t; reflexivity.
Qed.

Lemma reverse_atoms_run (l : list atom) :
  exists logs, forall t,
    map_m (reverse_map_var_atom self) l t
    = (t ++ logs, Ok (map (reverse_atom self) l)).
Proof.
  induction l as [|a l (logs & IH)].
  - exists []. intros t. cbn. by rewrite app_nil_r.
  - destruct (reverse_atom_run a) as (la & Ha).
    exists (la ++ logs). intros t. cbn [map_m map]. unfold bind.
    rewrite Ha, IH. unfold ret. by rewrite app_assoc.
Qed.

Lemma _reverse_map_var_run (v : pyval) :
  exists logs, forall t,
    _reverse_map_var self v t = (t ++ logs, Ok (reverse_value self v)).
Proof.
  induction v as [a|l IH|l] using pyval_nested_ind.
  - apply reverse_atom_run.
  - cbn [_reverse_map_var reverse_value].
    assert (exists logs, forall t,
      (fix each (l : list pyval) : M (list pyval) :=
         match l with
         | [] => ret []
         | x :: l' => y <- _reverse_map_var self x ;; ys <- each l' ;; ret (y :: ys)
         end) l t = (t ++ logs, Ok (map (reverse_value self) l)))
      as (logs & Hl).
    { induction IH as [|x l (lx & Hx) _ (logs & IH)].
      - exists []. intros t. cbn. by rewrite app_nil_r.
      - exists (lx ++ logs). intros t. cbn [map]. unfold bind.
        rewrite Hx, IH. unfold ret. by rewrite app_assoc. }
    exists logs. intros t. unfold bind. rewrite Hl. reflexivity.
  - cbn [_reverse_map_var reverse_value].
    destruct (reverse_atoms_run l) as (logs & Hl).
    exists logs. intros t. unfold bind. rewrite Hl. reflexivity.
Qed.

Lemma translate_output_run (msg : string) (declared : option Declared)
    (out : pyval) :
  exists logs, forall t,
    translate_output self msg declared out t
    = (t ++ logs, Ok (translated self declared out)).
Proof.
  unfold translate_output, translated. destruct declared as [d|].
  - destruct (d_undetermined d).
    + destruct (_reverse_map_var_run out) as (logs & H).
      exists logs. intros t. unfold bind. rewrite H. reflexivity.
    + exists []. intros t. unfold ret. by rewrite app_nil_r.
  - eexists [_]. intros t. reflexivity.
Qed.

Lemma translate_subtasks_run (stack : list (string * SosDict)) :
  forall subs, exists logs, forall t,
    translate_subtasks self stack subs t
    = (t ++ logs, Ok (translated_subtasks self stack subs)).
Proof.
  induction stack as [|[tid subparams] stack IH]; intros subs.
  - exists []. intros t. cbn. by rewrite app_nil_r.
  - cbn [translate_subtasks translated_subtasks].
    destruct (dict_get subs tid) as [[out|]|]; try apply IH.
    destruct (translate_output_run "Missing _output in subparams"
                (_output subparams) out) as (lo & Ho).
    destruct (IH (dict_set subs tid (Some (translated self (_output subparams) out))))
      as (logs & Hs).
    exists (lo ++ logs). intros t. unfold bind. rewrite Ho, Hs.
    by rewrite app_assoc.
Qed.
End ReverseFacts.

(** C8, as stated, fails for a task whose declared [_output] is
    determined: the [output] of the result, and of its subtask, is then
    the declared [_output], not the reverse-mapped remote paths. *)
Lemma determined_output_is_not_reverse_mapped :
  exists res',
    outcome (receive_result (result_world determined_params) result_host "t1")
    = Ok (Result res')
    /\ output res' = Some (Seq [Atom (AStr "out.txt")])
    /\ subtasks res' = Some [("s1", Some (Seq [Atom (AStr "s.txt")]))]
    /\ reverse_value result_host (Seq [Atom (AStr "/x/out.txt")])
       = Seq [Atom (AStr "/a/out.txt")]
    /\ output res'
       <> option_map (reverse_value result_host) (output remote_result).
Proof.
  eexists. split; [reflexivity|]. repeat split. discriminate.
Qed.

Ltac bind_inv H :=
  let t1 := fresh "t" in
  let a := fresh "a" in
  let H1 := fresh "Hstep" in
  apply bind_ok_inv in H as (t1 & a & H1 & H).

(** C8, amended.  When [receive_result] returns the result of the task
    file and the result is not a failure, its [ret_code] and [succ] are
    those of the task file, and its [output], when the task file's result
    has one, is: the reverse-mapped [output] when the declared [_output]
    is undetermined, the declared [_output] itself when it is determined,
    and an empty target set when the task declares no [_output]; the
    [output] of each subtask of [task_stack] present in [subtasks] is set
    by the same rule from the subtask's own [_output].  A failed result
    is returned as it is. *)
Theorem receive_result_translates
    (w : World) (self : RemoteHost) (task_id : string) (t t' : trace)
    (res' : TaskResult) :
  receive_result w self task_id t = (t', Ok (Result res')) ->
  exists t1 params res,
    task_params w t1 task_id = Ok params
    /\ task_result w t1 task_id = Some res
    /\ if failed res then res' = res
       else res' = {| ret_code := ret_code res; succ := succ res;
                      output := option_map (translated self (_output (sos_dict params)))
                                  (output res);
                      subtasks := option_map
                                    (translated_subtasks self (task_stack params))
                                    (subtasks res) |}.
Proof.
  intros H. unfold receive_result in H.
  do 7 bind_inv H.
  unfold bind, ask, lift in Hstep5.
  destruct (task_params w t5 task_id) as [params|e] eqn:Hparams;
    [|discriminate].
  injection Hstep5 as <- <-.
  bind_inv H. unfold ask in Hstep5. injection Hstep5 as <- <-.
  exists t5, params. destruct (task_result w t5 task_id) as [res|] eqn:Hres.
  - exists res. split; [exact Hparams|]. split; [reflexivity|].
    destruct (failed res).
    + do 2 bind_inv H. unfold ret in H. by injection H as _ <-.
    + do 5 bind_inv H. unfold ret in H. injection H as _ <-.
      f_equal.
      * destruct (output res) as [out|].
        -- bind_inv Hstep8.
           destruct (translate_output_run self "Missing _output in task dict"
                       (_output (sos_dict params)) out) as (logs & Hrun).
           rewrite Hrun in Hstep10. injection Hstep10 as _ <-.
           unfold ret in Hstep8. by injection Hstep8 as _ <-.
        -- unfold ret in Hstep8. by injection Hstep8 as _ <-.
      * destruct (subtasks res) as [subs|].
        -- bind_inv Hstep9.
           destruct (translate_subtasks_run self (task_stack params) subs)
             as (logs & Hrun).
           rewrite Hrun in Hstep10. injection Hstep10 as _ <-.
           unfold ret in Hstep9. by injection Hstep9 as _ <-.
        -- unfold ret in Hstep9. by injection Hstep9 as _ <-.
  - bind_inv H. discriminate.
Qed.

Lemma receive_result_translates_witness :
  exists t1 params res,
    task_params (result_world undetermined_params) t1 "t1" = Ok params
    /\ task_result (result_world undetermined_params) t1 "t1" = Some res
    /\ if failed res
       then {| ret_code := Some 0%Z; succ := None;
               output := Some (Seq [Atom (AStr "/a/out.txt")]);
               subtasks := Some [("s1", Some (Seq [Atom (AStr "/a/s.txt")]))] |} = res
       else {| ret_code := Some 0%Z; succ := None;
               output := Some (Seq [Atom (AStr "/a/out.txt")]);
               subtasks := Some [("s1", Some (Seq [Atom (AStr "/a/s.txt")]))] |}
            = {| ret_code := ret_code res; succ := succ res;
                 output := option_map
                             (translated result_host (_output (sos_dict params)))
                             (output res);
                 subtasks := option_map
                               (translated_subtasks result_host (task_stack params))
                               (subtasks res) |}.
Proof.
  apply (receive_result_translates (result_world undetermined_params) result_host
           "t1" [] [Call (ScpResultCmd "t1" "r" 22) true]).
  reflexivity.
Defined.

(** ** The host registry *)

Section RegistryFacts.
Variable pl : Plugins.

Lemma engines_made (engine_type : string) (p p' : Process)
    (t wf : option nat) :
  _get_task_and_workflow_engine pl engine_type p = (p', Ok (t, wf)) ->
  agents p' = agents p
  /\ host_instances p' = host_instances p
  /\ next_id p <= next_id p'
  /\ (forall e, t = Some e -> engines p' !! e = Some Fresh)
  /\ (forall e, e < next_id p -> engines p' !! e = engines p !! e)
  /\ (forall e, is_Some (engines p' !! e) ->
                is_Some (engines p !! e) \/ e < next_id p').
Proof.
  unfold _get_task_and_workflow_engine, new_engine.
  destruct (String.eqb engine_type "process").
  - intros [= <- <- <-]. cbn. repeat split; try lia.
    + intros e [= <-]. rewrite lookup_insert_ne by lia. apply lookup_insert_eq.
    + intros e He. by rewrite !lookup_insert_ne by lia.
    + intros e. rewrite !lookup_insert. repeat case_decide; subst; eauto with lia.
  - destruct (task_engine_entry pl engine_type),
             (workflow_engine_entry pl engine_type);
      intros [= <- <- <-]; cbn; repeat split; try lia; try discriminate.
    + intros e [= <-]. rewrite lookup_insert_ne by lia. apply lookup_insert_eq.
    + intros e He. by rewrite !lookup_insert_ne by lia.
    + intros e. rewrite !lookup_insert. repeat case_decide; subst; eauto with lia.
    + intros e [= <-]. apply lookup_insert_eq.
    + intros e He. by rewrite !lookup_insert_ne by lia.
    + intros e. rewrite !lookup_insert. repeat case_decide; subst; eauto with lia.
    + intros e He. by rewrite !lookup_insert_ne by lia.
    + intros e. rewrite !lookup_insert. repeat case_decide; subst; eauto with lia.
Qed.

(** What a successful [build] leaves: a new agent under [alias], whose
    identity was not in use, with its engines attached. *)
Lemma build_ok (alias : string) (config : Config) (test_connection : bool)
    (p p' : Process) :
  build pl alias config test_connection p = (p', Ok tt) ->
  host_instances p' = <[alias := next_id p]> (host_instances p)
  /\ next_id p < next_id p'
  /\ (exists ag, agents p' = <[next_id p := ag]> (agents p)
        /\ is_Some (_task_engine ag)
        /\ forall e, _task_engine ag = Some (Some e) -> engines p' !! e = Some Fresh)
  /\ (forall e, e < next_id p -> engines p' !! e = engines p !! e)
  /\ (forall e, is_Some (engines p' !! e) ->
                is_Some (engines p !! e) \/ e < next_id p').
Proof.
  unfold build.
  destruct (if String.eqb (cfg_address config) "localhost" then _ else _)
    as [b|e]; [|discriminate].
  destruct (_get_task_and_workflow_engine _ _ _) as [p1 [[t wf]|e]] eqn:Heng;
    [|discriminate].
  intros [= <-].
  destruct (engines_made _ _ _ _ _ Heng) as (Hag & Hhi & Hnext & Ht & Hold & Hdom).
  cbn in *. split; [exact Hhi|]. split; [lia|]. split; [|split].
  - eexists. split; [|split].
    + rewrite Hag. by rewrite insert_insert_eq.
    + cbn. eauto.
    + cbn. intros e [= ->]. by apply Ht.
  - intros e He. apply Hold. lia.
  - intros e He. destruct (Hdom e He) as [?|?]; [by left | by right].
Qed.
End RegistryFacts.

Section LookupFacts.
Variable pl : Plugins.

Lemma start_ok (start_engine : bool) (t : attribute nat) (p p1 : Process) :
  start_if_needed start_engine t p = (p1, Ok tt) ->
  agents p1 = agents p
  /\ host_instances p1 = host_instances p
  /\ next_id p1 = next_id p
  /\ (forall e, is_Some (engines p1 !! e) <-> is_Some (engines p !! e))
  /\ (forall e st, engines p !! e = Some st -> st <> Stopped ->
        exists st', engines p1 !! e = Some st' /\ st' <> Stopped).
Proof.
  unfold start_if_needed. destruct start_engine.
  - destruct t as [[e|]|]; [|intros [= <-]; by eauto 10|discriminate].
    destruct (engines p !! e) as [[]|] eqn:He; try discriminate.
    + intros [= <-]. cbn. repeat split; try done.
      * intros [st Hst]. rewrite lookup_insert in Hst. case_decide; subst; eauto.
      * intros [st Hst]. rewrite lookup_insert. case_decide; eauto.
      * intros e' st Hst Hne. rewrite lookup_insert. case_decide; eauto.
    + intros [= <-]. by eauto 10.
  - intros [= <-]. by eauto 10.
Qed.

Lemma start_returns (start_engine : bool) (e : nat) (st : engine_state)
    (p : Process) :
  engines p !! e = Some st -> st <> Stopped ->
  exists p1, start_if_needed start_engine (Some (Some e)) p = (p1, Ok tt).
Proof.
  intros He Hst. unfold start_if_needed. destruct start_engine; [|eauto].
  rewrite He. destruct st; eauto. congruence.
Qed.

(** What a lookup that returns leaves behind. *)
Lemma lookup_returns (alias : string) (config : Config)
    (start_engine test_connection : bool) (p p1 : Process) (h : Host) :
  _get_host_agent pl alias config start_engine test_connection p = (p1, Ok h) ->
  host_instances p1 !! alias = Some (_host_agent h)
  /\ (exists ag, agents p1 !! _host_agent h = Some ag
        /\ host_task_engine h = _task_engine ag
        /\ forall e, _task_engine ag = Some (Some e) ->
             exists st, engines p1 !! e = Some st /\ st <> Stopped)
  /\ (to_build alias p = Ok true -> _host_agent h = next_id p)
  /\ (consistent p -> consistent p1).
Proof.
  unfold _get_host_agent.
  destruct (to_build alias p) as [rebuild|] eqn:Hto; [|discriminate].
  destruct rebuild.
  - destruct (build pl alias config test_connection p) as [p' [[]|]] eqn:Hb;
      [|discriminate].
    destruct (build_ok pl _ _ _ _ _ Hb)
      as (Hhi & Hnext & (ag & Hag & Hte & Hfresh) & Hold & Hdom).
    rewrite Hhi, lookup_insert_eq, Hag, lookup_insert_eq.
    destruct (start_if_needed _ _ _) as [p2 [[]|]] eqn:Hs; [|discriminate].
    intros [= <- <-]. cbn.
    destruct (start_ok _ _ _ _ Hs) as (Hag2 & Hhi2 & Hn2 & Hdom2 & Hlive).
    split; [by rewrite Hhi2, Hhi, lookup_insert_eq|]. split; [|split].
    + exists ag. rewrite Hag2, Hag, lookup_insert_eq.
      repeat split. intros e He. apply (Hlive e Fresh); [by apply Hfresh | done].
    + done.
    + intros (C1 & C2 & C3 & C4). repeat split.
      * intros alias' a. rewrite Hhi2, Hhi, Hag2, Hag, !lookup_insert.
        repeat case_decide; subst; eauto. congruence.
      * intros a. rewrite Hag2, Hag, Hn2, lookup_insert.
        case_decide; subst; [lia|]. intros Ha%C2. lia.
      * intros e. rewrite Hdom2, Hn2. intros He.
        destruct (Hdom e He) as [Ho%C3|?]; lia.
      * intros a ag' e. rewrite Hag2, Hag, Hdom2, lookup_insert.
        case_decide; subst.
        -- intros [= <-] He. rewrite (Hfresh e He). eauto.
        -- intros Ha He. rewrite Hold; [by eapply C4|].
           apply C3. by eapply C4.
  - destruct (host_instances p !! alias) as [a|] eqn:Ha; [|discriminate].
    destruct (agents p !! a) as [ag|] eqn:Hag; [|discriminate].
    destruct (start_if_needed _ _ _) as [p2 [[]|]] eqn:Hs; [|discriminate].
    intros [= <- <-]. cbn.
    destruct (start_ok _ _ _ _ Hs) as (Hag2 & Hhi2 & Hn2 & Hdom2 & Hlive).
    split; [by rewrite Hhi2|]. split; [|split].
    + exists ag. rewrite Hag2. repeat split; [done|].
      intros e He. unfold to_build in Hto. rewrite Ha, Hag, He in Hto.
      destruct (engines p !! e) as [st|] eqn:Hst; [|discriminate].
      apply (Hlive e st); [done|]. by destruct st.
    + discriminate.
    + intros (C1 & C2 & C3 & C4). repeat split.
      * intros alias' a'. rewrite Hhi2, Hag2. apply C1.
      * intros a'. rewrite Hag2, Hn2. apply C2.
      * intros e. rewrite Hdom2, Hn2. apply C3.
      * intros a' ag' e. rewrite Hag2, Hdom2. apply C4.
Qed.

(** A host at [localhost] without [queue_type] gets its agent and the
    built-in engines whenever one is to be made. *)
Lemma lookup_builds_local (alias : string) (config : Config)
    (start_engine test_connection : bool) (p : Process) :
  to_build alias p = Ok true ->
  cfg_address config = "localhost" ->
  cfg_queue_type config = None ->
  exists p1 h,
    _get_host_agent pl alias config start_engine test_connection p = (p1, Ok h).
Proof.
  intros Hto Haddr Hq. unfold _get_host_agent. rewrite Hto.
  unfold build, engine_type_of. rewrite Haddr, Hq. cbn.
  rewrite !lookup_insert_eq. cbn.
  destruct start_engine; cbn.
  - rewrite lookup_insert_ne by lia. rewrite lookup_insert_eq. eauto.
  - eauto.
Qed.
End LookupFacts.

(** What holds of the registry for an agent with a task engine.  After
    a lookup of [alias] has returned an agent with a task engine
    attached: a second lookup of [alias] returns, and returns the same
    agent; after [reset] the registry is empty, and a lookup that
    returns gives an agent whose identity no object of the process had,
    so it is not the first agent; once the task engine of the cached
    agent has stopped, a lookup that returns gives such a new agent too
    and leaves it registered under [alias].  For a host at [localhost]
    with the built-in engines, these lookups do return. *)
Theorem registry_identity
    (pl : Plugins) (alias : string) (config : Config)
    (start_engine test_connection : bool) (p p1 : Process) (h1 : Host) (e : nat) :
  consistent p ->
  _get_host_agent pl alias config start_engine test_connection p = (p1, Ok h1) ->
  host_task_engine h1 = Some (Some e) ->
  (forall config' start' test',
      exists p2 h2,
        _get_host_agent pl alias config' start' test' p1 = (p2, Ok h2)
        /\ _host_agent h2 = _host_agent h1)
  /\ host_instances (reset p1) = ∅
  /\ (forall config' start' test' p2 h2,
        _get_host_agent pl alias config' start' test' (reset p1) = (p2, Ok h2) ->
        _host_agent h2 <> _host_agent h1
        /\ agents p1 !! _host_agent h2 = None)
  /\ (forall config' start' test' p2 h2,
        _get_host_agent pl alias config' start' test' (stop_engine e p1) = (p2, Ok h2) ->
        _host_agent h2 <> _host_agent h1
        /\ agents p1 !! _host_agent h2 = None
        /\ host_instances p2 !! alias = Some (_host_agent h2))
  /\ (forall config' start' test',
        cfg_address config' = "localhost" ->
        cfg_queue_type config' = None ->
        (exists p2 h2,
            _get_host_agent pl alias config' start' test' (reset p1) = (p2, Ok h2))
        /\ (exists p2 h2,
            _get_host_agent pl alias config' start' test' (stop_engine e p1)
            = (p2, Ok h2))).
Proof.
  intros Hcons Hlook He.
  destruct (lookup_returns pl _ _ _ _ _ _ _ Hlook)
    as (Hreg & (ag & Hag & Hte & Hlive) & _ & Hcons1).
  specialize (Hcons1 Hcons). rewrite Hte in He.
  destruct (Hlive e He) as (st & Hst & Hnot).
  assert (_host_agent h1 < next_id p1) as Hold.
  { destruct Hcons1 as (_ & C2 & _). apply C2. by rewrite Hag. }
  assert (forall a, next_id p1 <= a -> agents p1 !! a = None) as Hfree.
  { intros a Ha. destruct Hcons1 as (_ & C2 & _).
    destruct (agents p1 !! a) eqn:Hx; [|done].
    assert (a < next_id p1) by (apply C2; by rewrite Hx). lia. }
  assert (forall alias', to_build alias' (reset p1) = Ok true) as Hreset
    by (intros alias'; unfold to_build, reset; cbn; by rewrite lookup_empty).
  assert (to_build alias (stop_engine e p1) = Ok true) as Hstop.
  { unfold to_build, stop_engine. cbn. rewrite Hreg, Hag, He.
    by rewrite lookup_insert_eq. }
  split; [|split; [|split; [|split]]].
  - intros config' start' test'. unfold _get_host_agent.
    assert (to_build alias p1 = Ok false) as ->.
    { unfold to_build. rewrite Hreg, Hag, He, Hst. by destruct st. }
    rewrite Hreg, Hag, He.
    destruct (start_returns start' e st p1 Hst Hnot) as (p2 & ->).
    eauto.
  - reflexivity.
  - intros config' start' test' p2 h2 H2.
    destruct (lookup_returns pl _ _ _ _ _ _ _ H2) as (_ & _ & Hnew & _).
    rewrite (Hnew (Hreset alias)). cbn. split; [lia | by apply Hfree].
  - intros config' start' test' p2 h2 H2.
    destruct (lookup_returns pl _ _ _ _ _ _ _ H2) as (Hreg2 & _ & Hnew & _).
    rewrite Hreg2, (Hnew Hstop). cbn. repeat split; [lia | by apply Hfree].
  - intros config' start' test' Haddr Hq. split.
    + by apply lookup_builds_local.
    + by apply lookup_builds_local.
Qed.

Lemma new_process_consistent : consistent new_process.
Proof.
  repeat split; cbn; intros *; rewrite ?lookup_empty;
    try discriminate; by intros [? ?].
Qed.

Lemma registry_identity_witness :
  (exists p2 h2,
      _get_host_agent built_in "localhost" (no_config "localhost" "localhost") true true
        (_get_host_agent built_in "localhost" (no_config "localhost" "localhost")
           true true new_process).1
      = (p2, Ok h2)
      /\ _host_agent h2 = 0)
  /\ (exists p2 h2,
      _get_host_agent built_in "localhost" (no_config "localhost" "localhost") true true
        (reset (_get_host_agent built_in "localhost" (no_config "localhost" "localhost")
                  true true new_process).1)
      = (p2, Ok h2)).
Proof.
  destruct (registry_identity built_in "localhost" (no_config "localhost" "localhost")
              true true new_process
              (_get_host_agent built_in "localhost" (no_config "localhost" "localhost")
                 true true new_process).1
              {| host_alias := "localhost"; _host_agent := 0;
                 host_task_engine := Some (Some 1);
                 host_workflow_engine := Some (Some 2) |} 1)
    as (Hsame & _ & _ & _ & Hret).
  - apply new_process_consistent.
  - reflexivity.
  - reflexivity.
  - split.
    + apply (Hsame (no_config "localhost" "localhost") true true).
    + apply (Hret (no_config "localhost" "localhost") true true); reflexivity.
Defined.

(** C9.  An agent may be made without a task engine: a plugin named by
    [queue_type] that brings a workflow engine only leaves [_task_engine]
    set to [None] ([_get_task_and_workflow_engine] raises only when both
    engines are missing, and [_get_host_agent] starts the task engine
    only when it is not [None]).  After a lookup has returned such an
    agent, every further lookup of the alias raises [AttributeError], on
    [None._is_stopped], and leaves the process as it is: two successive
    lookups of the alias do not return the same agent. *)
Theorem lookup_fails_without_task_engine
    (pl : Plugins) (alias : string) (config : Config)
    (start_engine test_connection : bool) (p p1 : Process) (h1 : Host) :
  _get_host_agent pl alias config start_engine test_connection p = (p1, Ok h1) ->
  host_task_engine h1 = Some None ->
  forall config' start' test',
    _get_host_agent pl alias config' start' test' p1 = (p1, Raise AttributeError).
Proof.
  intros Hlook Hnone config' start' test'.
  destruct (lookup_returns pl _ _ _ _ _ _ _ Hlook)
    as (Hreg & (ag & Hag & Hte & _) & _).
  unfold _get_host_agent, to_build. rewrite Hreg, Hag, <- Hte, Hnone.
  reflexivity.
Qed.

Lemma lookup_fails_without_task_engine_witness :
  _get_host_agent workflow_only "q" queue_config false true
    (_get_host_agent workflow_only "q" queue_config true true new_process).1
  = ((_get_host_agent workflow_only "q" queue_config true true new_process).1,
     Raise AttributeError).
Proof.
  apply (lookup_fails_without_task_engine workflow_only "q" queue_config true true
           new_process
           (_get_host_agent workflow_only "q" queue_config true true new_process).1
           {| host_alias := "q"; _host_agent := 0;
              host_task_engine := Some None;
              host_workflow_engine := Some (Some 1) |}).
  - reflexivity.
  - reflexivity.
Defined.

(** Where the agent has no task engine, because the plugin named by
    [queue_type] brings only a workflow engine, the first lookup returns
    and the second fails on [None._is_stopped]. *)
Lemma lookup_without_task_engine :
  exists p1 h1,
    _get_host_agent workflow_only "q" queue_config true true new_process = (p1, Ok h1)
    /\ host_task_engine h1 = Some None
    /\ (_get_host_agent workflow_only "q" queue_config true true p1).2
       = Raise AttributeError.
Proof. eexists _, _. repeat split. Qed.

(** A cached socket that answers, but not ["yes"], fails the assertion of
    [_test_tunneled_socket]; the helper is not started. *)
Lemma cached_socket_other_reply :
  connect_to_server (posix_world plain_fs) confused_channel 6
    (with_socket (remote_host "r" [] []) 7) []
  = ([SendAlive 7; Poll 7 1000], Raise AssertionError).
Proof. reflexivity. Qed.

(** A new socket that answers, but not ["yes"], fails the assertion of
    [_create_tunneled_socket] at once: no further socket is opened. *)
Lemma new_socket_other_reply :
  outcome (connect_to_server (posix_world plain_fs) rude_channel 6
             (remote_host "r" [] []))
  = Raise AssertionError
  /\ steps (effects (connect_to_server (posix_world plain_fs) rude_channel 6
                       (remote_host "r" [] [])))
     = [helper_spawned (posix_world plain_fs) (remote_host "r" [] []);
        tunnel (posix_world plain_fs) (remote_host "r" [] []) 100].
Proof. split; reflexivity. Qed.

(** Where a key of the path map does not exist locally, the working
    directory cannot be mapped for the command line of the helper:
    [run_command] raises a [ValueError], no helper is spawned and no
    socket is opened. *)
Lemma helper_not_started_on_missing_key :
  (exists msg,
      outcome (connect_to_server (posix_world plain_fs) silent_channel 6 stale_host)
      = Raise (ValueError msg))
  /\ steps (effects (connect_to_server (posix_world plain_fs) silent_channel 6
                       stale_host))
     = [].
Proof. split; [eexists|]; reflexivity. Qed.

(** ** Dicts: assignment and lookup *)

Section DictFacts.
Context {K V : Type} `{EqDecision K}.

Lemma dict_get_set_eq (d : list (K * V)) (k : K) (v : V) :
  dict_get (dict_set d k v) k = Some v.
Proof.
  induction d as [|[k' v'] d IH]; cbn.
  - by rewrite decide_True.
  - destruct (decide (k' = k)) as [->|Hne]; cbn.
    + by rewrite decide_True.
    + by rewrite decide_False.
Qed.

Lemma dict_get_set_ne (d : list (K * V)) (k k' : K) (v : V) :
  k <> k' -> dict_get (dict_set d k v) k' = dict_get d k'.
Proof.
  intros Hne. induction d as [|[k0 v0] d IH]; cbn.
  - by rewrite decide_False.
  - destruct (decide (k0 = k)) as [->|Hne0]; cbn.
    + by rewrite !decide_False.
    + destruct (decide (k0 = k')); [reflexivity | exact IH].
Qed.

Lemma dict_keys_set (d : list (K * V)) (k : K) (v : V) :
  dict_keys (dict_set d k v)
  = if decide (k ∈ dict_keys d) then dict_keys d else dict_keys d ++ [k].
Proof.
  induction d as [|[k0 v0] d IH]; cbn.
  - rewrite decide_False; [reflexivity | apply not_elem_of_nil].
  - destruct (decide (k0 = k)) as [->|Hne]; cbn.
    + rewrite decide_True; [reflexivity | by left].
    + unfold dict_keys in IH. rewrite IH.
      destruct (decide (k ∈ map fst d)) as [Hin|Hnot].
      * rewrite decide_True; [reflexivity | by right].
      * rewrite decide_False; [reflexivity|].
        intros [?|?]%elem_of_cons; [congruence | done].
Qed.

Lemma dict_set_nodup (d : list (K * V)) (k : K) (v : V) :
  List.NoDup (dict_keys d) -> List.NoDup (dict_keys (dict_set d k v)).
Proof.
  intros Hd. rewrite dict_keys_set. destruct (decide _) as [|Hnot]; [done|].
  apply NoDup_ListNoDup, NoDup_app. apply NoDup_ListNoDup in Hd.
  split; [done|]. split; [|apply NoDup_singleton].
  by intros x Hx ->%list_elem_of_singleton.
Qed.

Lemma dict_update_nodup (pairs : list (K * V)) : forall d,
  List.NoDup (dict_keys d) -> List.NoDup (dict_keys (dict_update d pairs)).
Proof.
  induction pairs as [|[k v] pairs IH]; intros d Hd; [exact Hd|].
  apply IH. by apply dict_set_nodup.
Qed.

Lemma dict_get_update (pairs : list (K * V)) : forall d k,
  dict_get (dict_update d pairs) k
  = match dict_get (rev pairs) k with
    | Some v => Some v
    | None => dict_get d k
    end.
Proof.
  induction pairs as [|[k0 v0] pairs IH]; intros d k; [reflexivity|].
  change (dict_update d ((k0, v0) :: pairs))
    with (dict_update (dict_set d k0 v0) pairs).
  rewrite IH. cbn [rev].
  assert (forall l : list (K * V),
    dict_get (l ++ [(k0, v0)]) k
    = match dict_get l k with
      | Some v => Some v
      | None => if decide (k0 = k) then Some v0 else None
      end) as Happ.
  { induction l as [|[k1 v1] l IHl]; cbn; [reflexivity|].
    destruct (decide (k1 = k)); [reflexivity | exact IHl]. }
  rewrite Happ. destruct (dict_get (rev pairs) k); [reflexivity|].
  destruct (decide (k0 = k)) as [->|Hne].
  - apply dict_get_set_eq.
  - by apply dict_get_set_ne.
Qed.
End DictFacts.

(** ** More on the path map of the configuration *)

(** X1.  A [path_map] list whose entries each hold the separator exactly
    once parses to a dict in which no local prefix occurs twice, and in
    which a local prefix given by several entries keeps the remote prefix
    of the last of them. *)
Theorem path_map_last_entry_wins (config : Config) (entries : list string) :
  cfg_path_map config = Some (PMList entries) ->
  Forall (fun v => Py.count arrow v = 1) entries ->
  exists pairs pm,
    entries_pairs entries pairs
    /\ _get_path_map config = Ok pm
    /\ List.NoDup (dict_keys pm)
    /\ forall k, dict_get pm k = dict_get (rev pairs) k.
Proof.
  intros Hc Hall.
  destruct (parse_all_well_formed entries Hall []) as (pairs & Hpairs & Hparse).
  rewrite <- (_get_path_map_list config entries Hc) in Hparse.
  exists pairs, (dict_update [] pairs). repeat split; try done.
  - apply dict_update_nodup. constructor.
  - intros k. rewrite dict_get_update. by destruct (dict_get (rev pairs) k).
Qed.

Lemma path_map_last_entry_wins_witness :
  exists pairs pm,
    entries_pairs ["/a -> /x"; "/b -> /y"; "/a -> /z"] pairs
    /\ _get_path_map (path_map_config (PMList ["/a -> /x"; "/b -> /y"; "/a -> /z"]))
       = Ok pm
    /\ List.NoDup (dict_keys pm)
    /\ forall k, dict_get pm k = dict_get (rev pairs) k.
Proof.
  apply path_map_last_entry_wins; [reflexivity|]. repeat constructor.
Defined.

(** ** More on mapping paths *)

(** X2.  A local path that no key of the path map covers is returned in
    its absolute, user-expanded form with backslashes turned into slashes;
    one debug record is logged and nothing is raised. *)
Theorem map_var_uncovered
    (fs : FileSystem) (self : RemoteHost) (p : string) (t : trace) :
  Py.startswith p "#" = false ->
  stat fs (getcwd fs) <> None ->
  (forall k, In k (dict_keys (path_map self)) -> stat fs k <> None) ->
  ~ covered fs self p ->
  _map_var fs self (Atom (AStr p)) t
  = (t ++ [Log Debug [T "Path "; V (Atom (AStr p));
                      T " is not under any specified paths of localhost and is mapped to ";
                      V (Atom (AStr (local_form fs p))); T " on remote host."]],
     Ok (Atom (AStr (Py.replace "\" "/" (local_form fs p))))).
Proof.
  intros Hp Hcwd Hkeys Hnot. cbn [_map_var map_var_atom]. rewrite Hp.
  unfold map_local, bind, lift.
  rewrite (cwd_spelling_ok fs p Hcwd), (matched_keys_ok fs _ _ Hkeys).
  assert (List.filter
            (fun k => same_fileb fs (Py.take (String.length k) (local_form fs p)) k)
            (dict_keys (path_map self)) = []) as ->.
  { destruct (List.filter _ _) as [|k l] eqn:Hf; [reflexivity|]. exfalso.
    assert (In k (k :: l)) as Hin by (by left). rewrite <- Hf in Hin.
    apply filter_In in Hin as [Hk Hs]. apply Hnot. exists k.
    split; [exact Hk | by apply same_fileb_spec]. }
  reflexivity.
Qed.

Lemma map_var_uncovered_witness :
  _map_var plain_fs (remote_host "r" [] [("/a", "/x")]) (Atom (AStr "/w/f.txt")) []
  = ([Log Debug [T "Path "; V (Atom (AStr "/w/f.txt"));
                 T " is not under any specified paths of localhost and is mapped to ";
                 V (Atom (AStr (local_form plain_fs "/w/f.txt"))); T " on remote host."]],
     Ok (Atom (AStr (Py.replace "\" "/" (local_form plain_fs "/w/f.txt"))))).
Proof.
  apply (map_var_uncovered plain_fs (remote_host "r" [] [("/a", "/x")]) "/w/f.txt" []).
  - reflexivity.
  - discriminate.
  - intros k [<-|[]]. discriminate.
  - intros (k & [<-|[]] & i & Hi & Hk). vm_compute in Hi, Hk. congruence.
Defined.

Lemma matched_keys_missing (fs : FileSystem) (dest k : string)
    (before after : list string) :
  (forall k', In k' before -> stat fs k' <> None) ->
  stat fs k = None ->
  stat fs (Py.take (String.length k) dest) <> None ->
  matched_keys fs dest (before ++ k :: after) = Raise (FileNotFoundError k).
Proof.
  intros Hbefore Hk Hseg.
  induction before as [|b before IH]; cbn [app matched_keys].
  - unfold exists_and_samefile, exists_, samefile.
    destruct (stat fs (Py.take (String.length k) dest)); [|congruence].
    by rewrite Hk.
  - rewrite exists_and_samefile_ok by (apply Hbefore; by left). cbn [rbind].
    rewrite IH; [reflexivity|]. intros k' Hin. apply Hbefore. by right.
Qed.

(** X3.  A key of the path map that does not exist locally makes
    [_map_var] raise [FileNotFoundError] for that key, whenever the keys
    before it exist and the leading segment of the path of the key's
    length does exist: [os.path.samefile] stats both of its arguments. *)
Theorem map_var_missing_key
    (fs : FileSystem) (self : RemoteHost) (p k : string)
    (before after : list string) :
  Py.startswith p "#" = false ->
  stat fs (getcwd fs) <> None ->
  dict_keys (path_map self) = before ++ k :: after ->
  (forall k', In k' before -> stat fs k' <> None) ->
  stat fs k = None ->
  stat fs (Py.take (String.length k) (local_form fs p)) <> None ->
  mapped fs self p = Raise (FileNotFoundError k).
Proof.
  intros Hp Hcwd Hkeys Hbefore Hk Hseg.
  unfold mapped, outcome. cbn [_map_var map_var_atom]. rewrite Hp.
  unfold map_local, bind, lift. rewrite (cwd_spelling_ok fs p Hcwd), Hkeys.
  by rewrite (matched_keys_missing fs _ k before after Hbefore Hk Hseg).
Qed.

Lemma map_var_missing_key_witness :
  mapped plain_fs stale_host "/a/b/c.txt" = Raise (FileNotFoundError "/gone").
Proof.
  apply (map_var_missing_key plain_fs stale_host "/a/b/c.txt" "/gone" ["/a"] []).
  - reflexivity.
  - discriminate.
  - reflexivity.
  - intros k' [<-|[]]. discriminate.
  - reflexivity.
  - discriminate.
Defined.

Lemma replace_is_free (a b : ascii) (s : string) :
  a <> b -> free_of a (Py.replace a b s).
Proof.
  intros Hab. induction s as [|c s IH]; cbn; [exact I|]. split; [|exact IH].
  destruct (Ascii.eqb_spec c a); congruence.
Qed.

(** X4.  Whatever string [_map_var] returns for a string that is not a
    named path, and whatever string [_reverse_map_var] returns for a
    string, holds no backslash. *)
Theorem mapped_paths_have_no_backslash :
  (forall (fs : FileSystem) (self : RemoteHost) (p q : string),
      Py.startswith p "#" = false ->
      mapped fs self p = Ok (Atom (AStr q)) -> free_of "\" q)
  /\ (forall (self : RemoteHost) (p q : string),
      reverse_mapped self p = Ok (Atom (AStr q)) -> free_of "\" q).
Proof.
  split.
  - intros fs self p q Hp. unfold mapped, outcome.
    cbn [_map_var map_var_atom]. rewrite Hp. unfold map_local, bind, lift.
    destruct (cwd_spelling fs _) as [dest|]; [|discriminate].
    destruct (matched_keys fs dest _) as [matched|]; [|discriminate].
    destruct (Py.max_len matched) as [k|].
    + destruct (dict_get (path_map self) k) as [r|]; [|discriminate].
      intros [= <-]. by apply replace_is_free.
    + intros [= <-]. by apply replace_is_free.
  - intros self p q. rewrite reverse_mapped_reading.
    destruct (Py.max_len _) as [k|].
    + destruct (dict_get (path_map self) k) as [r|]; [|discriminate].
      intros [= <-]. by apply replace_is_free.
    + intros [= <-]. by apply replace_is_free.
Qed.

Lemma mapped_paths_have_no_backslash_witness :
  free_of "\" "/x/c/d" /\ free_of "\" "/a/c/d".
Proof.
  destruct mapped_paths_have_no_backslash as [Hmap Hrev]. split.
  - apply (Hmap plain_fs (remote_host "r" [] [("/a", "/x")]) "/a/c\d" "/x/c/d");
      reflexivity.
  - apply (Hrev (remote_host "r" [] [("/a", "/x")]) "/x/c\d" "/a/c/d"). reflexivity.
Defined.

Lemma debug_only_app (t t' : trace) :
  debug_only t -> debug_only t' -> debug_only (t ++ t').
Proof. unfold debug_only. rewrite Forall_app. tauto. Qed.

Lemma debug_only_one (msg : fstring) : debug_only [Log Debug msg].
Proof. constructor; [eauto | constructor]. Qed.

Section ReverseQuiet.
Variable self : RemoteHost.

Lemma reverse_local_quiet (s : string) :
  exists logs, debug_only logs /\ forall t,
    reverse_local (path_map self) s t = (t ++ logs, Ok (reverse_string self s)).
Proof.
  unfold reverse_local, reverse_string, bind.
  destruct (Py.max_len _) as [k|] eqn:Hmax.
  - assert (In k (dict_keys (path_map self))) as Hk.
    { destruct (reverse_matched _ _) as [|x l] eqn:Hf; [discriminate|].
      destruct (max_len_spec (x :: l)) as (k' & Hk' & Hin & _); [discriminate|].
      rewrite Hmax in Hk'. injection Hk' as <-. rewrite <- Hf in Hin.
      unfold reverse_matched in Hin. apply in_map_iff in Hin as ([l0 r0] & <- & Hin).
      apply filter_In in Hin as [Hin _]. apply in_map_iff. by exists (l0, r0). }
    destruct (dict_get_key _ _ Hk) as (r & -> & _).
    exists []. split; [constructor|]. intros t. unfold ret. by rewrite app_nil_r.
  - eexists [Log Debug _]. split; [apply debug_only_one|]. intros t. reflexivity.
Qed.

Lemma reverse_atom_quiet (a : atom) :
  exists logs, debug_only logs /\ forall t,
    reverse_map_var_atom self a t = (t ++ logs, Ok (reverse_atom self a)).
Proof.
  destruct a as [s|s|z| |r]; cbn [reverse_map_var_atom reverse_atom].
  1,2: destruct (reverse_local_quiet s) as (logs & Hq & H); exists logs;
       split; [exact Hq|]; intros t; unfold bind; rewrite H; reflexivity.
  all: eexists [Log Debug _]; split; [apply debug_only_one|]; intros t; reflexivity.
Qed.

Lemma reverse_atoms_quiet (l : list atom) :
  exists logs, debug_only logs /\ forall t,
    map_m (reverse_map_var_atom self) l t
    = (t ++ logs, Ok (map (reverse_atom self) l)).
Proof.
  induction l as [|a l (logs & Hq & IH)].
  - exists []. split; [constructor|]. intros t. cbn. by rewrite app_nil_r.
  - destruct (reverse_atom_quiet a) as (la & Hqa & Ha).
    exists (la ++ logs). split; [by apply debug_only_app|].
    intros t. cbn [map_m map]. unfold bind.
    rewrite Ha, IH. unfold ret. by rewrite app_assoc.
Qed.

(** X5.  On a value without nesting (a string, a path, another atom, a
    set, or a list of these) [_reverse_map_var] does not raise: after
    every history it returns, having added debug records and nothing else
    to the history.  Strings and paths come back as strings, other atoms
    unchanged, and a list or set as the list of what its members come back
    as, without those that are [None]. *)
Theorem reverse_map_var_flat (v : pyval) :
  flat v = true ->
  exists logs, debug_only logs /\ forall t,
    _reverse_map_var self v t = (t ++ logs, Ok (reverse_value self v)).
Proof.
  destruct v as [a|l|l]; intros Hflat.
  - apply reverse_atom_quiet.
  - cbn [_reverse_map_var reverse_value].
    assert (exists logs, debug_only logs /\ forall t,
      (fix each (l : list pyval) : M (list pyval) :=
         match l with
         | [] => ret []
         | x :: l' => y <- _reverse_map_var self x ;; ys <- each l' ;; ret (y :: ys)
         end) l t = (t ++ logs, Ok (map (reverse_value self) l)))
      as (logs & Hq & Hl).
    { cbn [flat] in Hflat. induction l as [|x l IH].
      - exists []. split; [constructor|]. intros t. cbn. by rewrite app_nil_r.
      - cbn [forallb] in Hflat. apply andb_true_iff in Hflat as [Hx Hrest].
        destruct x as [a| |]; try discriminate.
        destruct (reverse_atom_quiet a) as (lx & Hqx & Hxrun).
        destruct (IH Hrest) as (logs & Hq & IHrun).
        exists (lx ++ logs). split; [by apply debug_only_app|].
        intros t. cbn [map]. unfold bind.
        cbn [_reverse_map_var]. rewrite Hxrun, IHrun. unfold ret.
        by rewrite app_assoc. }
    exists logs. split; [exact Hq|]. intros t. unfold bind. rewrite Hl. reflexivity.
  - cbn [_reverse_map_var reverse_value].
    destruct (reverse_atoms_quiet l) as (logs & Hq & Hl).
    exists logs. split; [exact Hq|]. intros t. unfold bind. rewrite Hl. reflexivity.
Qed.
End ReverseQuiet.

Lemma reverse_map_var_flat_witness :
  exists logs, debug_only logs /\ forall t,
    _reverse_map_var result_host
      (Seq [Atom (AStr "/x/out.txt"); Atom ANone; Atom (APath "/elsewhere/f")]) t
    = (t ++ logs,
       Ok (reverse_value result_host
             (Seq [Atom (AStr "/x/out.txt"); Atom ANone; Atom (APath "/elsewhere/f")]))).
Proof.
  apply (reverse_map_var_flat result_host
           (Seq [Atom (AStr "/x/out.txt"); Atom ANone; Atom (APath "/elsewhere/f")])).
  reflexivity.
Defined.

Lemma get_append (r rest : string) :
  String.get (String.length r) (r +:+ rest)
  = match rest with EmptyString => None | String c _ => Some c end.
Proof. induction r as [|x r IH]; cbn; [by destruct rest | exact IH]. Qed.

Lemma on_boundary_append (r rest : string) :
  on_boundary r (r +:+ rest) = true
  <-> rest = ""
      \/ Py.endswith r "/" = true
      \/ Py.endswith r "\" = true
      \/ exists rest', rest = String "/" rest' \/ rest = String "\" rest'.
Proof.
  unfold on_boundary. rewrite get_append, length_append, !orb_true_iff.
  split.
  - intros [[[Hlen|?]|?]|Hget]; eauto.
    + left. apply Nat.eqb_eq in Hlen. destruct rest; [reflexivity | cbn in Hlen; lia].
    + destruct rest as [|c rest']; [discriminate|].
      apply orb_true_iff in Hget as [->%Ascii.eqb_eq| ->%Ascii.eqb_eq]; eauto 10.
  - intros [->|[?|[?|(rest' & [->| ->])]]]; eauto.
    left. left. left. cbn. apply Nat.eqb_eq. lia.
Qed.

Lemma reverse_matched_iff (pm : list (string * string)) (dest l : string) :
  In l (reverse_matched pm dest)
  <-> exists r, In (l, r) pm /\ starts_on_boundary r dest.
Proof.
  unfold reverse_matched, starts_on_boundary. rewrite in_map_iff. split.
  - intros ([l0 r] & <- & [Hin Hm]%filter_In). cbn in *.
    apply andb_true_iff in Hm as [Hs Hb].
    apply startswith_iff in Hs as [rest ->].
    exists r. split; [exact Hin|]. exists rest. split; [reflexivity|].
    by apply on_boundary_append.
  - intros (r & Hin & rest & -> & Hb). exists (l, r). split; [reflexivity|].
    apply filter_In. split; [exact Hin|]. cbn. apply andb_true_iff. split.
    + apply startswith_iff. eauto.
    + by apply on_boundary_append.
Qed.

Lemma dict_get_in {V} (d : list (string * V)) (k : string) (v : V) :
  dict_get d k = Some v -> In (k, v) d.
Proof.
  induction d as [|[k' v'] d IH]; cbn [dict_get]; [discriminate|].
  case_decide; [intros [= <-]; subst; by left | intros Hget; right; by apply IH].
Qed.

(** X6.  What [_reverse_map_var] returns for a string depends only on
    the entries whose remote prefix starts the string on a separator
    boundary.  When there is none, the string comes back as it is but
    for its backslashes: a remote prefix [/r] has no part in the mapping
    of [/rx/f].  When [l], with remote prefix [r], is longer than the
    local prefix of every other such entry, the string [r] followed by
    [rest] comes back as [l] followed by [rest]. *)
Theorem reverse_map_respects_boundary (self : RemoteHost) (dest : string) :
  ((forall l r, In (l, r) (path_map self) -> ~ starts_on_boundary r dest) ->
   reverse_mapped self dest = Ok (Atom (AStr (Py.replace "\" "/" dest))))
  /\ (forall l r rest,
        dict_get (path_map self) l = Some r ->
        dest = r +:+ rest ->
        starts_on_boundary r dest ->
        (forall l' r', In (l', r') (path_map self) ->
           starts_on_boundary r' dest ->
           l' = l \/ String.length l' < String.length l) ->
        reverse_mapped self dest
        = Ok (Atom (AStr (Py.replace "\" "/" (l +:+ rest))))).
Proof.
  split.
  - intros Hnone. rewrite reverse_mapped_reading.
    destruct (reverse_matched (path_map self) dest) as [|l ls] eqn:Hm;
      [reflexivity|].
    exfalso. assert (In l (reverse_matched (path_map self) dest)) as Hin
      by (rewrite Hm; by left).
    apply reverse_matched_iff in Hin as (r & Hin & Hb). by eapply Hnone.
  - intros l r rest Hget -> Hb Hothers. rewrite reverse_mapped_reading.
    rewrite (max_len_unique _ l).
    + by rewrite Hget, drop_append.
    + apply reverse_matched_iff. exists r. split; [by apply dict_get_in | exact Hb].
    + intros l' (r' & Hin & Hb')%reverse_matched_iff. by eapply Hothers.
Qed.

Lemma reverse_map_respects_boundary_witness :
  reverse_mapped (remote_host "r" [] [("/a", "/r")]) "/rx/f"
  = Ok (Atom (AStr (Py.replace "\" "/" "/rx/f")))
  /\ reverse_mapped (remote_host "r" [] [("/a", "/r")]) ("/r" +:+ "/f")
     = Ok (Atom (AStr (Py.replace "\" "/" ("/a" +:+ "/f")))).
Proof.
  destruct (reverse_map_respects_boundary (remote_host "r" [] [("/a", "/r")]) "/rx/f")
    as [Hnone _].
  destruct (reverse_map_respects_boundary (remote_host "r" [] [("/a", "/r")]) "/r/f")
    as [_ Hone].
  split.
  - apply Hnone. intros l r [[= <- <-]|[]] (rest & Heq & Hb).
    injection Heq as <-.
    destruct Hb as [?|[?|[?|(rest' & [?|?])]]]; discriminate.
  - apply (Hone "/a" "/r" "/f"); try reflexivity.
    + exists "/f". split; [reflexivity|]. right. right. right. exists "f". by left.
    + intros l' r' [[= <- <-]|[]] _. by left.
Defined.

(** ** What a computation adds to the history *)

Section Adds.
Context {A B : Type}.
Variable P : event -> Prop.

Lemma adds_ret (a : A) : adds P (ret a).
Proof. intros t. exists []. cbn. by rewrite app_nil_r. Qed.

Lemma adds_raise (e : exn) : adds P (@raise A e).
Proof. intros t. exists []. cbn. by rewrite app_nil_r. Qed.

Lemma adds_lift (r : result A) : adds P (lift r).
Proof. intros t. exists []. cbn. by rewrite app_nil_r. Qed.

Lemma adds_ask (f : trace -> A) : adds P (ask f).
Proof. intros t. exists []. cbn. by rewrite app_nil_r. Qed.

Lemma adds_emit (e : event) : P e -> adds P (emit e).
Proof. intros He t. exists [e]. cbn. split; [reflexivity | by constructor]. Qed.

Lemma adds_bind (m : M A) (k : A -> M B) :
  adds P m -> (forall a, adds P (k a)) -> adds P (bind m k).
Proof.
  intros Hm Hk t. unfold bind. destruct (Hm t) as (l1 & H1 & F1).
  destruct (m t) as [t1 [a|e]]; cbn in H1; subst t1.
  - destruct (Hk a (t ++ l1)) as (l2 & H2 & F2).
    exists (l1 ++ l2). rewrite H2, app_assoc. split; [reflexivity|].
    apply Forall_app. by split.
  - by exists l1.
Qed.

Lemma adds_catch (m : M A) (h : exn -> M A) :
  adds P m -> (forall e, adds P (h e)) -> adds P (catch m h).
Proof.
  intros Hm Hh t. unfold catch. destruct (Hm t) as (l1 & H1 & F1).
  destruct (m t) as [t1 [a|e]]; cbn in H1; subst t1.
  - by exists l1.
  - destruct (Hh e (t ++ l1)) as (l2 & H2 & F2).
    exists (l1 ++ l2). rewrite H2, app_assoc. split; [reflexivity|].
    apply Forall_app. by split.
Qed.
End Adds.

Lemma adds_when (P : event -> Prop) (b : bool) (m : M unit) :
  adds P m -> adds P (when b m).
Proof. destruct b; [done | intros _; apply adds_ret]. Qed.

Lemma adds_for_each {A} (P : event -> Prop) (l : list A) (body : A -> M unit) :
  (forall x, adds P (body x)) -> adds P (for_each l body).
Proof.
  intros Hb. induction l as [|x l IH]; cbn [for_each].
  - apply adds_ret.
  - apply adds_bind; [apply Hb | intros _; exact IH].
Qed.

Lemma adds_map_m {A B} (P : event -> Prop) (f : A -> M B) (l : list A) :
  (forall x, adds P (f x)) -> adds P (map_m f l).
Proof.
  intros Hf. induction l as [|x l IH]; cbn [map_m].
  - apply adds_ret.
  - apply adds_bind; [apply Hf | intros y].
    apply adds_bind; [exact IH | intros ys; apply adds_ret].
Qed.

Lemma adds_weaken {A} (P Q : event -> Prop) (m : M A) :
  (forall e, P e -> Q e) -> adds P m -> adds Q m.
Proof.
  intros HPQ Hm t. destruct (Hm t) as (l & H & F).
  exists l. split; [exact H|]. eapply Forall_impl; eauto.
Qed.

(** One step through a computation built from the operations of [M]. *)
Ltac adds_step :=
  lazymatch goal with
  | |- adds _ (ret _) => apply adds_ret
  | |- adds _ (raise _) => apply adds_raise
  | |- adds _ (lift _) => apply adds_lift
  | |- adds _ (ask _) => apply adds_ask
  | |- adds _ (bind _ _) => apply adds_bind; [|intros ?]
  | |- adds _ (catch _ _) => apply adds_catch; [|intros ?]
  | |- adds _ (when _ _) => apply adds_when
  | |- adds _ (for_each _ _) => apply adds_for_each; intros ?
  | |- adds _ (map_m _ _) => apply adds_map_m; intros ?
  | |- adds _ (log _ _) => apply adds_emit
  | |- adds _ (emit _) => apply adds_emit
  | |- adds _ (match ?x with _ => _ end) => destruct x eqn:?
  | |- adds _ (let _ := _ in _) => cbv zeta
  end.

Lemma is_debug_log (msg : fstring) : is_debug (Log Debug msg).
Proof. by exists msg. Qed.

#[local] Hint Resolve is_debug_log : core.

(** ** Mapping is quiet *)

Section QuietMapping.
Variable fs : FileSystem.
Variable self : RemoteHost.

Lemma map_local_quiet (pm : list (string * string)) (s : string) :
  adds is_debug (map_local fs pm s).
Proof. unfold map_local. repeat adds_step; auto. Qed.

Lemma map_var_atom_quiet (a : atom) : adds is_debug (map_var_atom fs self a).
Proof.
  destruct a; cbn [map_var_atom]; repeat adds_step; auto using map_local_quiet.
Qed.

Lemma _map_var_quiet (v : pyval) : adds is_debug (_map_var fs self v).
Proof.
  induction v as [a|l IH|l] using pyval_nested_ind; cbn [_map_var].
  - apply map_var_atom_quiet.
  - adds_step; [|adds_step].
    induction IH as [|x l Hx _ IH]; repeat adds_step; auto.
  - repeat adds_step. apply map_var_atom_quiet.
Qed.

Lemma _map_path_quiet (v : pyval) : adds is_debug (_map_path fs self v).
Proof.
  induction v as [a|l IH|l] using pyval_nested_ind; cbn [_map_path].
  - destruct a; repeat adds_step; auto using map_local_quiet.
  - generalize (@nil (atom * atom)).
    induction IH as [|x l Hx _ IH]; intros acc; repeat adds_step; auto.
  - repeat adds_step; auto.
Qed.

Lemma _remote_abs_quiet (a : atom) : adds is_debug (_remote_abs fs self a).
Proof.
  unfold _remote_abs. repeat adds_step; auto using _map_var_quiet.
Qed.

(** X7.  Mapping runs no command: whatever the value and whether they
    return or raise, [_map_var], [_map_path] and [_remote_abs] leave the
    history as it was but for debug records added to it. *)
Theorem mapping_only_logs (v : pyval) (a : atom) :
  adds is_debug (_map_var fs self v)
  /\ adds is_debug (_map_path fs self v)
  /\ adds is_debug (_remote_abs fs self a).
Proof.
  split; [apply _map_var_quiet|]. split; [apply _map_path_quiet|].
  apply _remote_abs_quiet.
Qed.
End QuietMapping.

(** ** Staging: what is copied *)

Section StagingFacts.
Variable w : World.
Variable self : RemoteHost.

Lemma debug_sends (e : event) : is_debug e -> sends w self e.
Proof. by intros [msg ->]. Qed.

Lemma debug_receives (e : event) : is_debug e -> receives w self e.
Proof. by intros [msg ->]. Qed.

Lemma send_one_sends (sending : list (atom * atom)) (source : atom) :
  adds (sends w self) (send_one w self sending source).
Proof.
  unfold send_one, log_task. repeat adds_step; try exact I.
  - apply (adds_weaken is_debug); [apply debug_sends | apply _remote_abs_quiet].
  - cbn. repeat split. by exists (str source).
Qed.

Lemma send_all_sends (sending : list (atom * atom)) (sources : list atom) :
  forall sent, adds (sends w self) (send_all w self sending sources sent).
Proof.
  induction sources as [|source sources IH]; intros sent; cbn [send_all].
  - apply adds_ret.
  - adds_step; [apply send_one_sends | apply IH].
Qed.

(** X8.  Whatever it is given, [send_to_host] runs no command but copies
    to the address and port of its host, with the output discarded, and
    copies no source that is on a shared file system; apart from these
    copies it only writes records. *)
Theorem send_to_host_copies_unshared (items : pyval) :
  adds (sends w self) (send_to_host w self items).
Proof.
  assert (forall p, adds (sends w self)
    (new_items <- map_m (fun item =>
                   let links := find_symbolic_links w item in
                   for_each links (fun lr =>
                     log Info [T "Adding "; S_ lr.2; T " for symbolic link "; S_ lr.1]) ;;
                   ret (map snd links)) (concat (map (glob_parent w) p)) ;;
     sending <- _map_path w self
                  (Seq (map (fun i => Atom (APath i))
                          (concat (map (glob_parent w) p) ++ concat new_items))) ;;
     sources <- lift (sorted_keys (dict_keys sending)) ;;
     send_all w self sending sources [])) as Htransfer.
  { intros p. repeat adds_step; try exact I.
    - apply (adds_weaken is_debug); [apply debug_sends | apply _map_path_quiet].
    - apply send_all_sends. }
  unfold send_to_host. destruct items as [[s|s|z| |r]|l|l];
    try apply Htransfer.
  4: { apply adds_bind; [|intros _; apply Htransfer].
       apply adds_when, adds_emit. exact I. }
  all: repeat adds_step; exact I.
Qed.

Lemma receive_one_receives (receiving : list (string * string)) (source : string) :
  adds (receives w self) (receive_one w self receiving source).
Proof.
  unfold receive_one, log_task. repeat adds_step; try exact I.
  cbn. repeat split.
  destruct (is_shared w self s) eqn:Hs; [right | by left].
  match goal with H : _ && _ = false |- _ => cbn in H; by rewrite H end.
Qed.

Lemma receive_all_receives (receiving : list (string * string))
    (sources : list string) :
  forall received,
    adds (receives w self) (receive_all w self receiving sources received).
Proof.
  induction sources as [|source sources IH]; intros received; cbn [receive_all].
  - apply adds_ret.
  - adds_step; [apply receive_one_receives | apply IH].
Qed.

Lemma receiving_of_receives (mapped : list (atom * atom)) :
  forall acc, adds (receives w self) (receiving_of w self mapped acc).
Proof.
  induction mapped as [|[x y] mapped IH]; intros acc; cbn [receiving_of].
  - apply adds_ret.
  - adds_step; [|apply IH].
    apply (adds_weaken is_debug); [apply debug_receives | apply _remote_abs_quiet].
Qed.

(** X9.  Whatever it is given, [receive_from_host] runs no command but
    copies from the address and port of its host, with the output
    discarded; a destination on a shared file system is copied only when
    the file has another name on the host; apart from these copies it
    only writes records and makes directories. *)
Theorem receive_from_host_copies (items : pyval) :
  adds (receives w self) (receive_from_host w self items).
Proof.
  assert (forall l, adds (receives w self)
    (mapped <- _map_path w self (Seq l) ;;
     receiving <- receiving_of w self mapped [] ;;
     receive_all w self receiving (Py.sorted String.leb (dict_keys receiving)) []))
    as Htransfer.
  { intros l. repeat adds_step.
    - apply (adds_weaken is_debug); [apply debug_receives | apply _map_path_quiet].
    - apply receiving_of_receives.
    - apply receive_all_receives. }
  unfold receive_from_host. destruct items as [[s|s|z| |r]|l|l];
    try apply Htransfer.
  4: { apply adds_bind; [|intros _; apply Htransfer].
       apply adds_when, adds_emit. exact I. }
  all: repeat adds_step; exact I.
Qed.
End StagingFacts.

(** ** Preparing a task *)

Lemma emit_run (e : event) (t : trace) : emit e t = (t ++ [e], Ok tt).
Proof. reflexivity. Qed.

Lemma send_job_file_ok (w : World) (self : RemoteHost) (job_file : string)
    (t t' : trace) :
  send_job_file w self job_file t = (t', Ok tt) ->
  let cmd := SendJobCmd job_file "tasks" (address self) (port self) in
  t' = t ++ [Call cmd false] /\ call w t cmd = 0%Z.
Proof.
  unfold send_job_file, bind, ask, emit. cbn.
  destruct (Z.eqb_spec (call w t (SendJobCmd job_file "tasks" (address self) (port self))) 0)
    as [Hz|Hz]; cbn; [|discriminate].
  intros [= <-]. by split.
Qed.

(** X10.  [RemoteHost.prepare_task] never raises.  When it returns
    [True], the task file was loaded and the last three things it did
    were: to store the runtime of the task (the task's own verbosity,
    signature and run mode, wall time, cores and memory; as working
    directory that of the task or else the named path of the current
    one; the ceilings of the host, the wall time formatted; the local
    host's record and the entry of the task), to set the task's status
    to [pending], and to copy the job file to the host, and that copy
    succeeded.  When it returns [False], [_prepare_task] raised and the
    last thing it did was to log that exception as an error. *)
Theorem remote_prepare_task_returns
    (w : World) (self : RemoteHost) (task_id : string) (t : trace) :
  exists t' b,
    prepare_task w self task_id t = (t', Ok b)
    /\ if b
       then exists t0 params workdir max_walltime,
              let cmd := SendJobCmd (task_file_of w task_id) "tasks"
                           (address self) (port self) in
              let written :=
                [SetRuntime task_id
                   (stored (config self) (_runtime (sos_dict params)) workdir
                      max_walltime true);
                 SetStatus task_id "pending"] in
              task_params w t task_id = Ok params
              /\ match rt_workdir (_runtime (sos_dict params)) with
                 | Some wd => workdir = wd
                 | None => cwd_named_path w = Ok workdir
                 end
              /\ stored_max_walltime w (config self) = Ok max_walltime
              /\ t' = t0 ++ written ++ [Call cmd false]
              /\ call w (t0 ++ written) cmd = 0%Z
       else exists t0 e,
              _prepare_task w self task_id t = (t0, Raise e)
              /\ t' = t0 ++ [Log Error (str_exn e)].
Proof.
  unfold prepare_task, catch.
  destruct (bind (_prepare_task w self task_id) (fun _ => ret true) t)
    as [t1 [b|e]] eqn:Hrun.
  - exists t1, b. split; [reflexivity|].
    bind_inv Hrun. unfold ret in Hrun. injection Hrun as <- <-.
    destruct a. rename Hstep into H. unfold _prepare_task in H.
    bind_inv H. unfold ask in Hstep. injection Hstep as <- <-.
    destruct (negb (isfile_task w t task_id)); [discriminate|].
    bind_inv H. unfold bind, ask, lift in Hstep.
    destruct (task_params w t task_id) as [params|] eqn:Hparams; [|discriminate].
    injection Hstep as <- <-.
    bind_inv H. destruct a as [msg|]; [discriminate|].
    do 3 bind_inv H. bind_inv H. rename a2 into workdir, Hstep3 into Hwd.
    do 2 bind_inv H. bind_inv H. rename a4 into max_walltime, Hstep5 into Hmax.
    bind_inv H. rewrite emit_run in Hstep5. injection Hstep5 as <- _.
    bind_inv H. rewrite emit_run in Hstep5. injection Hstep5 as <- _.
    apply send_job_file_ok in H as [-> Hcall].
    unfold lift in Hmax. injection Hmax as <- Hmax.
    match goal with
    | |- exists _ _ _ _, _ /\ _ /\ _ /\ ((?t0 ++ _) ++ _) ++ _ = _ /\ _ =>
        exists t0, params, workdir, max_walltime
    end.
    cbn zeta. split; [reflexivity|]. split; [|split; [exact Hmax|split]].
    + destruct (rt_workdir (_runtime (sos_dict params))) as [wd|].
      * unfold ret in Hwd. by injection Hwd as _ <-.
      * unfold lift in Hwd. by injection Hwd as _ ->.
    + by rewrite <- !app_assoc.
    + by rewrite <- app_assoc in Hcall.
  - unfold bind in Hrun.
    destruct (_prepare_task w self task_id t) as [t2 [[]|e']] eqn:H;
      [discriminate|].
    injection Hrun as <- <-.
    exists (t2 ++ [Log Error (str_exn e')]), false. split; [reflexivity|].
    by exists t2, e'.
Qed.

Lemma exceeded_within (w : World) (config : Config) (task_id : string)
    (rt : TaskRuntime) :
  (forall limit walltime,
      cfg_max_walltime config = Some limit -> rt_walltime rt = Some walltime ->
      exists a b, expand_time w limit = Ok a /\ expand_time w walltime = Ok b) ->
  ~ over_ceiling w config rt ->
  exceeded w config task_id rt = Ok None.
Proof.
  intros Htime Hnot.
  unfold exceeded, mem_exceeded, cores_exceeded, walltime_exceeded.
  destruct (cfg_max_mem config) as [mm|] eqn:Hmm, (rt_mem rt) as [m|] eqn:Hm;
    try (destruct (Z.ltb_spec mm m);
         [exfalso; apply Hnot; left; by exists mm, m|]);
    (destruct (cfg_max_cores config) as [mc|] eqn:Hmc, (rt_cores rt) as [c|] eqn:Hc;
     try (destruct (Z.ltb_spec mc c);
          [exfalso; apply Hnot; right; left; by exists mc, c|]));
    (destruct (cfg_max_walltime config) as [mw|] eqn:Hmw,
              (rt_walltime rt) as [wt|] eqn:Hwt; try reflexivity;
     destruct (Htime mw wt eq_refl eq_refl) as (a & b & Ha & Hb);
     rewrite Ha, Hb; cbn [rbind];
     destruct (Z.ltb_spec a b); [|reflexivity];
     exfalso; apply Hnot; right; right; by exists mw, wt, a, b).
Qed.

(** X11.  A task whose file is there and loads, and that asks for no more
    than the host allows, is accepted by [LocalHost.prepare_task]: it
    stores the runtime of the task (the task's own verbosity, signature
    and run mode, wall time, cores and memory; as working directory that
    of the task or else the current one; the ceilings of the host, the
    wall time formatted), sets the status to [pending], copies the task
    file unless it is already in its place, and returns [True].  The
    comparisons are strict: a task that asks for exactly the maximum is
    accepted. *)
Theorem local_prepare_task_accepts
    (w : World) (config : Config) (task_id : string) (params : Params)
    (t : trace) :
  isfile_task w t task_id = true ->
  task_params w t task_id = Ok params ->
  (forall limit, cfg_max_walltime config = Some limit ->
                 exists s, format_HHMMSS w limit = Ok s) ->
  (forall limit walltime,
      cfg_max_walltime config = Some limit ->
      rt_walltime (_runtime (sos_dict params)) = Some walltime ->
      exists a b, expand_time w limit = Ok a /\ expand_time w walltime = Ok b) ->
  ~ over_ceiling w config (_runtime (sos_dict params)) ->
  exists max_walltime,
    let task_file := task_file_of w task_id in
    let dest := expanduser w ("~/.sos/tasks/" +:+ basename w task_file) in
    let workdir := default (getcwd w) (rt_workdir (_runtime (sos_dict params))) in
    stored_max_walltime w config = Ok max_walltime
    /\ LocalHost.prepare_task w config task_id t
       = (t ++ [SetRuntime task_id
                  (stored config (_runtime (sos_dict params)) workdir
                     max_walltime false);
                SetStatus task_id "pending"]
            ++ (if String.eqb task_file dest then [] else [Copyfile task_file dest]),
          Ok true).
Proof.
  intros Hfile Hparams Hfmt Htime Hnot.
  pose proof (exceeded_within w config task_id _ Htime Hnot) as Hex.
  unfold LocalHost.prepare_task, bind, ask, lift. rewrite Hfile. cbn [negb].
  rewrite Hparams.
  assert (forall mw,
    (let over := (mw, @None fstring) in
     match over.2 with
     | Some msg => log Error msg ;; ret false
     | None =>
         emit (SetRuntime task_id
                 (stored config (_runtime (sos_dict params))
                    (default (getcwd w) (rt_workdir (_runtime (sos_dict params))))
                    over.1 false)) ;;
         emit (SetStatus task_id "pending") ;;
         LocalHost.send_job_file w (task_file_of w task_id) ;;
         ret true
     end) t
    = (t ++ [SetRuntime task_id
               (stored config (_runtime (sos_dict params))
                  (default (getcwd w) (rt_workdir (_runtime (sos_dict params))))
                  mw false);
             SetStatus task_id "pending"]
         ++ (if String.eqb (task_file_of w task_id)
                  (expanduser w ("~/.sos/tasks/" +:+ basename w (task_file_of w task_id)))
             then [] else [Copyfile (task_file_of w task_id)
                             (expanduser w ("~/.sos/tasks/"
                                            +:+ basename w (task_file_of w task_id)))]),
       Ok true)) as Hrun.
  { intros mw. cbn zeta. cbn [snd fst]. unfold bind, emit, LocalHost.send_job_file, when.
    destruct (String.eqb _ _); cbn [negb]; unfold ret, emit;
      rewrite <- ?app_assoc; cbn [app]; by rewrite ?app_nil_r. }
  destruct (has_limit config) eqn:Hlimit.
  - unfold stored_max_walltime.
    destruct (cfg_max_walltime config) as [limit|] eqn:Hl.
    + destruct (Hfmt limit eq_refl) as (s & ->). cbn [rbind]. rewrite Hex.
      exists (Some s). cbn zeta. split; [reflexivity | apply (Hrun (Some s))].
    + rewrite Hex. exists None. cbn zeta. split; [reflexivity | apply (Hrun None)].
  - exists None. cbn zeta. split; [|apply (Hrun None)].
    unfold stored_max_walltime, has_limit in *.
    destruct (cfg_max_walltime config); [|reflexivity].
    cbn in Hlimit. by rewrite !orb_true_r in Hlimit.
Qed.

Lemma local_prepare_task_accepts_witness :
  exists max_walltime,
    let task_file := task_file_of two_gb_world "t1" in
    let dest := expanduser two_gb_world
                  ("~/.sos/tasks/" +:+ basename two_gb_world task_file) in
    let workdir := default (getcwd two_gb_world)
                     (rt_workdir (_runtime (sos_dict two_gb_params))) in
    stored_max_walltime two_gb_world two_gb_config = Ok max_walltime
    /\ LocalHost.prepare_task two_gb_world two_gb_config "t1" []
       = ([] ++ [SetRuntime "t1"
                   (stored two_gb_config (_runtime (sos_dict two_gb_params)) workdir
                      max_walltime false);
                 SetStatus "t1" "pending"]
             ++ (if String.eqb task_file dest then [] else [Copyfile task_file dest]),
          Ok true).
Proof.
  apply (local_prepare_task_accepts two_gb_world two_gb_config "t1" two_gb_params []).
  - reflexivity.
  - reflexivity.
  - discriminate.
  - discriminate.
  - intros [(mm & m & Hmm & Hm & Hlt)|[(? & ? & H & _)|(? & ? & ? & ? & H & _)]];
      try discriminate.
    injection Hmm as <-. injection Hm as <-. lia.
Defined.

(** ** Retrieving a result: what is copied *)

Lemma adds_ask_bind {A B} (P : event -> Prop) (f : trace -> A) (k : A -> M B) :
  (forall t, adds P (k (f t))) -> adds P (bind (ask f) k).
Proof. intros H t. unfold bind, ask. apply H. Qed.

Lemma for_each_emit {A} (f : A -> event) (l : list A) (t : trace) :
  for_each l (fun x => emit (f x)) t = (t ++ map f l, Ok tt).
Proof.
  revert t. induction l as [|x l IH]; intros t; cbn [for_each map].
  - unfold ret. by rewrite app_nil_r.
  - unfold bind. rewrite emit_run, IH, <- app_assoc. reflexivity.
Qed.

Section ResultFacts.
Variable w : World.
Variable self : RemoteHost.
Variable task_id : string.

Lemma debug_fetches (e : event) : is_debug e -> fetches_result self task_id e.
Proof. by intros [msg ->]. Qed.

Lemma _reverse_map_var_quiet (v : pyval) : adds is_debug (_reverse_map_var self v).
Proof.
  assert (forall s, adds is_debug (reverse_local (path_map self) s)) as Hlocal
    by (intros s; unfold reverse_local; repeat adds_step; auto).
  assert (forall a, adds is_debug (reverse_map_var_atom self a)) as Hatom
    by (intros a; destruct a; cbn [reverse_map_var_atom]; repeat adds_step; auto).
  induction v as [a|l IH|l] using pyval_nested_ind; cbn [_reverse_map_var].
  - apply Hatom.
  - adds_step; [|adds_step].
    induction IH as [|x l Hx _ IH]; repeat adds_step; auto.
  - repeat adds_step. apply Hatom.
Qed.

Lemma translate_output_fetches (msg : string) (declared : option Declared)
    (out : pyval) :
  adds (fetches_result self task_id) (translate_output self msg declared out).
Proof.
  unfold translate_output. repeat adds_step; try exact I.
  apply (adds_weaken is_debug); [apply debug_fetches | apply _reverse_map_var_quiet].
Qed.

Lemma translate_subtasks_fetches (stack : list (string * SosDict)) :
  forall subs,
    adds (fetches_result self task_id) (translate_subtasks self stack subs).
Proof.
  induction stack as [|[tid subparams] stack IH]; intros subs;
    cbn [translate_subtasks].
  - apply adds_ret.
  - destruct (dict_get subs tid) as [[out|]|]; try apply IH.
    adds_step; [apply translate_output_fetches | apply IH].
Qed.

(** X12.  In a dry run, and for a task whose result is missing or is a
    failure, [receive_result] copies nothing but the task files of the
    task: it runs no command to fetch a declared output or a [from_host]
    file, and makes no directory. *)
Theorem receive_result_fetches_no_output :
  dryrun w = true
  \/ (forall t, from_option (failed) true (task_result w t task_id) = true) ->
  adds (fetches_result self task_id) (receive_result w self task_id).
Proof.
  intros Hcase. unfold receive_result, log_task. cbv zeta.
  do 6 (adds_step; [repeat adds_step; by cbn|]).
  adds_step; [repeat adds_step|].
  apply adds_ask_bind. intros t.
  destruct (task_result w t task_id) as [res|] eqn:Hres;
    [|repeat adds_step; exact I].
  destruct (failed res) eqn:Hfailed; [repeat adds_step; exact I|].
  destruct Hcase as [Hdry|Hfail];
    [|specialize (Hfail t); rewrite Hres in Hfail; cbn in Hfail; congruence].
  rewrite Hdry. cbn [negb].
  repeat adds_step; try exact I;
    try (match goal with
         | H : _ && false = true |- _ => by rewrite andb_false_r in H
         end);
    auto using translate_output_fetches, translate_subtasks_fetches.
Qed.

(** X13.  When the copy of the task files fails, [receive_result] runs it
    once more, this time with its output shown; when that fails too it
    raises a [RuntimeError] without having read the task file. *)
Theorem receive_result_gives_up_after_two_copies (t : trace) :
  let cmd := ScpResultCmd task_id (address self) (port self) in
  (forall t', call w t' cmd <> 0%Z) ->
  receive_result w self task_id t
  = (t ++ map Chmod (readonly_task_files w t task_id)
       ++ (if debug_task w then [LogToFile "TASK" [C cmd]] else [])
       ++ [Call cmd true; Call cmd false],
     Raise (RuntimeError [T "Failed to retrieve result of job "; S_ task_id;
                          T " from "; S_ (alias self);
                          T (" with cmd" +:+ String "010" ""); C cmd])).
Proof.
  intros cmd Hcall. unfold receive_result. fold cmd.
  unfold bind at 1. unfold ask at 1.
  unfold bind at 1. rewrite for_each_emit.
  unfold bind at 1.
  assert (log_task w [C cmd] (t ++ map Chmod (readonly_task_files w t task_id))
          = (t ++ map Chmod (readonly_task_files w t task_id)
               ++ (if debug_task w then [LogToFile "TASK" [C cmd]] else []),
             Ok tt)) as ->.
  { unfold log_task, when. destruct (debug_task w).
    - by rewrite emit_run, <- app_assoc.
    - unfold ret. by rewrite app_nil_r. }
  unfold bind, ask. rewrite !emit_run.
  destruct (Z.eqb_spec (call w (t ++ map Chmod (readonly_task_files w t task_id)
                                  ++ (if debug_task w
                                      then [LogToFile "TASK" [C cmd]] else [])) cmd) 0)
    as [Hz|_]; [by apply Hcall in Hz|].
  cbn [negb]. rewrite !emit_run.
  match goal with
  | |- context [Z.eqb (call w ?h cmd) 0] =>
      destruct (Z.eqb_spec (call w h cmd) 0) as [Hz|_]; [by apply Hcall in Hz|]
  end.
  cbn [negb]. unfold raise. rewrite <- !app_assoc. reflexivity.
Qed.
End ResultFacts.

Lemma receive_result_fetches_no_output_witness :
  adds (fetches_result one_gb_host "t1")
    (receive_result two_gb_world one_gb_host "t1").
Proof.
  apply (receive_result_fetches_no_output two_gb_world one_gb_host "t1").
  right. intros t. reflexivity.
Defined.

Lemma receive_result_gives_up_after_two_copies_witness :
  receive_result unreachable_world one_gb_host "t1" []
  = ([Chmod "/home/u/.sos/tasks/t1.pulse";
      LogToFile "TASK" [C (ScpResultCmd "t1" "r" 22)];
      Call (ScpResultCmd "t1" "r" 22) true;
      Call (ScpResultCmd "t1" "r" 22) false],
     Raise (RuntimeError [T "Failed to retrieve result of job "; S_ "t1";
                          T " from "; S_ "r";
                          T (" with cmd" +:+ String "010" "");
                          C (ScpResultCmd "t1" "r" 22)])).
Proof.
  apply (receive_result_gives_up_after_two_copies unreachable_world one_gb_host
           "t1" []).
  intros t'. cbn. discriminate.
Defined.

(** ** The host registry: what a lookup keeps *)

Lemma undisturbed_refl (alias : string) (p : Process) : undisturbed alias p p.
Proof. repeat split; eauto. Qed.

Lemma undisturbed_trans (alias : string) (p p1 p2 : Process) :
  undisturbed alias p p1 -> undisturbed alias p1 p2 -> undisturbed alias p p2.
Proof.
  intros (N1 & H1 & A1 & E1) (N2 & H2 & A2 & E2). repeat split.
  - lia.
  - intros alias' Hne. by rewrite H2, H1.
  - eauto.
  - intros e st Hst. destruct (E1 e st Hst) as [H|[-> H]].
    + eauto.
    + right. split; [done|]. destruct (E2 e Alive H) as [?|[? _]]; done.
Qed.

Section KeepFacts.
Variable pl : Plugins.
Variable alias : string.

Lemma new_engine_keeps (p : Process) :
  consistent p ->
  consistent (new_engine p).1
  /\ undisturbed alias p (new_engine p).1
  /\ agents (new_engine p).1 = agents p
  /\ host_instances (new_engine p).1 = host_instances p
  /\ is_Some (engines (new_engine p).1 !! (new_engine p).2).
Proof.
  intros (C1 & C2 & C3 & C4). unfold new_engine. cbn.
  split; [|split; [|by rewrite lookup_insert_eq]].
  - repeat split; cbn.
    + exact C1.
    + intros a Ha. apply C2 in Ha. lia.
    + intros e. rewrite lookup_insert. case_decide; [lia|].
      intros He. apply C3 in He. lia.
    + intros a ag e Ha He. rewrite lookup_insert. case_decide; eauto.
  - repeat split; cbn; eauto.
    intros e st Hst. left. rewrite lookup_insert_ne; [done|].
    intros <-. assert (next_id p < next_id p); [|lia].
    apply C3. by rewrite Hst.
Qed.

Lemma engines_keep (engine_type : string) (p p' : Process)
    (r : result (option nat * option nat)) :
  _get_task_and_workflow_engine pl engine_type p = (p', r) ->
  consistent p ->
  consistent p'
  /\ undisturbed alias p p'
  /\ agents p' = agents p
  /\ host_instances p' = host_instances p
  /\ (forall t wf e, r = Ok (t, wf) -> t = Some e -> is_Some (engines p' !! e)).
Proof.
  intros Hrun Hp.
  assert (forall q, consistent q ->
            consistent (new_engine (new_engine q).1).1
            /\ undisturbed alias q (new_engine (new_engine q).1).1
            /\ agents (new_engine (new_engine q).1).1 = agents q
            /\ host_instances (new_engine (new_engine q).1).1 = host_instances q
            /\ is_Some (engines (new_engine (new_engine q).1).1 !! (new_engine q).2))
    as Htwo.
  { intros q Hq.
    destruct (new_engine_keeps q Hq) as (K1 & U1 & A1 & H1 & S1).
    destruct (new_engine_keeps _ K1) as (K2 & U2 & A2 & H2 & S2).
    split; [done|]. split; [by eapply undisturbed_trans|].
    split; [by rewrite A2|]. split; [by rewrite H2|].
    destruct S1 as [st Hst]. destruct U2 as (_ & _ & _ & E2).
    destruct (E2 _ _ Hst) as [->|[_ ->]]; eauto. }
  unfold _get_task_and_workflow_engine in Hrun.
  destruct (String.eqb engine_type "process").
  - destruct (Htwo p Hp) as (K & U & A & H & Hs).
    cbn in Hrun. injection Hrun as <- <-.
    split; [exact K|]. split; [exact U|]. split; [exact A|]. split; [exact H|].
    by intros t wf e [= <- _] [= <-].
  - destruct (task_engine_entry pl engine_type),
             (workflow_engine_entry pl engine_type);
      cbn in Hrun; injection Hrun as <- <-.
    + destruct (Htwo p Hp) as (K & U & A & H & Hs).
      split; [exact K|]. split; [exact U|]. split; [exact A|]. split; [exact H|].
      by intros t wf e [= <- _] [= <-].
    + destruct (new_engine_keeps p Hp) as (K & U & A & H & Hs).
      split; [exact K|]. split; [exact U|]. split; [exact A|]. split; [exact H|].
      by intros t wf e [= <- _] [= <-].
    + destruct (new_engine_keeps p Hp) as (K & U & A & H & Hs).
      split; [exact K|]. split; [exact U|]. split; [exact A|]. split; [exact H|].
      by intros t wf e [= <- _] [=].
    + split; [exact Hp|]. split; [apply undisturbed_refl|]. by repeat split.
Qed.
End KeepFacts.

Section LookupKeeps.
Variable pl : Plugins.
Variable alias : string.

Lemma build_keeps (config : Config) (test_connection : bool) (p p' : Process)
    (r : result unit) :
  build pl alias config test_connection p = (p', r) ->
  consistent p ->
  consistent p' /\ undisturbed alias p p'.
Proof.
  intros Hrun Hp. unfold build in Hrun.
  destruct (if String.eqb (cfg_address config) "localhost" then _ else _)
    as [b|e].
  2: { injection Hrun as <- <-. split; [done | apply undisturbed_refl]. }
  match type of Hrun with
  | context [_get_task_and_workflow_engine _ _ ?q] => set (p0 := q) in *
  end.
  assert (consistent p0 /\ undisturbed alias p p0) as [K0 U0].
  { destruct Hp as (C1 & C2 & C3 & C4). split.
    - split; [|split; [|split]]; cbn.
      + intros alias' a'. rewrite !lookup_insert.
        repeat case_decide; subst; eauto. congruence.
      + intros a'. rewrite lookup_insert. case_decide; [lia|].
        intros Ha%C2. lia.
      + intros e He%C3. lia.
      + intros a' ag e. rewrite lookup_insert.
        case_decide; [by intros [= <-]|]. apply C4.
    - split; [|split; [|split]]; cbn.
      + lia.
      + intros alias' Hne. by rewrite lookup_insert_ne.
      + intros a' ag Ha. rewrite lookup_insert_ne; [done|].
        intros <-. assert (next_id p < next_id p); [|lia].
        apply C2. by rewrite Ha.
      + eauto. }
  destruct (_get_task_and_workflow_engine pl (engine_type_of config) p0)
    as [p1 r1] eqn:Heng.
  destruct (engines_keep pl alias _ _ _ _ Heng K0) as (K1 & U1 & A1 & H1 & T1).
  pose proof (undisturbed_trans _ _ _ _ U0 U1) as U01.
  destruct r1 as [[t wf]|e].
  2: { injection Hrun as <- <-. by split. }
  injection Hrun as <- <-.
  destruct K1 as (C1 & C2 & C3 & C4).
  assert (is_Some (agents p1 !! next_id p)) as Hin
    by (rewrite A1; cbn; by rewrite lookup_insert_eq).
  split.
  - split; [|split; [|split]]; cbn.
    + intros alias' a' Ha. rewrite lookup_insert. case_decide; eauto.
    + intros a'. rewrite lookup_insert. case_decide; subst; eauto.
    + exact C3.
    + intros a' ag e. rewrite lookup_insert. case_decide.
      * intros [= <-]. cbn. intros [= ->]. by eapply T1.
      * apply C4.
  - destruct U01 as (N & Hh & Ha & He). split; [|split; [|split]]; cbn; eauto.
    intros a' ag Hag. rewrite lookup_insert_ne; [eauto|].
    intros <-. assert (next_id p < next_id p); [|lia].
    destruct Hp as (_ & P2 & _). apply P2. by rewrite Hag.
Qed.

Lemma start_keeps (start_engine : bool) (t : attribute nat) (p p' : Process)
    (r : result unit) :
  start_if_needed start_engine t p = (p', r) ->
  consistent p ->
  consistent p' /\ undisturbed alias p p'.
Proof.
  intros Hrun Hp. unfold start_if_needed in Hrun.
  assert (consistent p /\ undisturbed alias p p) as Hsame
    by (split; [done | apply undisturbed_refl]).
  destruct start_engine; [|by injection Hrun as <- <-].
  destruct t as [[e|]|]; try by injection Hrun as <- <-.
  destruct (engines p !! e) as [[]|] eqn:He; try by injection Hrun as <- <-.
  injection Hrun as <- <-. destruct Hp as (C1 & C2 & C3 & C4). split.
  - split; [|split; [|split]]; cbn; eauto.
    + intros e'. rewrite lookup_insert. case_decide; subst; eauto.
    + intros a ag e' Ha Hte. rewrite lookup_insert. case_decide; eauto.
  - split; [|split; [|split]]; cbn; eauto.
    intros e' st Hst. rewrite lookup_insert. case_decide; subst; eauto.
    right. rewrite He in Hst. injection Hst as <-. done.
Qed.

Lemma lookup_keeps (config : Config) (start_engine test_connection : bool)
    (p p1 : Process) (r : result Host) :
  _get_host_agent pl alias config start_engine test_connection p = (p1, r) ->
  consistent p ->
  consistent p1 /\ undisturbed alias p p1.
Proof.
  intros Hrun Hp. unfold _get_host_agent in Hrun.
  assert (consistent p /\ undisturbed alias p p) as Hsame
    by (split; [done | apply undisturbed_refl]).
  destruct (to_build alias p) as [rebuild|]; [|by injection Hrun as <- <-].
  destruct (if rebuild then build pl alias config test_connection p else (p, Ok tt))
    as [p' r'] eqn:Hb.
  assert (consistent p' /\ undisturbed alias p p') as [K U].
  { destruct rebuild; [by eapply build_keeps | by injection Hb as <- <-]. }
  destruct r' as [[]|]; [|by injection Hrun as <- <-].
  destruct (host_instances p' !! alias) as [a|]; [|by injection Hrun as <- <-].
  destruct (agents p' !! a) as [ag|]; [|by injection Hrun as <- <-].
  destruct (start_if_needed start_engine (_task_engine ag) p') as [p2 r2] eqn:Hs.
  destruct (start_keeps _ _ _ _ _ Hs K) as [K2 U2].
  assert (p1 = p2) as -> by (destruct r2; by injection Hrun as <- _).
  split; [done | by eapply undisturbed_trans].
Qed.
End LookupKeeps.

Lemma reset_agents (f : Agent -> Agent) (l : list (string * nat))
    (m : gmap nat Agent) (a : nat) :
  (forall ag, f (f ag) = f ag) ->
  foldr (fun kv m => alter f kv.2 m) m l !! a
  = if decide (a ∈ l.*2) then f <$> m !! a else m !! a.
Proof.
  intros Hf. induction l as [|[k i] l IH]; cbn [foldr fmap list_fmap snd].
  - by rewrite decide_False by apply not_elem_of_nil.
  - destruct (decide (i = a)) as [->|Hne].
    + rewrite lookup_alter_eq, IH.
      rewrite (decide_True (P := a ∈ a :: l.*2))
        by (apply elem_of_cons; by left).
      case_decide; [|done].
      destruct (m !! a); cbn; [by rewrite Hf | done].
    + rewrite lookup_alter_ne by done. rewrite IH.
      repeat case_decide; try done.
      * exfalso. match goal with H : ¬ _ |- _ => apply H end.
        apply elem_of_cons. by right.
      * exfalso. match goal with H : _ ∈ _ :: _ |- _ =>
                   apply elem_of_cons in H as [?|?] end; [congruence | done].
Qed.

(** X14.  Whatever a lookup does, whether it returns or raises, it leaves
    the objects of a consistent process consistent, and it leaves alone
    what was there: the registrations under the other aliases and every
    agent of the process are as before, the counter of identities does
    not go back, and an engine of the process keeps its state unless it
    was fresh and has been started.  [reset] after it leaves the process
    consistent too. *)
Theorem lookup_keeps_the_rest
    (pl : Plugins) (alias : string) (config : Config)
    (start_engine test_connection : bool) (p p1 : Process) (r : result Host) :
  consistent p ->
  _get_host_agent pl alias config start_engine test_connection p = (p1, r) ->
  consistent p1 /\ undisturbed alias p p1 /\ consistent (reset p1).
Proof.
  intros Hp Hrun.
  destruct (lookup_keeps pl alias _ _ _ _ _ _ Hrun Hp) as [K U].
  split; [exact K|]. split; [exact U|].
  destruct K as (C1 & C2 & C3 & C4).
  assert (forall a ag, agents (reset p1) !! a = Some ag ->
            exists ag0, agents p1 !! a = Some ag0
                        /\ (ag = ag0 \/ ag = del_task_engine ag0)) as Hfrom.
  { intros a ag. unfold reset. cbn [agents].
    rewrite (reset_agents del_task_engine) by done.
    case_decide.
    - destruct (agents p1 !! a) as [ag0|]; [|discriminate].
      intros [= <-]. eauto.
    - eauto. }
  split; [|split; [|split]].
  - intros alias' a. unfold reset. cbn. by rewrite lookup_empty.
  - intros a [ag Hag]. destruct (Hfrom a ag Hag) as (ag0 & H0 & _).
    change (next_id (reset p1)) with (next_id p1). apply C2. by rewrite H0.
  - exact C3.
  - intros a ag e Hag Hte. change (engines (reset p1)) with (engines p1).
    destruct (Hfrom a ag Hag) as (ag0 & H0 & [->| ->]); [by eapply C4 | done].
Qed.

Lemma lookup_keeps_the_rest_witness :
  consistent
    (_get_host_agent built_in "localhost" (no_config "localhost" "localhost")
       true true new_process).1
  /\ undisturbed "localhost" new_process
       (_get_host_agent built_in "localhost" (no_config "localhost" "localhost")
          true true new_process).1
  /\ consistent
       (reset (_get_host_agent built_in "localhost" (no_config "localhost" "localhost")
                 true true new_process).1).
Proof.
  apply (lookup_keeps_the_rest built_in "localhost" (no_config "localhost" "localhost")
           true true new_process _
           (_get_host_agent built_in "localhost" (no_config "localhost" "localhost")
              true true new_process).2).
  - apply new_process_consistent.
  - by destruct (_get_host_agent _ _ _ _ _ _).
Defined.

(** X16.  A lookup that has to make the agent and cannot (for a remote
    host, [RemoteHost.__init__] raises: the connection test fails, or
    [shared] or [path_map] is refused) raises that exception and leaves
    the process as it was.  When the agent is made but neither a task
    engine nor a workflow engine of the host's [queue_type] loads, the
    lookup raises a [ValueError], but the agent stays registered under
    the alias, without engines; the next lookups of the alias do not
    make a new agent: with [start_engine] they fail on the missing
    [_task_engine] attribute, and without it they return that agent. *)
Theorem failed_engine_load_is_cached
    (pl : Plugins) (alias : string) (config : Config)
    (start_engine test_connection : bool) (p : Process) :
  to_build alias p = Ok true ->
  (forall e,
      made_agent pl config test_connection = Raise e ->
      _get_host_agent pl alias config start_engine test_connection p
      = (p, Raise e))
  /\ (forall b,
        made_agent pl config test_connection = Ok b ->
        String.eqb (engine_type_of config) "process" = false ->
        task_engine_entry pl (engine_type_of config) = false ->
        workflow_engine_entry pl (engine_type_of config) = false ->
        exists p1 msg,
          _get_host_agent pl alias config start_engine test_connection p
          = (p1, Raise (ValueError msg))
          /\ host_instances p1 !! alias = Some (next_id p)
          /\ agents p1 !! next_id p
             = Some {| body := b; _task_engine := None; _workflow_engine := None |}
          /\ (forall config' test',
                _get_host_agent pl alias config' true test' p1
                = (p1, Raise AttributeError))
          /\ (forall config' test',
                _get_host_agent pl alias config' false test' p1
                = (p1, Ok {| host_alias := alias; _host_agent := next_id p;
                             host_task_engine := None;
                             host_workflow_engine := None |}))).
Proof.
  intros Hto. split.
  - intros e Hmade. unfold _get_host_agent. rewrite Hto.
    unfold build. fold (made_agent pl config test_connection).
    by rewrite Hmade.
  - intros b Hmade Htype Ht Hwf.
    unfold _get_host_agent at 1. rewrite Hto.
    unfold build. fold (made_agent pl config test_connection).
    rewrite Hmade. unfold _get_task_and_workflow_engine.
    rewrite Htype, Ht, Hwf. cbn.
    eexists _, _. split; [reflexivity|]. cbn.
    split; [by rewrite lookup_insert_eq|].
    split; [by rewrite lookup_insert_eq|].
    split; intros config' test'; unfold _get_host_agent, to_build; cbn;
      rewrite !lookup_insert_eq; cbn; rewrite !lookup_insert_eq; reflexivity.
Qed.

Lemma failed_engine_load_is_cached_witness :
  _get_host_agent unreachable "r" (no_config "r" "r") true true new_process
  = (new_process,
     Raise (RuntimeError [T "Failed to connect to "; S_ "r"; T ": ";
                          S_ "Connection refused"]))
  /\ exists p1 msg,
       _get_host_agent built_in "q" queue_config true true new_process
       = (p1, Raise (ValueError msg))
       /\ host_instances p1 !! "q" = Some (next_id new_process)
       /\ agents p1 !! next_id new_process
          = Some {| body := LocalAgent queue_config; _task_engine := None;
                    _workflow_engine := None |}
       /\ (forall config' test',
             _get_host_agent built_in "q" config' true test' p1
             = (p1, Raise AttributeError))
       /\ (forall config' test',
             _get_host_agent built_in "q" config' false test' p1
             = (p1, Ok {| host_alias := "q"; _host_agent := next_id new_process;
                          host_task_engine := None;
                          host_workflow_engine := None |})).
Proof.
  split.
  - apply (failed_engine_load_is_cached unreachable "r" (no_config "r" "r")
             true true new_process); reflexivity.
  - apply (failed_engine_load_is_cached built_in "q" queue_config true true
             new_process); reflexivity.
Defined.

(** ** The path map made from the [paths] tables *)

Lemma prefix_arrow_cut (c : ascii) (x y : string) :
  c <> " "%char -> c <> "-"%char -> c <> ">"%char ->
  String.prefix arrow ((x +:+ String c "") +:+ y)
  = String.prefix arrow (x +:+ String c "").
Proof.
  intros H1 H2 H3. unfold arrow.
  destruct x as [|a [|b [|d [|e x]]]]; cbn [String.prefix String.append];
    repeat (destruct (ascii_dec _ _) as [?|?]; subst; try congruence).
  by destruct x.
Qed.

Lemma count_go_prefix (sep : string) (c : ascii) (s : string) :
  Py.count_go sep 0 (String c s) = 0 ->
  String.prefix sep (String c s) = false /\ Py.count_go sep 0 s = 0.
Proof.
  cbn [Py.count_go]. destruct (String.prefix sep (String c s)); [discriminate|].
  by split.
Qed.

Lemma count_go_skip (sep x s : string) :
  Py.count_go sep (String.length x) (x +:+ s) = Py.count_go sep 0 s.
Proof.
  induction x as [|a x IH]; cbn [String.length String.append Py.count_go].
  - by destruct s.
  - exact IH.
Qed.

Lemma split_go_skip (sep x s cur : string) :
  Py.split_go sep (String.length x) cur (x +:+ s) = Py.split_go sep 0 cur s.
Proof.
  induction x as [|a x IH]; cbn [String.length String.append Py.split_go].
  - by destruct s.
  - exact IH.
Qed.

Lemma count_go_at_match (sep s : string) :
  sep <> "" ->
  Py.count_go sep 0 (sep +:+ s) = S (Py.count_go sep 0 s)
  /\ forall cur,
       Py.split_go sep 0 cur (sep +:+ s) = cur :: Py.split_go sep 0 "" s.
Proof.
  intros Hsep. pose proof (prefix_append sep s) as Hp.
  destruct sep as [|a sep]; [congruence|].
  change (String a sep +:+ s) with (String a (sep +:+ s)) in *.
  split; [|intros cur]; cbn [Py.count_go Py.split_go]; rewrite Hp;
    cbn [String.length Nat.sub]; rewrite Nat.sub_0_r.
  - by rewrite count_go_skip.
  - by rewrite split_go_skip.
Qed.

Lemma arrow_encoding (c : ascii) (x to : string) :
  c <> " "%char -> c <> "-"%char -> c <> ">"%char ->
  Py.count arrow (x +:+ String c "") = 0 ->
  Py.count arrow to = 0 ->
  Py.count arrow ((x +:+ String c "") +:+ arrow +:+ to) = 1
  /\ forall cur,
       Py.split_go arrow 0 cur ((x +:+ String c "") +:+ arrow +:+ to)
       = [cur +:+ (x +:+ String c ""); to].
Proof.
  intros H1 H2 H3 Hx Hto. unfold Py.count in *.
  destruct (count_go_at_match arrow to arrow_nonempty) as [Mc Ms].
  induction x as [|a x IH].
  - pose proof (prefix_arrow_cut c "" (arrow +:+ to) H1 H2 H3) as Hcut.
    assert (String.prefix arrow (String c "") = false) as Hc
      by (unfold arrow; cbn [String.prefix]; destruct (ascii_dec _ _); congruence).
    change (("" +:+ String c "") +:+ arrow +:+ to)
      with (String c (arrow +:+ to)) in *.
    change ("" +:+ String c "") with (String c "") in *.
    rewrite Hc in Hcut. split.
    + cbn [Py.count_go]. rewrite Hcut, Mc, Hto. reflexivity.
    + intros cur. cbn [Py.split_go]. rewrite Hcut, Ms.
      rewrite (split_go_no_match _ _ _ _ Hto). reflexivity.
  - change ((String a x +:+ String c "") +:+ arrow +:+ to)
      with (String a ((x +:+ String c "") +:+ arrow +:+ to)).
    change (String a x +:+ String c "") with (String a (x +:+ String c "")) in Hx.
    apply count_go_prefix in Hx as [Hp Hx].
    pose proof (prefix_arrow_cut c (String a x) (arrow +:+ to) H1 H2 H3) as Hcut.
    change ((String a x +:+ String c "") +:+ arrow +:+ to)
      with (String a ((x +:+ String c "") +:+ arrow +:+ to)) in Hcut.
    change (String a x +:+ String c "") with (String a (x +:+ String c "")) in Hcut.
    rewrite Hp in Hcut.
    destruct (IH Hx) as [IHc IHs]. split.
    + cbn [Py.count_go]. by rewrite Hcut.
    + intros cur. cbn [Py.split_go]. rewrite Hcut, IHs.
      change (String a x +:+ String c "") with (String a (x +:+ String c "")).
      by rewrite append_assoc.
Qed.

Lemma endswith_char (s : string) (c : ascii) :
  Py.endswith s (String c "") = true -> exists x, s = x +:+ String c "".
Proof.
  unfold Py.endswith. intros [_ H]%andb_true_iff. apply String.eqb_eq in H.
  set (n := String.length s - String.length (String c "")) in *.
  exists (Py.take n s). by rewrite <- H, take_drop.
Qed.

Lemma endswith_append (x p : string) : Py.endswith (x +:+ p) p = true.
Proof.
  unfold Py.endswith. rewrite length_append. apply andb_true_iff. split.
  - apply Nat.leb_le. lia.
  - replace (String.length x + String.length p - String.length p)
      with (String.length x) by lia.
    rewrite drop_append. apply String.eqb_refl.
Qed.

Lemma parse_path_map_app (a b : list string) :
  forall res,
    parse_path_map res (a ++ b)
    = try r <- parse_path_map res a; parse_path_map r b.
Proof.
  induction a as [|v a IH]; intros res; cbn [app parse_path_map rbind].
  - reflexivity.
  - destruct (negb (Py.contains arrow v)); [reflexivity|].
    destruct (1 <? Py.count arrow v); [reflexivity|].
    destruct (Py.split arrow v) as [|from [|to ?]]; try reflexivity.
    apply IH.
Qed.

Section ConfigPathsFacts.
Variable cfg_interpolate : string -> string.
Variable os_sep : string.
Hypothesis Hsep : os_sep = "/" \/ os_sep = "\".

Lemma normalize_value_ends (x : string) :
  Py.endswith (normalize_value cfg_interpolate os_sep x) os_sep = true.
Proof.
  unfold normalize_value. cbv zeta.
  destruct (Py.endswith (cfg_interpolate x) os_sep) eqn:He; [exact He|].
  apply endswith_append.
Qed.

Lemma parse_normalized (l r : string) (rest : list string)
    (res : list (string * string)) :
  Py.count arrow (normalize_value cfg_interpolate os_sep l) = 0 ->
  Py.count arrow (normalize_value cfg_interpolate os_sep r) = 0 ->
  parse_path_map res
    ((normalize_value cfg_interpolate os_sep l +:+ " -> "
      +:+ normalize_value cfg_interpolate os_sep r) :: rest)
  = parse_path_map
      (dict_set res (normalize_value cfg_interpolate os_sep l)
         (normalize_value cfg_interpolate os_sep r)) rest.
Proof.
  intros Hl Hr.
  assert (exists c x, normalize_value cfg_interpolate os_sep l = x +:+ String c ""
                      /\ c <> " "%char /\ c <> "-"%char /\ c <> ">"%char)
    as (c & x & Hx & H1 & H2 & H3).
  { pose proof (normalize_value_ends l) as He.
    set (v := normalize_value cfg_interpolate os_sep l) in *.
    destruct Hsep as [Hs|Hs]; rewrite Hs in He;
      apply endswith_char in He as [x Hx]; eexists _, x;
      (split; [exact Hx|]); repeat split; discriminate. }
  rewrite Hx in Hl |- *.
  destruct (arrow_encoding c x _ H1 H2 H3 Hl Hr) as [Hc Hs].
  change " -> " with arrow.
  cbn [parse_path_map].
  assert (Py.contains arrow ((x +:+ String c "") +:+ arrow
                             +:+ normalize_value cfg_interpolate os_sep r) = true)
    as ->.
  { destruct (Py.contains _ _) eqn:Hn; [done|].
    apply contains_count in Hn; [congruence | apply arrow_nonempty]. }
  cbn [negb]. rewrite Hc. cbn [Nat.ltb Nat.leb].
  unfold Py.split. rewrite Hs. reflexivity.
Qed.

(** X17.  The [path_map] entries that [_get_config] makes from the
    [paths] tables of the local and the remote host are read back by
    [_get_path_map] as they were meant: whatever entries came before
    them, each name that both tables hold gives the pair of its two
    normalized paths, provided these hold no [" -> "]; no entry is
    refused, and every prefix of such a pair ends in the separator. *)
Theorem paths_tables_round_trip
    (config : Config) (lpaths rpaths : list (string * string))
    (before : list string) (res0 : list (string * string)) :
  cfg_path_map config
  = Some (PMList (before ++ paths_entries cfg_interpolate os_sep lpaths rpaths)) ->
  parse_path_map [] before = Ok res0 ->
  (forall x l, dict_get lpaths x = Some l ->
     Py.count arrow (normalize_value cfg_interpolate os_sep l) = 0) ->
  (forall x r, dict_get rpaths x = Some r ->
     Py.count arrow (normalize_value cfg_interpolate os_sep r) = 0) ->
  _get_path_map config
  = Ok (dict_update res0 (paths_pairs cfg_interpolate os_sep lpaths rpaths))
  /\ Forall (fun lr => Py.endswith lr.1 os_sep = true
                       /\ Py.endswith lr.2 os_sep = true)
       (paths_pairs cfg_interpolate os_sep lpaths rpaths).
Proof.
  intros Hc Hbefore Hl Hr. split.
  - rewrite (_get_path_map_list _ _ Hc), parse_path_map_app, Hbefore.
    cbn [rbind]. unfold paths_entries, paths_pairs.
    generalize res0. clear Hbefore Hc.
    induction (dict_keys lpaths) as [|x names IH]; intros res;
      cbn [flat_map]; [reflexivity|].
    destruct (dict_get rpaths x) as [r|] eqn:Hrx; [|apply IH].
    destruct (dict_get lpaths x) as [l|] eqn:Hlx; [|apply IH].
    cbn [app]. rewrite parse_normalized by eauto.
    rewrite IH. reflexivity.
  - unfold paths_pairs. induction (dict_keys lpaths) as [|x names IH];
      cbn [flat_map]; [constructor|].
    destruct (dict_get rpaths x) as [r|]; [|exact IH].
    destruct (dict_get lpaths x) as [l|]; [|exact IH].
    constructor; [|exact IH]. split; apply normalize_value_ends.
Qed.
End ConfigPathsFacts.

Lemma paths_tables_round_trip_witness :
  _get_path_map
    (path_map_config
       (PMList ([] ++ paths_entries (fun x => x) "/"
                        [("home", "/Users/me"); ("scratch", "/tmp/")]
                        [("home", "/home/me/")])))
  = Ok (dict_update []
          (paths_pairs (fun x => x) "/"
             [("home", "/Users/me"); ("scratch", "/tmp/")]
             [("home", "/home/me/")]))
  /\ Forall (fun lr => Py.endswith lr.1 "/" = true /\ Py.endswith lr.2 "/" = true)
       (paths_pairs (fun x => x) "/"
          [("home", "/Users/me"); ("scratch", "/tmp/")]
          [("home", "/home/me/")]).
Proof.
  apply (paths_tables_round_trip (fun x => x) "/" (or_introl eq_refl)
           (path_map_config
              (PMList ([] ++ paths_entries (fun x => x) "/"
                               [("home", "/Users/me"); ("scratch", "/tmp/")]
                               [("home", "/home/me/")])))
           [("home", "/Users/me"); ("scratch", "/tmp/")]
           [("home", "/home/me/")] [] []).
  - reflexivity.
  - reflexivity.
  - intros x l H. cbn in H. repeat case_decide; simplify_eq; reflexivity.
  - intros x r H. cbn in H. repeat case_decide; simplify_eq; reflexivity.
Defined.

(** ** A host that shares the root directory *)

Lemma rooted_cons (s : string) :
  Py.startswith s "/" = true -> exists s', s = String "/" s'.
Proof. intros [rest ->]%startswith_iff. by exists rest. Qed.

Lemma posix_normpath_rooted (path : string) :
  Py.startswith path "/" = true ->
  Py.startswith (Posix.normpath path) "/" = true.
Proof.
  intros H. destruct (rooted_cons _ H) as [p' ->].
  unfold Posix.normpath. rewrite H. cbn [String.eqb].
  change (Ascii.eqb "/" "/") with true. cbv zeta.
  destruct (Py.startswith (String "/" p') "//"
            && negb (Py.startswith (String "/" p') "///"));
    cbn [String.append String.eqb].
  - eapply (prefix_append "/").
  - eapply (prefix_append "/").
Qed.

Lemma posix_abspath_rooted (cwd path : string) :
  Py.startswith cwd "/" = true ->
  Py.startswith (Posix.abspath cwd path) "/" = true.
Proof.
  intros Hcwd. unfold Posix.abspath, Posix.isabs.
  apply posix_normpath_rooted.
  destruct (Py.startswith path "/") eqn:Hp; [exact Hp|].
  unfold Posix.join. rewrite Hp.
  destruct (rooted_cons _ Hcwd) as [c' ->].
  destruct (_ || _); cbn [String.append]; eapply (prefix_append "/").
Qed.

Section SharedRoot.
Variable w : World.
Variable self : RemoteHost.
Hypothesis Hroot : In "/" (shared_dirs self).
Hypothesis Hmap : path_map self = [].
Hypothesis Habs : forall p, Py.startswith (abspath w p) "/" = true.

Lemma root_is_shared (p : string) : is_shared w self p = true.
Proof.
  apply is_shared_spec. split.
  - exists "/". split; [exact Hroot | apply Habs].
  - rewrite Hmap. intros mdir [].
Qed.

Lemma debug_record (e : event) : is_debug e -> is_record e.
Proof. by intros [msg ->]. Qed.

Lemma send_all_records (sending : list (atom * atom)) (sources : list atom) :
  forall sent, adds is_record (send_all w self sending sources sent).
Proof.
  induction sources as [|source sources IH]; intros sent; cbn [send_all].
  - apply adds_ret.
  - adds_step; [|apply IH].
    unfold send_one. rewrite root_is_shared. unfold log_task.
    repeat adds_step; try exact I.
    apply (adds_weaken is_debug); [apply debug_record | apply _remote_abs_quiet].
Qed.

(** X18.  An agent whose shared directories hold the root directory and
    whose path map is empty copies nothing: whatever it is given,
    [send_to_host] runs no command and only writes records. *)
Theorem shared_root_sends_nothing (items : pyval) :
  adds is_record (send_to_host w self items).
Proof.
  assert (forall p, adds is_record
    (new_items <- map_m (fun item =>
                   let links := find_symbolic_links w item in
                   for_each links (fun lr =>
                     log Info [T "Adding "; S_ lr.2; T " for symbolic link "; S_ lr.1]) ;;
                   ret (map snd links)) (concat (map (glob_parent w) p)) ;;
     sending <- _map_path w self
                  (Seq (map (fun i => Atom (APath i))
                          (concat (map (glob_parent w) p) ++ concat new_items))) ;;
     sources <- lift (sorted_keys (dict_keys sending)) ;;
     send_all w self sending sources [])) as Htransfer.
  { intros p. repeat adds_step; try exact I.
    - apply (adds_weaken is_debug); [apply debug_record | apply _map_path_quiet].
    - apply send_all_records. }
  unfold send_to_host. destruct items as [[s|s|z| |r]|l|l];
    try apply Htransfer.
  4: { apply adds_bind; [|intros _; apply Htransfer].
       apply adds_when, adds_emit. exact I. }
  all: repeat adds_step; exact I.
Qed.
End SharedRoot.

Lemma shared_root_sends_nothing_witness :
  adds is_record
    (send_to_host (posix_world plain_fs) (remote_host "r" ["/"] [])
       (Seq [Atom (AStr "/a/d.txt"); Atom (AStr "e.txt")])).
Proof.
  apply (shared_root_sends_nothing (posix_world plain_fs) (remote_host "r" ["/"] [])).
  - left. reflexivity.
  - reflexivity.
  - intros p. apply posix_abspath_rooted. reflexivity.
Defined.
